(** * Caffe fillers and the batched HDF5 reader: a shallow embedding

    The development follows [include/caffe/filler.hpp] statement by
    statement.  A [Fill] is a computation in a small state-and-abort monad
    over the memory it touches (the blob's [cpu_data] and the process-wide
    generator); a failed [CHECK] aborts and leaves the memory as it was at
    that point.

    Numbers.  C++ [int] is a 32-bit two's complement integer, embedded in
    [Z] with the wrap-around written out where the source does arithmetic
    on it.  [float], [double] and [Dtype] are embedded as one type of exact
    rationals extended with a non-finite value: rounding is not modelled,
    division by zero is. *)

From Stdlib Require Import ZArith QArith Qabs Qround List String Bool Lia Lqa.
Import ListNotations.
Open Scope Z_scope.

(** ** Machine integers *)

Definition INT_MAX : Z := 2147483647.

(** Reduction of an integer to the 32-bit two's complement range. *)
Definition wrap (z : Z) : Z := (z + 2 ^ 31) mod 2 ^ 32 - 2 ^ 31.

Definition iadd (a b : Z) : Z := wrap (a + b).
Definition isub (a b : Z) : Z := wrap (a - b).
Definition imul (a b : Z) : Z := wrap (a * b).
(** C++ [/] and [%] on [int] truncate towards zero. *)
Definition idiv (a b : Z) : Z := wrap (Z.quot a b).
Definition irem (a b : Z) : Z := Z.rem a b.

(** ** Floating-point values, idealised *)

Inductive Dtype : Type :=
| Fin (q : Q)   (* a finite value, held exactly *)
| NaN.          (* not a finite number: the result of a division by zero *)

Definition Dlift2 (op : Q -> Q -> Q) (a b : Dtype) : Dtype :=
  match a, b with
  | Fin x, Fin y => Fin (op x y)
  | _, _ => NaN
  end.

Definition Dadd : Dtype -> Dtype -> Dtype := Dlift2 Qplus.
Definition Dsub : Dtype -> Dtype -> Dtype := Dlift2 Qminus.
Definition Dmul : Dtype -> Dtype -> Dtype := Dlift2 Qmult.

Definition Ddiv (a b : Dtype) : Dtype :=
  match a, b with
  | Fin x, Fin y => if Qeq_bool y 0 then NaN else Fin (x / y)
  | _, _ => NaN
  end.

Definition Dopp (a : Dtype) : Dtype :=
  match a with Fin x => Fin (- x) | NaN => NaN end.

Definition fabs (a : Dtype) : Dtype :=
  match a with Fin x => Fin (Qabs x) | NaN => NaN end.

Definition ceil (a : Dtype) : Dtype :=
  match a with Fin x => Fin (inject_Z (Qceiling x)) | NaN => NaN end.

(** Conversion of an [int] to a floating type. *)
Definition of_int (z : Z) : Dtype := Fin (inject_Z z).

(** Conversion of a floating value to [int]: truncation towards zero. *)
Definition to_int (a : Dtype) : Z :=
  match a with
  | Fin x => wrap (if Qnum x <? 0 then Qceiling x else Qfloor x)
  | NaN => - 2 ^ 31
  end.

(** Equality of values: the same finite number, or both non-finite. *)
Definition Deq (a b : Dtype) : Prop :=
  match a, b with
  | Fin x, Fin y => (x == y)%Q
  | NaN, NaN => True
  | _, _ => False
  end.

(** [Dbetween lo hi a]: [a] is finite and [lo <= a <= hi]. *)
Definition Dbetween (lo hi : Q) (a : Dtype) : Prop :=
  match a with
  | Fin x => (lo <= x /\ x <= hi)%Q
  | NaN => False
  end.

Definition Dle (a b : Dtype) : Prop :=
  match a, b with
  | Fin x, Fin y => (x <= y)%Q
  | _, _ => False
  end.

Definition is_finite (a : Dtype) : bool :=
  match a with Fin _ => true | NaN => false end.

(** Sum of a list, accumulated from the left starting at zero as the source
    loops do. *)
Definition Dsum (l : list Dtype) : Dtype := fold_left Dadd l (of_int 0).

(** ** Configuration: [FillerParameter] *)

Inductive VarianceNorm : Type := FAN_IN | FAN_OUT | AVERAGE.

Definition VarianceNorm_eqb (a b : VarianceNorm) : bool :=
  match a, b with
  | FAN_IN, FAN_IN | FAN_OUT, FAN_OUT | AVERAGE, AVERAGE => true
  | _, _ => false
  end.

Record FillerParameter : Type := {
  type : string;
  value : Dtype;
  min : Dtype;
  max : Dtype;
  mean : Dtype;
  std : Dtype;
  sparse : Z;
  variance_norm : VarianceNorm;
  scale : Dtype
}.

(** ** Fatal errors

    Every [CHECK] of the source that can fail has its constructor. *)

Inductive Fatal : Type :=
| UnknownStrategy       (* CHECK(false) << "Unknown filler name: " *)
| EmptyBuffer           (* CHECK(count), DCHECK(blob->count()), CHECK(dim) *)
| UnsupportedSparsity   (* CHECK_EQ(sparse(), -1) << "Sparsity not supported by this Filler." *)
| UnsupportedRank       (* NOT_IMPLEMENTED; a shape axis that does not exist *)
| FilterNotSquare       (* CHECK_EQ(width, height) << "Filter must be square" *)
| FilterNotCube         (* CHECK_EQ(shape(2), shape(3)), CHECK_EQ(shape(3), shape(4)) << "Filter must be cube" *)
| SparsityBelowMinusOne (* CHECK_GE(sparse, -1) *)
| NoAxes                (* CHECK_GE(blob->num_axes(), 1) *)
| DivideByZero          (* integer division by zero *)
| OutOfBounds.          (* access outside cpu_data *)

Inductive Result (A : Type) : Type :=
| Done (a : A)
| Abort (e : Fatal).
Arguments Done {A} a.
Arguments Abort {A} e.

(** ** External collaborators

    [caffe/util/math_functions.hpp], [caffe/gabor.hpp] and libm are not part
    of the sources at hand; what the fillers use of them is a parameter of
    the development. *)

Class Collaborators : Type := {
  (** State of the process-wide generator [caffe_rng()]. *)
  rng_t : Type;
  (** One variate of Uniform(a, b), Normal(mu, sigma), Bernoulli(p). *)
  uniform_variate : Dtype -> Dtype -> rng_t -> Dtype * rng_t;
  gaussian_variate : Dtype -> Dtype -> rng_t -> Dtype * rng_t;
  bernoulli_variate : Dtype -> rng_t -> Z * rng_t;
  (** libm's square root. *)
  sqrt : Dtype -> Dtype;
  (** [GaborFiller::Fill] as a whole, on the blob's shape and data: its body
      is [KernelGenerator]'s. *)
  gabor_fill : FillerParameter -> list Z -> list Dtype -> Result unit * list Dtype;
  (** Build configuration: under [NDEBUG] glog compiles every [DCHECK] out. *)
  NDEBUG : bool
}.

(** ** The monad of a [Fill] *)

Section Fillers.
Context {C : Collaborators}.

Record Memory : Type := {
  cpu_data : list Dtype;   (* blob->mutable_cpu_data() *)
  caffe_rng : rng_t        (* caffe_rng() *)
}.

Definition M (A : Type) : Type := Memory -> Result A * Memory.

Definition ret {A} (a : A) : M A := fun m => (Done a, m).

Definition bind {A B} (c : M A) (k : A -> M B) : M B :=
  fun m => match c m with
           | (Done a, m') => k a m'
           | (Abort e, m') => (Abort e, m')
           end.

Definition abort {A} (e : Fatal) : M A := fun m => (Abort e, m).

Notation "x <- c ;; k" := (bind c (fun x => k))
  (at level 61, c at next level, right associativity).
Notation "c ;; k" := (bind c (fun _ => k))
  (at level 61, right associativity).

(** [CHECK(cond)], failing with [e]. *)
Definition CHECK (cond : bool) (e : Fatal) : M unit :=
  if cond then ret tt else abort e.

(** [for (int i = 0; i < n; ++i) body], with the loop-carried local [s]. *)
Fixpoint for_from {S} (k : nat) (i : Z) (s : S) (body : Z -> S -> M S) : M S :=
  match k with
  | O => ret s
  | Datatypes.S k' => s' <- body i s ;; for_from k' (i + 1) s' body
  end.

Definition for_fold {S} (n : Z) (s : S) (body : Z -> S -> M S) : M S :=
  for_from (Z.to_nat n) 0 s body.

Definition for_ (n : Z) (body : Z -> M unit) : M unit :=
  for_fold n tt (fun i _ => body i).

(** [l] with position [i] set to [v]. *)
Fixpoint upd {A} (l : list A) (i : nat) (v : A) : list A :=
  match l, i with
  | [], _ => []
  | _ :: t, O => v :: t
  | h :: t, Datatypes.S i' => h :: upd t i' v
  end.

(** [data[i]] as an rvalue. *)
Definition get_data (i : Z) : M Dtype :=
  fun m =>
    if (0 <=? i) && (i <? Z.of_nat (List.length (cpu_data m)))
    then (Done (nth (Z.to_nat i) (cpu_data m) NaN), m)
    else (Abort OutOfBounds, m).

(** [data[i] = v]. *)
Definition set_data (i : Z) (v : Dtype) : M unit :=
  fun m =>
    if (0 <=? i) && (i <? Z.of_nat (List.length (cpu_data m)))
    then (Done tt, {| cpu_data := upd (cpu_data m) (Z.to_nat i) v;
                      caffe_rng := caffe_rng m |})
    else (Abort OutOfBounds, m).

(** One step of the generator. *)
Definition draw {A} (variate : rng_t -> A * rng_t) : M A :=
  fun m => let (x, g) := variate (caffe_rng m) in
           (Done x, {| cpu_data := cpu_data m; caffe_rng := g |}).

(** ** Blob accessors

    [caffe/blob.hpp] is not among the sources.  A blob is passed to a [Fill]
    as its shape; its elements are the [cpu_data] of the memory. *)

(** Modelled from the spec: [Blob::count()], the "total element count" of a
    buffer whose shape is an "ordered sequence of non-negative integers";
    the class [Blob] is missing. *)
Definition blob_count (shape : list Z) : Z := fold_left Z.mul shape 1.

(** Modelled from the spec: [Blob::num_axes()], the number of shape axes;
    the class [Blob] is missing. *)
Definition num_axes (shape : list Z) : Z := Z.of_nat (List.length shape).

(** Modelled from the spec: [Blob::shape(i)], the "shape axis lookup"; a
    strategy applied to a buffer without the axis it needs fails with
    UnsupportedRank ("shape incompatible with requested strategy").  The
    class [Blob] is missing. *)
Definition blob_shape (shape : list Z) (i : nat) : M Z :=
  match nth_error shape i with
  | Some d => ret d
  | None => abort UnsupportedRank
  end.

(** Modelled from the spec: [Blob::num()], the number of "leading-axis
    groups"; the class [Blob] is missing. *)
Definition blob_num (shape : list Z) : M Z := blob_shape shape 0.

(** Modelled from the spec: [Blob::height()] and [Blob::width()], axes 2 and
    3 of a buffer [batch, channels, height, width]; the class [Blob] is
    missing. *)
Definition blob_height (shape : list Z) : M Z := blob_shape shape 2.
Definition blob_width (shape : list Z) : M Z := blob_shape shape 3.

(** Integer division and remainder as the hardware does them: a zero divisor
    traps. *)
Definition int_div (a b : Z) : M Z :=
  if b =? 0 then abort DivideByZero else ret (idiv a b).

Definition int_rem (a b : Z) : M Z :=
  if b =? 0 then abort DivideByZero else ret (irem a b).

(** The same on [size_t], after the usual conversion of an [int] operand. *)
Definition to_size_t (z : Z) : Z := z mod 2 ^ 64.

Definition size_div (a b : Z) : M Z :=
  if to_size_t b =? 0 then abort DivideByZero else ret (to_size_t a / to_size_t b).

Definition size_rem (a b : Z) : M Z :=
  if to_size_t b =? 0 then abort DivideByZero else ret (to_size_t a mod to_size_t b).

(** [DCHECK(cond)]: a [CHECK] in a debug build, nothing otherwise. *)
Definition DCHECK (cond : bool) (e : Fatal) : M unit :=
  if NDEBUG then ret tt else CHECK cond e.

(** ** Generator routines

    [caffe/util/math_functions.hpp] is not among the sources.  What the
    routines check of their own arguments is theirs and is not modelled. *)

(** Modelled from the spec: [caffe_rng_uniform(n, a, b, r)], "every element
    ~ Uniform(min, max) i.i.d.", one step of the process-wide generator per
    element; the routine is missing. *)
Definition caffe_rng_uniform (n : Z) (a b : Dtype) : M unit :=
  for_ n (fun i => v <- draw (uniform_variate a b) ;; set_data i v).

(** Modelled from the spec: [caffe_rng_gaussian(n, mu, sigma, r)], "every
    element ~ Normal(mean, std) i.i.d."; the routine is missing. *)
Definition caffe_rng_gaussian (n : Z) (mu sigma : Dtype) : M unit :=
  for_ n (fun i => v <- draw (gaussian_variate mu sigma) ;; set_data i v).

(** Modelled from the spec: [caffe_rng_bernoulli(n, p, r)], "a Bernoulli(p)
    mask per element", "an independent random draw per element"; the
    routine is missing.  The mask goes to a buffer of its own, returned
    here. *)
Definition caffe_rng_bernoulli (n : Z) (p : Dtype) : M (list Z) :=
  for_fold n [] (fun _ mask => v <- draw (bernoulli_variate p) ;; ret (mask ++ [v])).

(** ** The fillers *)

(** [ConstantFiller::Fill] *)
Definition ConstantFiller_Fill (param : FillerParameter) (blob : list Z) : M unit :=
  let count := blob_count blob in
  let value := value param in
  CHECK (negb (count =? 0)) EmptyBuffer ;;
  for_ count (fun i => set_data i value) ;;
  CHECK (sparse param =? -1) UnsupportedSparsity.

(** [UniformFiller::Fill] *)
Definition UniformFiller_Fill (param : FillerParameter) (blob : list Z) : M unit :=
  CHECK (negb (blob_count blob =? 0)) EmptyBuffer ;;
  caffe_rng_uniform (blob_count blob) (min param) (max param) ;;
  CHECK (sparse param =? -1) UnsupportedSparsity.

(** [GaussianFiller::Fill].  The mask lives in [rand_vec_], a buffer of the
    filler's own. *)
Definition GaussianFiller_Fill (param : FillerParameter) (blob : list Z) : M unit :=
  CHECK (negb (blob_count blob =? 0)) EmptyBuffer ;;
  caffe_rng_gaussian (blob_count blob) (mean param) (std param) ;;
  let sparse := sparse param in
  CHECK (-1 <=? sparse) SparsityBelowMinusOne ;;
  if 0 <=? sparse then
    CHECK (1 <=? num_axes blob) NoAxes ;;
    num_outputs <- blob_shape blob 0 ;;
    let non_zero_probability := Ddiv (of_int sparse) (of_int num_outputs) in
    mask <- caffe_rng_bernoulli (blob_count blob) non_zero_probability ;;
    for_ (blob_count blob) (fun i =>
      x <- get_data i ;;
      set_data i (Dmul x (of_int (nth (Z.to_nat i) mask 0))))
  else ret tt.

(** [PositiveUnitballFiller::Fill] *)
Definition PositiveUnitballFiller_Fill (param : FillerParameter) (blob : list Z) : M unit :=
  DCHECK (negb (blob_count blob =? 0)) EmptyBuffer ;;
  caffe_rng_uniform (blob_count blob) (of_int 0) (of_int 1) ;;
  shape0 <- blob_shape blob 0 ;;
  dim <- int_div (blob_count blob) shape0 ;;
  CHECK (negb (dim =? 0)) EmptyBuffer ;;
  num <- blob_num blob ;;
  for_ num (fun i =>
    sum <- for_fold dim (of_int 0) (fun j sum =>
             x <- get_data (iadd (imul i dim) j) ;;
             ret (Dadd sum x)) ;;
    for_ dim (fun j =>
      x <- get_data (iadd (imul i dim) j) ;;
      set_data (iadd (imul i dim) j) (Ddiv x sum))) ;;
  CHECK (sparse param =? -1) UnsupportedSparsity.

(** The [n] of [XavierFiller] and [MSRAFiller], from [fan_in] and [fan_out]. *)
Definition fan_n (param : FillerParameter) (fan_in fan_out : Z) : Dtype :=
  if VarianceNorm_eqb (variance_norm param) AVERAGE then
    Ddiv (of_int (iadd fan_in fan_out)) (of_int 2)
  else if VarianceNorm_eqb (variance_norm param) FAN_OUT then
    of_int fan_out
  else of_int fan_in.

(** [XavierFiller::Fill] *)
Definition XavierFiller_Fill (param : FillerParameter) (blob : list Z) : M unit :=
  CHECK (negb (blob_count blob =? 0)) EmptyBuffer ;;
  shape0 <- blob_shape blob 0 ;;
  fan_in <- int_div (blob_count blob) shape0 ;;
  shape1 <- blob_shape blob 1 ;;
  fan_out <- int_div (blob_count blob) shape1 ;;
  let n := fan_n param fan_in fan_out in
  let scale := sqrt (Ddiv (of_int 3) n) in
  caffe_rng_uniform (blob_count blob) (Dopp scale) scale ;;
  CHECK (sparse param =? -1) UnsupportedSparsity.

(** [MSRAFiller::Fill] *)
Definition MSRAFiller_Fill (param : FillerParameter) (blob : list Z) : M unit :=
  CHECK (negb (blob_count blob =? 0)) EmptyBuffer ;;
  shape0 <- blob_shape blob 0 ;;
  fan_in <- int_div (blob_count blob) shape0 ;;
  shape1 <- blob_shape blob 1 ;;
  fan_out <- int_div (blob_count blob) shape1 ;;
  let n := fan_n param fan_in fan_out in
  let std := Dmul (scale param) (sqrt (Ddiv (of_int 2) n)) in
  caffe_rng_gaussian (blob_count blob) (of_int 0) std ;;
  CHECK (sparse param =? -1) UnsupportedSparsity.

(** [f] and [c] of [BilinearFiller], from the spatial extent. *)
Definition bilinear_f (extent : Z) : Z :=
  to_int (ceil (Ddiv (of_int extent) (of_int 2))).

Definition bilinear_c (f : Z) : Dtype :=
  Ddiv (of_int (isub (isub (imul 2 f) 1) (irem f 2))) (Dmul (of_int 2) (of_int f)).

(** [1 - fabs(x / f - c)] *)
Definition tent (f : Z) (c : Dtype) (x : Dtype) : Dtype :=
  Dsub (of_int 1) (fabs (Dsub (Ddiv x (of_int f)) c)).

(** [BilinearFiller::Fill] *)
Definition BilinearFiller_Fill (param : FillerParameter) (blob : list Z) : M unit :=
  if num_axes blob =? 4 then
    width <- blob_width blob ;;
    height <- blob_height blob ;;
    CHECK (width =? height) FilterNotSquare ;;
    let f := bilinear_f width in
    let c := bilinear_c f in
    for_ (blob_count blob) (fun i =>
      xi <- int_rem i width ;;
      let x := of_int xi in
      q <- int_div i width ;;
      yi <- int_rem q height ;;
      let y := of_int yi in
      set_data i (Dmul (tent f c x) (tent f c y))) ;;
    CHECK (sparse param =? -1) UnsupportedSparsity
  else if num_axes blob =? 5 then
    shape2 <- blob_shape blob 2 ;;
    shape3 <- blob_shape blob 3 ;;
    shape4 <- blob_shape blob 4 ;;
    CHECK (shape2 =? shape3) FilterNotCube ;;
    CHECK (shape3 =? shape4) FilterNotCube ;;
    let f := bilinear_f shape2 in
    let c := bilinear_c f in
    for_ (blob_count blob) (fun i =>
      xi <- size_rem i shape4 ;;
      let x := of_int xi in
      q <- size_div i shape4 ;;
      yi <- size_rem q shape3 ;;
      let y := of_int yi in
      q' <- size_div i (imul shape3 shape4) ;;
      zi <- size_rem q' shape2 ;;
      let z := of_int zi in
      set_data i (Dmul (Dmul (tent f c x) (tent f c y)) (tent f c z))) ;;
    CHECK (sparse param =? -1) UnsupportedSparsity
  else abort UnsupportedRank.

(** [GaborFiller::Fill] *)
Definition GaborFiller_Fill (param : FillerParameter) (blob : list Z) : M unit :=
  fun m => let (r, d) := gabor_fill param blob (cpu_data m) in
           (r, {| cpu_data := d; caffe_rng := caffe_rng m |}).

(** ** The registry *)

(** The subclasses of [Filler], each bound to its [filler_param_]. *)
Inductive Filler : Type :=
| ConstantFiller (param : FillerParameter)
| GaussianFiller (param : FillerParameter)
| PositiveUnitballFiller (param : FillerParameter)
| UniformFiller (param : FillerParameter)
| XavierFiller (param : FillerParameter)
| MSRAFiller (param : FillerParameter)
| BilinearFiller (param : FillerParameter)
| GaborFiller (param : FillerParameter).

(** [GetFiller] *)
Definition GetFiller (param : FillerParameter) : Result Filler :=
  let type := type param in
  if String.eqb type "constant" then Done (ConstantFiller param)
  else if String.eqb type "gaussian" then Done (GaussianFiller param)
  else if String.eqb type "positive_unitball" then Done (PositiveUnitballFiller param)
  else if String.eqb type "uniform" then Done (UniformFiller param)
  else if String.eqb type "xavier" then Done (XavierFiller param)
  else if String.eqb type "msra" then Done (MSRAFiller param)
  else if String.eqb type "bilinear" then Done (BilinearFiller param)
  else if String.eqb type "gabor" then Done (GaborFiller param)
  else Abort UnknownStrategy.

(** The virtual [Filler::Fill]. *)
Definition Fill (filler : Filler) (blob : list Z) : M unit :=
  match filler with
  | ConstantFiller param => ConstantFiller_Fill param blob
  | GaussianFiller param => GaussianFiller_Fill param blob
  | PositiveUnitballFiller param => PositiveUnitballFiller_Fill param blob
  | UniformFiller param => UniformFiller_Fill param blob
  | XavierFiller param => XavierFiller_Fill param blob
  | MSRAFiller param => MSRAFiller_Fill param blob
  | BilinearFiller param => BilinearFiller_Fill param blob
  | GaborFiller param => GaborFiller_Fill param blob
  end.

(** The strategy name a filler object stands for. *)
Definition strategy (filler : Filler) : string :=
  match filler with
  | ConstantFiller _ => "constant"
  | GaussianFiller _ => "gaussian"
  | PositiveUnitballFiller _ => "positive_unitball"
  | UniformFiller _ => "uniform"
  | XavierFiller _ => "xavier"
  | MSRAFiller _ => "msra"
  | BilinearFiller _ => "bilinear"
  | GaborFiller _ => "gabor"
  end.

Definition filler_param_ (filler : Filler) : FillerParameter :=
  match filler with
  | ConstantFiller p | GaussianFiller p | PositiveUnitballFiller p
  | UniformFiller p | XavierFiller p | MSRAFiller p | BilinearFiller p
  | GaborFiller p => p
  end.

(** ** Vocabulary of the statements *)

(** A blob as the fillers receive it: every extent is a non-negative [int],
    so is the element count, and [cpu_data] holds [count] elements. *)
Definition blob_ok (blob : list Z) (m : Memory) : Prop :=
  Forall (fun d => 0 <= d <= INT_MAX) blob /\
  blob_count blob <= INT_MAX /\
  Z.of_nat (List.length (cpu_data m)) = blob_count blob.

(** The generator after [k] variates, and the [k]-th variate (from 0). *)
Fixpoint rng_after {A} (variate : rng_t -> A * rng_t) (k : nat) (g : rng_t) : rng_t :=
  match k with
  | O => g
  | Datatypes.S k' => snd (variate (rng_after variate k' g))
  end.

Definition draw_at {A} (variate : rng_t -> A * rng_t) (k : nat) (g : rng_t) : A :=
  fst (variate (rng_after variate k g)).

(** The first [n] variates. *)
Definition draws {A} (variate : rng_t -> A * rng_t) (n : nat) (g : rng_t) : list A :=
  map (fun k => draw_at variate k g) (seq 0 n).

(** The [i]-th group of [dim] consecutive elements. *)
Definition group {A} (dim i : nat) (l : list A) : list A :=
  firstn dim (skipn (i * dim) l).

(** A list of groups of [dim], each element divided by the sum of its group. *)
Definition normalized (dim : nat) (u : list Dtype) : list Dtype :=
  map (fun k => Ddiv (nth k u NaN) (Dsum (group dim (k / dim) u)))
      (seq 0 (List.length u)).

(** The element [BilinearFiller::Fill] writes at linear index [k] of a
    4-axis blob of the given width and height, and of a 5-axis blob of the
    given trailing extents. *)
Definition bilinear_kernel4 (width height : Z) (k : nat) : Dtype :=
  let f := bilinear_f width in
  let c := bilinear_c f in
  Dmul (tent f c (of_int (Z.of_nat k mod width)))
       (tent f c (of_int ((Z.of_nat k / width) mod height))).

Definition bilinear_kernel5 (shape2 shape3 shape4 : Z) (k : nat) : Dtype :=
  let f := bilinear_f shape2 in
  let c := bilinear_c f in
  Dmul (Dmul (tent f c (of_int (Z.of_nat k mod shape4)))
             (tent f c (of_int ((Z.of_nat k / shape4) mod shape3))))
       (tent f c (of_int ((Z.of_nat k / (shape3 * shape4)) mod shape2))).

(** What [positive_unitball] relies on of [caffe_rng_uniform(n, 0, 1, r)]:
    every variate is a number of the closed interval [0, 1]. *)
Definition uniform_in_unit_interval : Prop :=
  forall g, Dbetween 0 1 (fst (uniform_variate (of_int 0) (of_int 1) g)).

(** The same parameters with another sparsity, and a filler rebound to them. *)
Definition with_sparse (param : FillerParameter) (s : Z) : FillerParameter :=
  {| type := type param; value := value param; min := min param;
     max := max param; mean := mean param; std := std param;
     sparse := s; variance_norm := variance_norm param; scale := scale param |}.

Definition rebind (filler : Filler) (param : FillerParameter) : Filler :=
  match filler with
  | ConstantFiller _ => ConstantFiller param
  | GaussianFiller _ => GaussianFiller param
  | PositiveUnitballFiller _ => PositiveUnitballFiller param
  | UniformFiller _ => UniformFiller param
  | XavierFiller _ => XavierFiller param
  | MSRAFiller _ => MSRAFiller param
  | BilinearFiller _ => BilinearFiller param
  | GaborFiller _ => GaborFiller param
  end.

(** The six strategies that end on [CHECK_EQ(sparse(), -1)] and whose body
    is in [filler.hpp]. *)
Definition forbids_sparsity (filler : Filler) : bool :=
  match filler with
  | GaussianFiller _ | GaborFiller _ => false
  | _ => true
  end.

(** What each of them checks besides the sparsity. *)
Definition other_checks_pass (filler : Filler) (blob : list Z) : bool :=
  match filler with
  | ConstantFiller _ | UniformFiller _ => negb (blob_count blob =? 0)
  | PositiveUnitballFiller _ => negb (blob_count blob =? 0) && (1 <=? num_axes blob)
  | XavierFiller _ | MSRAFiller _ => negb (blob_count blob =? 0) && (2 <=? num_axes blob)
  | BilinearFiller _ =>
      match blob with
      | [_; _; s2; s3] => s3 =? s2
      | [_; _; s2; s3; s4] => (s2 =? s3) && (s3 =? s4)
      | _ => false
      end
  | GaussianFiller _ | GaborFiller _ => false
  end.

End Fillers.

Notation "x <- c ;; k" := (bind c (fun x => k))
  (at level 61, c at next level, right associativity).
Notation "c ;; k" := (bind c (fun _ => k))
  (at level 61, right associativity).

(** The strategy names of the specification, and those [GetFiller] knows. *)
Definition documented_names : list string :=
  ["constant"; "gaussian"; "positive_unitball"; "uniform"; "xavier"; "msra";
   "bilinear"]%string.

Definition registered_names : list string := documented_names ++ ["gabor"%string].

(** ** The bilinear kernel in closed form *)

(** [ceil(extent / 2)] *)
Definition ceil_half (extent : Z) : Z := Qceiling (inject_Z extent / 2).

(** [c = (2f - 1 - f mod 2) / (2f)] *)
Definition center (f : Z) : Q := inject_Z (2 * f - 1 - f mod 2) / (2 * inject_Z f).

(** [1 - |coord / f - c|] *)
Definition pyramid (f : Z) (coord : Z) : Q :=
  1 - Qabs (inject_Z coord / inject_Z f - center f).

(** The largest value [pyramid f] takes on integer coordinates. *)
Definition peak (f : Z) : Q :=
  if Z.odd f then 1 else 1 - 1 / (2 * inject_Z f).

(** The [n] of xavier and msra as the documentation gives it. *)
Definition documented_n (norm : VarianceNorm) (fan_in fan_out : Z) : Q :=
  match norm with
  | FAN_IN => inject_Z fan_in
  | FAN_OUT => inject_Z fan_out
  | AVERAGE => (inject_Z fan_in + inject_Z fan_out) / 2
  end.

(** ** Collaborators and inputs to run the model on *)

(** A generator of period 8 over [Z]; its variates are affine images of
    [k/7], [k = 0..7]. *)
Definition sample_unit (g : Z) : Q := inject_Z (g mod 8) / 7.
Definition sample_next (g : Z) : Z := (5 * g + 3) mod 8.

(** The square root rounded down to the argument's denominator: exact on
    the square of a rational in lowest terms. *)
Definition sqrt_floor (a : Dtype) : Dtype :=
  match a with
  | Fin q =>
      if Qnum q <? 0 then NaN
      else Fin (Z.sqrt (Qnum (Qred q)) # Pos.sqrt (Qden (Qred q)))
  | NaN => NaN
  end.

Definition sample_collaborators : Collaborators := {|
  rng_t := Z;
  uniform_variate a b g :=
    (Dadd a (Dmul (Dsub b a) (Fin (sample_unit g))), sample_next g);
  gaussian_variate mu sigma g :=
    (Dadd mu (Dmul sigma (Fin (sample_unit g - 1 / 2))), sample_next g);
  bernoulli_variate p g :=
    (match p with
     | Fin q => if Qle_bool (sample_unit g) q then 1 else 0
     | NaN => 0
     end, sample_next g);
  sqrt := sqrt_floor;
  gabor_fill _ _ d := (Done tt, d);
  NDEBUG := true
|}.

Definition sample_param (name : string) (s : Z) (norm : VarianceNorm) : FillerParameter :=
  {| type := name; value := of_int 7; min := of_int 0; max := of_int 1;
     mean := of_int 0; std := of_int 1; sparse := s; variance_norm := norm;
     scale := of_int 1 |}.

Definition sample_memory (data : list Dtype) (seed : Z) : @Memory sample_collaborators :=
  @Build_Memory sample_collaborators data seed.

(** ** The batched cyclic reader

    [caffe/layers/hdf5_data_layer.hpp] and its implementation are not among
    the sources; only the test [HDF5DataLayerTest::TestRead] is.  The reader
    below follows section 4.3 of the specification. *)

Section Reader.
Variable A : Type.

(** Modelled from the spec: a column of a data source table, one list of
    values (row-major) per row; the HDF5 file format is missing. *)
Definition Column : Type := list (list A).

(** Modelled from the spec: an on-disk file, its named columns of identical
    row count; [HDF5DataLayer::LoadHDF5FileData] is missing. *)
Definition File : Type := list (string * Column).

(** Modelled from the spec: the state of the reader, [HDF5DataLayer]'s members
    [hdf_filenames_], [current_file_], [current_row_] and [hdf_blobs_], the
    columns of the active file. *)
Record Reader : Type := {
  files : list File;
  batch_size : nat;
  file_index : nat;
  row_cursor : nat;
  window : File
}.

(** Modelled from the spec: the row count of a file, that of its columns. *)
Definition num_rows (f : File) : nat :=
  match f with
  | [] => 0%nat
  | (_, col) :: _ => List.length col
  end.

(** Modelled from the spec: lookup of a column by name. *)
Fixpoint column (name : string) (f : File) : Column :=
  match f with
  | [] => []
  | (n, col) :: rest => if String.eqb n name then col else column name rest
  end.

(** Modelled from the spec: [HDF5DataLayer::LayerSetUp], "set file_index = 0,
    row_cursor = 0; current file's columns become the active in-memory
    window". *)
Definition LayerSetUp (fs : list File) (batch : nat) : Reader :=
  {| files := fs; batch_size := batch; file_index := 0; row_cursor := 0;
     window := nth 0 fs [] |}.

(** Modelled from the spec: the first half of a batch request in
    [HDF5DataLayer::Forward], "if row_cursor + batch_size exceeds the active
    file's row count, reset row_cursor to 0, advance file_index (wrapping to
    0 past the last file), and load the new file's columns". *)
Definition wrap_cursor (r : Reader) : Reader :=
  if (num_rows (window r) <? row_cursor r + batch_size r)%nat then
    let next := ((file_index r + 1) mod List.length (files r))%nat in
    {| files := files r; batch_size := batch_size r; file_index := next;
       row_cursor := 0; window := nth next (files r) [] |}
  else r.

(** Modelled from the spec: rows [[cursor, cursor + batch_size)] of a column,
    copied row-major into an output buffer. *)
Definition rows_at (cursor batch : nat) (col : Column) : list A :=
  List.concat (firstn batch (skipn cursor col)).

(** Modelled from the spec: [HDF5DataLayer::Forward], one batch request for
    the columns [tops]; it returns the output buffers and the reader with
    its cursor advanced by [batch_size]. *)
Definition Forward (r : Reader) (tops : list string) : list (list A) * Reader :=
  let r1 := wrap_cursor r in
  (map (fun name => rows_at (row_cursor r1) (batch_size r1) (column name (window r1))) tops,
   {| files := files r1; batch_size := batch_size r1; file_index := file_index r1;
      row_cursor := (row_cursor r1 + batch_size r1)%nat; window := window r1 |}).

(** Modelled from the spec: the reader after [k] batch requests, and the
    buffers of request number [k] (from 0). *)
Fixpoint after (k : nat) (r : Reader) (tops : list string) : Reader :=
  match k with
  | O => r
  | Datatypes.S k' => snd (Forward (after k' r tops) tops)
  end.

Definition batch (k : nat) (r : Reader) (tops : list string) : list (list A) :=
  fst (Forward (after k r tops) tops).

(** Every requested column of [f] has [R] rows, and so has [f]. *)
Definition has_rows (R : nat) (tops : list string) (f : File) : Prop :=
  num_rows f = R /\ Forall (fun name => List.length (column name f) = R) tops.

End Reader.

Arguments files {A}. Arguments batch_size {A}. Arguments file_index {A}.
Arguments row_cursor {A}. Arguments window {A}.
Arguments num_rows {A}. Arguments column {A}. Arguments LayerSetUp {A}.
Arguments wrap_cursor {A}. Arguments rows_at {A}. Arguments Forward {A}.
Arguments after {A}. Arguments batch {A}. Arguments has_rows {A}.

(** The sample files of the test: [rows] rows, a [data] column of
    [row_size] values per row counting up from [offset] in row-major order,
    and the 1-indexed columns [label] and [label2]. *)
Definition sample_file (rows row_size : nat) (offset : Z) : File Z :=
  [("data"%string,
    map (fun r => map (fun e => offset + Z.of_nat (r * row_size + e)) (seq 0 row_size))
        (seq 0 rows));
   ("label"%string, map (fun r => [1 + Z.of_nat r]) (seq 0 rows));
   ("label2"%string, map (fun r => [2 + Z.of_nat r]) (seq 0 rows))].

Definition sample_tops : list string := ["data"; "label"; "label2"]%string.

(** What the test expects at iteration [iter]: [file_offset + data_offset +
    idx] in the data buffer, [label_offset + i] and [label2_offset + i] in
    the label buffers. *)
Definition TestRead_expected (batch_size data_size : nat) (iter : nat) : list (list Z) :=
  let label_offset := 1 + (if (iter mod 2 =? 0)%nat then 0 else Z.of_nat batch_size) in
  let label2_offset := 1 + label_offset in
  let data_offset := if (iter mod 2 =? 0)%nat then 0 else Z.of_nat (batch_size * data_size) in
  let file_offset := if (iter mod 4 <? 2)%nat then 0 else 2400 in
  [map (fun idx => file_offset + data_offset + Z.of_nat idx) (seq 0 (batch_size * data_size));
   map (fun i => label_offset + Z.of_nat i) (seq 0 batch_size);
   map (fun i => label2_offset + Z.of_nat i) (seq 0 batch_size)].


(** ** Further vocabulary *)

Section Contracts.
Context {C : Collaborators}.

(** What a caller of [caffe_rng_uniform(n, a, b, r)] relies on: with
    [a <= b] every variate is a number of the closed interval [a, b]. *)
Definition uniform_in_range : Prop :=
  forall (lo hi : Q) (g : rng_t),
    (lo <= hi)%Q -> Dbetween lo hi (fst (uniform_variate (Fin lo) (Fin hi) g)).

(** What a caller of [caffe_rng_bernoulli(n, p, r)] relies on: every mask
    value is 0 or 1. *)
Definition bernoulli_is_bit : Prop :=
  forall (p : Dtype) (g : rng_t),
    fst (bernoulli_variate p g) = 0 \/ fst (bernoulli_variate p g) = 1.

End Contracts.

(** The fillers whose [Fill] starts on [CHECK(blob->count())]. *)
Definition checks_count (filler : Filler) : bool :=
  match filler with
  | ConstantFiller _ | UniformFiller _ | GaussianFiller _
  | XavierFiller _ | MSRAFiller _ => true
  | _ => false
  end.

(** The fillers in which only the sparsity check comes after a write. *)
Definition validates_first (filler : Filler) : bool :=
  match filler with
  | ConstantFiller _ | UniformFiller _ | XavierFiller _ | MSRAFiller _
  | BilinearFiller _ => true
  | _ => false
  end.

(** The fillers whose body is in [filler.hpp]. *)
Definition in_filler_hpp (filler : Filler) : bool :=
  match filler with GaborFiller _ => false | _ => true end.

(** The kernel size the documentation of [BilinearFiller] prescribes for an
    upsampling factor: [2 * factor - factor % 2]. *)
Definition kernel_size (factor : Z) : Z := 2 * factor - factor mod 2.

(** The coordinates below [K] congruent to [r] modulo [f], for [r < f] and
    [K <= 2f]: those one output pixel of a stride-[f] deconvolution reads
    the kernel at. *)
Definition strided (K f r : Z) : list Z :=
  filter (fun x => x <? K) [r; r + f].

(** The element at row [y], column [x] of channel [ch] of a buffer of
    [K x K] kernels. *)
Definition kernel_at (data : list Dtype) (K ch y x : Z) : Dtype :=
  nth (Z.to_nat (ch * (K * K) + y * K + x)) data NaN.
(** * Facts *)

(** ** Integers, lists and the monad *)

Lemma wrap_small (z : Z) : - 2 ^ 31 <= z <= INT_MAX -> wrap z = z.
Proof.
  unfold wrap, INT_MAX. intros H.
  rewrite Z.mod_small by lia. lia.
Qed.

Lemma length_upd {A} (l : list A) (i : nat) (v : A) :
  List.length (upd l i v) = List.length l.
Proof.
  revert i. induction l as [|h t IH]; intros [|i]; simpl; auto.
Qed.

Lemma nth_upd {A} (l : list A) (i k : nat) (v d : A) :
  (i < List.length l)%nat ->
  nth k (upd l i v) d = if (k =? i)%nat then v else nth k l d.
Proof.
  revert i k. induction l as [|h t IH]; intros i k Hi; simpl in Hi; [lia|].
  destruct i as [|i], k as [|k]; simpl; auto.
  apply IH. lia.
Qed.

Lemma nth_ext_NaN (l1 l2 : list Dtype) :
  List.length l1 = List.length l2 ->
  (forall k, (k < List.length l1)%nat -> nth k l1 NaN = nth k l2 NaN) ->
  l1 = l2.
Proof.
  intros Hl Hn. apply nth_ext with (d := NaN) (d' := NaN); auto.
Qed.

Section FillerFacts.
Context {C : Collaborators}.

Lemma Memory_ext (m1 m2 : Memory) :
  cpu_data m1 = cpu_data m2 -> caffe_rng m1 = caffe_rng m2 -> m1 = m2.
Proof.
  destruct m1, m2; simpl; intros; subst; reflexivity.
Qed.

Lemma bind_Done {A B} (c : M A) (k : A -> M B) m a m' :
  c m = (Done a, m') -> bind c k m = k a m'.
Proof. unfold bind. intros ->. reflexivity. Qed.

Lemma bind_Abort {A B} (c : M A) (k : A -> M B) m e m' :
  c m = (Abort e, m') -> bind c k m = (Abort e, m').
Proof. unfold bind. intros ->. reflexivity. Qed.

Lemma CHECK_true e m : CHECK true e m = (Done tt, m).
Proof. reflexivity. Qed.

Lemma CHECK_false e m : CHECK false e m = (Abort e, m).
Proof. reflexivity. Qed.

Lemma get_data_in (i : nat) m :
  (i < List.length (cpu_data m))%nat ->
  get_data (Z.of_nat i) m = (Done (nth i (cpu_data m) NaN), m).
Proof.
  intros H. unfold get_data.
  replace (0 <=? Z.of_nat i) with true by (symmetry; apply Z.leb_le; lia).
  replace (Z.of_nat i <? Z.of_nat (List.length (cpu_data m))) with true
    by (symmetry; apply Z.ltb_lt; lia).
  simpl. rewrite Nat2Z.id. reflexivity.
Qed.

Lemma set_data_in (i : nat) v m :
  (i < List.length (cpu_data m))%nat ->
  set_data (Z.of_nat i) v m =
  (Done tt, {| cpu_data := upd (cpu_data m) i v; caffe_rng := caffe_rng m |}).
Proof.
  intros H. unfold set_data.
  replace (0 <=? Z.of_nat i) with true by (symmetry; apply Z.leb_le; lia).
  replace (Z.of_nat i <? Z.of_nat (List.length (cpu_data m))) with true
    by (symmetry; apply Z.ltb_lt; lia).
  simpl. rewrite Nat2Z.id. reflexivity.
Qed.

(** The invariant rule of the loop: an invariant that every iteration
    re-establishes without aborting holds when the loop is over, and the
    loop does not abort. *)
Lemma for_from_inv {S} (Inv : nat -> S -> Memory -> Prop)
      (body : Z -> S -> M S) (k i : nat) (s : S) (m : Memory) :
  Inv i s m ->
  (forall j s1 m1, (i <= j < i + k)%nat -> Inv j s1 m1 ->
     exists s2 m2, body (Z.of_nat j) s1 m1 = (Done s2, m2) /\ Inv (Datatypes.S j) s2 m2) ->
  exists s' m', for_from k (Z.of_nat i) s body m = (Done s', m') /\ Inv (i + k)%nat s' m'.
Proof.
  revert i s m. induction k as [|k IH]; intros i s m H0 Hstep.
  - exists s, m. rewrite Nat.add_0_r. split; [reflexivity | assumption].
  - destruct (Hstep i s m ltac:(lia) H0) as (s2 & m2 & Hb & Hi).
    destruct (IH (Datatypes.S i) s2 m2 Hi) as (s' & m' & Hr & Hf).
    { intros j s1 m1 Hj. apply Hstep. lia. }
    exists s', m'. split.
    + simpl. rewrite (bind_Done _ _ _ _ _ Hb).
      replace (Z.of_nat i + 1) with (Z.of_nat (Datatypes.S i)) by lia. exact Hr.
    + replace (i + Datatypes.S k)%nat with (Datatypes.S i + k)%nat by lia. exact Hf.
Qed.

Lemma for_fold_inv {S} (Inv : nat -> S -> Memory -> Prop)
      (body : Z -> S -> M S) (n : nat) (s : S) (m : Memory) :
  Inv O s m ->
  (forall j s1 m1, (j < n)%nat -> Inv j s1 m1 ->
     exists s2 m2, body (Z.of_nat j) s1 m1 = (Done s2, m2) /\ Inv (Datatypes.S j) s2 m2) ->
  exists s' m', for_fold (Z.of_nat n) s body m = (Done s', m') /\ Inv n s' m'.
Proof.
  intros H0 Hstep. unfold for_fold. rewrite Nat2Z.id.
  apply (for_from_inv Inv body n O s m H0).
  intros j s1 m1 Hj. apply Hstep. lia.
Qed.

(** A loop that writes the window [[base, base + n)] of [cpu_data], element
    [base + j] at iteration [j], each from what the memory holds by then. *)
Lemma for_window (base n : nat) (body : Z -> M unit)
      (F : nat -> Dtype) (G : nat -> rng_t) (m0 : Memory) :
  (base + n <= List.length (cpu_data m0))%nat ->
  caffe_rng m0 = G O ->
  (forall j m1, (j < n)%nat ->
     List.length (cpu_data m1) = List.length (cpu_data m0) ->
     caffe_rng m1 = G j ->
     (forall k, nth k (cpu_data m1) NaN =
                if (base <=? k)%nat && (k <? base + j)%nat then F (k - base)%nat
                else nth k (cpu_data m0) NaN) ->
     body (Z.of_nat j) m1 =
     (Done tt, {| cpu_data := upd (cpu_data m1) (base + j) (F j);
                  caffe_rng := G (Datatypes.S j) |})) ->
  exists m', for_ (Z.of_nat n) body m0 = (Done tt, m') /\
    List.length (cpu_data m') = List.length (cpu_data m0) /\
    caffe_rng m' = G n /\
    forall k, nth k (cpu_data m') NaN =
              if (base <=? k)%nat && (k <? base + n)%nat then F (k - base)%nat
              else nth k (cpu_data m0) NaN.
Proof.
  intros Hlen Hg Hbody. unfold for_.
  destruct (for_fold_inv
    (fun j (_ : unit) m1 =>
       List.length (cpu_data m1) = List.length (cpu_data m0) /\
       caffe_rng m1 = G j /\
       forall k, nth k (cpu_data m1) NaN =
                 if (base <=? k)%nat && (k <? base + j)%nat then F (k - base)%nat
                 else nth k (cpu_data m0) NaN)
    (fun i _ => body i) n tt m0) as ([] & m' & Hr & Hi).
  - repeat split; auto. intros k.
    destruct (base <=? k)%nat eqn:E1; simpl; auto.
    replace (k <? base + 0)%nat with false; auto.
    symmetry. apply Nat.ltb_ge. apply Nat.leb_le in E1. lia.
  - intros j [] m1 Hj (Hl & Hr & Hn).
    exists tt. eexists. split; [apply Hbody; auto|]. simpl.
    repeat split.
    + rewrite length_upd. exact Hl.
    + intros k. rewrite nth_upd by lia. rewrite Hn.
      destruct (Nat.eqb_spec k (base + j)) as [->|Hne].
      * replace (base <=? base + j)%nat with true by (symmetry; apply Nat.leb_le; lia).
        replace (base + j <? base + Datatypes.S j)%nat with true
          by (symmetry; apply Nat.ltb_lt; lia).
        simpl. f_equal. lia.
      * destruct (base <=? k)%nat eqn:E1; simpl; auto.
        destruct (Nat.ltb_spec k (base + j)), (Nat.ltb_spec k (base + Datatypes.S j));
          auto; lia.
  - exists m'. split; [exact Hr | exact Hi].
Qed.


(** ** The generator routines *)

Lemma length_draws {A} (variate : rng_t -> A * rng_t) n g :
  List.length (draws variate n g) = n.
Proof. unfold draws. rewrite length_map, length_seq. reflexivity. Qed.

Lemma nth_draws {A} (variate : rng_t -> A * rng_t) n g k (d : A) :
  (k < n)%nat -> nth k (draws variate n g) d = draw_at variate k g.
Proof.
  intros Hk. unfold draws.
  rewrite (nth_indep _ d (draw_at variate 0 g)) by (rewrite length_map, length_seq; lia).
  rewrite (map_nth (fun k => draw_at variate k g) (seq 0 n) O k).
  rewrite seq_nth by lia. reflexivity.
Qed.

Lemma then_CHECK (c : M unit) (b : bool) (e : Fatal) m m' :
  c m = (Done tt, m') ->
  (c ;; CHECK b e) m = (if b then Done tt else Abort e, m').
Proof.
  intros H. rewrite (bind_Done _ _ _ _ _ H). destruct b; reflexivity.
Qed.

(** [n] variates written to the first [n] elements. *)
Lemma rng_fill (variate : rng_t -> Dtype * rng_t) (n : nat) (m0 : Memory) :
  (n <= List.length (cpu_data m0))%nat ->
  exists m', for_ (Z.of_nat n) (fun i => v <- draw variate ;; set_data i v) m0 = (Done tt, m') /\
    List.length (cpu_data m') = List.length (cpu_data m0) /\
    caffe_rng m' = rng_after variate n (caffe_rng m0) /\
    forall k, nth k (cpu_data m') NaN =
              if (k <? n)%nat then draw_at variate k (caffe_rng m0)
              else nth k (cpu_data m0) NaN.
Proof.
  intros Hn.
  destruct (for_window O n (fun i => v <- draw variate ;; set_data i v)
              (fun k => draw_at variate k (caffe_rng m0))
              (fun j => rng_after variate j (caffe_rng m0)) m0)
    as (m' & Hr & Hl & Hg & Hk); auto.
  - intros j m1 Hj Hl Hg _.
    unfold bind, draw. rewrite Hg.
    unfold draw_at. simpl.
    destruct (variate (rng_after variate j (caffe_rng m0))) as [x g] eqn:E.
    rewrite set_data_in by (simpl; lia). reflexivity.
  - exists m'. repeat split; auto.
    intros k. rewrite Hk. simpl. rewrite Nat.sub_0_r. reflexivity.
Qed.

(** The whole of [cpu_data] filled with variates. *)
Lemma rng_fill_all (variate : rng_t -> Dtype * rng_t) (m0 : Memory) :
  for_ (Z.of_nat (List.length (cpu_data m0))) (fun i => v <- draw variate ;; set_data i v) m0 =
  (Done tt, {| cpu_data := draws variate (List.length (cpu_data m0)) (caffe_rng m0);
               caffe_rng := rng_after variate (List.length (cpu_data m0)) (caffe_rng m0) |}).
Proof.
  destruct (rng_fill variate (List.length (cpu_data m0)) m0 (le_n _))
    as (m' & Hr & Hl & Hg & Hk).
  rewrite Hr. f_equal. apply Memory_ext; simpl; auto.
  apply nth_ext_NaN.
  - rewrite length_draws. exact Hl.
  - intros k Hlt. rewrite Hk. rewrite Hl in Hlt.
    replace (k <? List.length (cpu_data m0))%nat with true
      by (symmetry; apply Nat.ltb_lt; lia).
    rewrite nth_draws by lia. reflexivity.
Qed.

(** The mask of [n] Bernoulli variates. *)
Lemma bernoulli_mask (p : Dtype) (n : nat) (m0 : Memory) :
  caffe_rng_bernoulli (Z.of_nat n) p m0 =
  (Done (draws (bernoulli_variate p) n (caffe_rng m0)),
   {| cpu_data := cpu_data m0;
      caffe_rng := rng_after (bernoulli_variate p) n (caffe_rng m0) |}).
Proof.
  unfold caffe_rng_bernoulli.
  destruct (for_fold_inv
    (fun j (mask : list Z) m1 =>
       mask = draws (bernoulli_variate p) j (caffe_rng m0) /\
       cpu_data m1 = cpu_data m0 /\
       caffe_rng m1 = rng_after (bernoulli_variate p) j (caffe_rng m0))
    (fun _ mask => v <- draw (bernoulli_variate p) ;; ret (mask ++ [v])) n [] m0)
    as (mask & m' & Hr & Hm & Hd & Hg).
  - repeat split; reflexivity.
  - intros j mask m1 Hj (Hm & Hd & Hg).
    unfold bind, draw, ret. rewrite Hg.
    destruct (bernoulli_variate p (rng_after (bernoulli_variate p) j (caffe_rng m0)))
      as [x g] eqn:E.
    do 2 eexists. split; [reflexivity|]. simpl. repeat split; auto.
    + subst mask. unfold draws. rewrite seq_S, map_app. simpl.
      unfold draw_at. rewrite E. reflexivity.
    + rewrite E. reflexivity.
  - rewrite Hr. subst mask. f_equal. apply Memory_ext; simpl; auto.
Qed.

Lemma blob_count_nat (blob : list Z) m :
  blob_ok blob m -> blob_count blob = Z.of_nat (List.length (cpu_data m)).
Proof. intros (_ & _ & H). symmetry. exact H. Qed.

(** ** Shapes *)

Lemma fold_left_mul (l : list Z) (a : Z) :
  fold_left Z.mul l a = a * fold_left Z.mul l 1.
Proof.
  revert a. induction l as [|d l IH]; intros a.
  - simpl. lia.
  - cbn [fold_left]. rewrite (IH (a * d)), (IH (1 * d)). lia.
Qed.

Lemma blob_count_cons (d : Z) (l : list Z) :
  blob_count (d :: l) = d * blob_count l.
Proof.
  unfold blob_count. cbn [fold_left]. rewrite (fold_left_mul l (1 * d)). lia.
Qed.

Lemma blob_count_nil : blob_count [] = 1.
Proof. reflexivity. Qed.

Lemma blob_count_nonneg (l : list Z) :
  Forall (fun d => 0 <= d <= INT_MAX) l -> 0 <= blob_count l.
Proof.
  induction 1 as [|d l Hd _ IH].
  - rewrite blob_count_nil. lia.
  - rewrite blob_count_cons. apply Z.mul_nonneg_nonneg; lia.
Qed.

Lemma blob_count_positive (l : list Z) :
  Forall (fun d => 0 <= d <= INT_MAX) l -> blob_count l <> 0 ->
  0 < blob_count l /\ Forall (fun d => 1 <= d) l.
Proof.
  induction 1 as [|d l Hd Hl IH]; intros Hne.
  - rewrite blob_count_nil. split; [lia | constructor].
  - rewrite blob_count_cons in *.
    assert (d <> 0) by (intros ->; apply Hne; lia).
    assert (blob_count l <> 0) by (intros E; rewrite E in Hne; apply Hne; lia).
    destruct (IH H0) as [Hp Hf]. split.
    + apply Z.mul_pos_pos; lia.
    + constructor; [lia | assumption].
Qed.

Lemma nth_map_seq {A} (f : nat -> A) (n k : nat) (d : A) :
  (k < n)%nat -> nth k (map f (seq 0 n)) d = f k.
Proof.
  intros Hk.
  rewrite (nth_indep _ d (f O)) by (rewrite length_map, length_seq; lia).
  rewrite (map_nth f (seq 0 n) O k), seq_nth by lia. reflexivity.
Qed.

(** ** Constant, uniform and Gaussian fill *)

(** [ConstantFiller::Fill] on a non-empty blob: every element is written,
    then the sparsity is checked. *)
Lemma ConstantFiller_run (param : FillerParameter) (blob : list Z) (m : Memory) :
  blob_ok blob m -> blob_count blob <> 0 ->
  ConstantFiller_Fill param blob m =
  (if sparse param =? -1 then Done tt else Abort UnsupportedSparsity,
   {| cpu_data := repeat (value param) (List.length (cpu_data m));
      caffe_rng := caffe_rng m |}).
Proof.
  intros Hok Hne. unfold ConstantFiller_Fill.
  rewrite (blob_count_nat _ _ Hok) in *.
  replace (Z.of_nat (List.length (cpu_data m)) =? 0) with false
    by (symmetry; apply Z.eqb_neq; exact Hne).
  simpl negb. rewrite (bind_Done _ _ _ tt m (CHECK_true _ _)).
  destruct (for_window O (List.length (cpu_data m)) (fun i => set_data i (value param))
              (fun _ => value param) (fun _ => caffe_rng m) m)
    as (m' & Hr & Hl & Hg & Hk); auto.
  - intros j m1 Hj Hl Hg _. rewrite set_data_in by lia. rewrite Hg. reflexivity.
  - apply then_CHECK. rewrite Hr. f_equal. apply Memory_ext; simpl; auto.
    apply nth_ext_NaN.
    + rewrite repeat_length. exact Hl.
    + intros k Hlt. rewrite Hk. rewrite Hl in Hlt. simpl.
      replace (k <? List.length (cpu_data m))%nat with true
        by (symmetry; apply Nat.ltb_lt; lia).
      rewrite nth_repeat_lt by lia. reflexivity.
Qed.

(** [UniformFiller::Fill] on a non-empty blob. *)
Lemma UniformFiller_run (param : FillerParameter) (blob : list Z) (m : Memory) :
  blob_ok blob m -> blob_count blob <> 0 ->
  UniformFiller_Fill param blob m =
  (if sparse param =? -1 then Done tt else Abort UnsupportedSparsity,
   {| cpu_data := draws (uniform_variate (min param) (max param))
                        (List.length (cpu_data m)) (caffe_rng m);
      caffe_rng := rng_after (uniform_variate (min param) (max param))
                             (List.length (cpu_data m)) (caffe_rng m) |}).
Proof.
  intros Hok Hne. unfold UniformFiller_Fill, caffe_rng_uniform.
  rewrite (blob_count_nat _ _ Hok) in *.
  replace (Z.of_nat (List.length (cpu_data m)) =? 0) with false
    by (symmetry; apply Z.eqb_neq; exact Hne).
  simpl negb. rewrite (bind_Done _ _ _ tt m (CHECK_true _ _)).
  apply then_CHECK. apply rng_fill_all.
Qed.

(** The element-wise product of the Gaussian draws left in [cpu_data] with
    the mask. *)
Lemma mask_loop (mask : list Z) (m1 : Memory) :
  for_ (Z.of_nat (List.length (cpu_data m1)))
       (fun i => x <- get_data i ;;
                 set_data i (Dmul x (of_int (nth (Z.to_nat i) mask 0)))) m1 =
  (Done tt,
   {| cpu_data := map (fun k => Dmul (nth k (cpu_data m1) NaN) (of_int (nth k mask 0)))
                      (seq 0 (List.length (cpu_data m1)));
      caffe_rng := caffe_rng m1 |}).
Proof.
  destruct (for_window O (List.length (cpu_data m1))
              (fun i => x <- get_data i ;;
                        set_data i (Dmul x (of_int (nth (Z.to_nat i) mask 0))))
              (fun k => Dmul (nth k (cpu_data m1) NaN) (of_int (nth k mask 0)))
              (fun _ => caffe_rng m1) m1)
    as (m' & Hr & Hl & Hg & Hk); auto.
  - intros j m2 Hj Hl Hg Hn.
    rewrite (bind_Done _ _ _ _ _ (get_data_in j m2 ltac:(lia))).
    rewrite set_data_in by lia. rewrite Nat2Z.id, Hg, Hn. simpl.
    replace (j <? j)%nat with false by (symmetry; apply Nat.ltb_ge; lia).
    reflexivity.
  - rewrite Hr. f_equal. apply Memory_ext; simpl; auto.
    apply nth_ext_NaN.
    + rewrite length_map, length_seq. exact Hl.
    + intros k Hlt. rewrite Hk. rewrite Hl in Hlt. simpl.
      replace (k <? List.length (cpu_data m1))%nat with true
        by (symmetry; apply Nat.ltb_lt; lia).
      rewrite Nat.sub_0_r, nth_map_seq by lia. reflexivity.
Qed.


(** [GaussianFiller::Fill] up to the sparsity test: the Gaussian draws are in
    [cpu_data]. *)
Lemma gaussian_drawn (param : FillerParameter) (blob : list Z) (m : Memory) (k : M unit) :
  blob_ok blob m -> blob_count blob <> 0 ->
  (CHECK (negb (blob_count blob =? 0)) EmptyBuffer ;;
   caffe_rng_gaussian (blob_count blob) (mean param) (std param) ;; k) m =
  k {| cpu_data := draws (gaussian_variate (mean param) (std param))
                         (List.length (cpu_data m)) (caffe_rng m);
       caffe_rng := rng_after (gaussian_variate (mean param) (std param))
                              (List.length (cpu_data m)) (caffe_rng m) |}.
Proof.
  intros Hok Hne. unfold caffe_rng_gaussian.
  rewrite (blob_count_nat _ _ Hok) in *.
  replace (Z.of_nat (List.length (cpu_data m)) =? 0) with false
    by (symmetry; apply Z.eqb_neq; exact Hne).
  simpl negb. rewrite (bind_Done _ _ _ tt m (CHECK_true _ _)).
  rewrite (bind_Done _ _ _ _ _ (rng_fill_all _ m)). reflexivity.
Qed.

Lemma blob_shape_Some (blob : list Z) (i : nat) (d : Z) m :
  nth_error blob i = Some d -> blob_shape blob i m = (Done d, m).
Proof. unfold blob_shape. intros ->. reflexivity. Qed.

Lemma blob_shape_None (blob : list Z) (i : nat) m :
  nth_error blob i = None -> blob_shape blob i m = (Abort UnsupportedRank, m).
Proof. unfold blob_shape. intros ->. reflexivity. Qed.

(** [GaussianFiller::Fill] on a non-empty blob with a leading axis and a
    sparsity >= 0. *)
Lemma GaussianFiller_run_masked
      (param : FillerParameter) (blob : list Z) (m : Memory) (num_outputs : Z) :
  blob_ok blob m -> blob_count blob <> 0 -> nth_error blob 0 = Some num_outputs ->
  0 <= sparse param ->
  let n := List.length (cpu_data m) in
  let gauss := gaussian_variate (mean param) (std param) in
  let g1 := rng_after gauss n (caffe_rng m) in
  let p := Ddiv (of_int (sparse param)) (of_int num_outputs) in
  GaussianFiller_Fill param blob m =
  (Done tt,
   {| cpu_data := map (fun k => Dmul (draw_at gauss k (caffe_rng m))
                                     (of_int (draw_at (bernoulli_variate p) k g1)))
                      (seq 0 n);
      caffe_rng := rng_after (bernoulli_variate p) n g1 |}).
Proof.
  intros Hok Hne H0 Hs n gauss g1 p.
  unfold GaussianFiller_Fill. rewrite (gaussian_drawn param blob m _ Hok Hne).
  fold n gauss g1.
  replace (-1 <=? sparse param) with true by (symmetry; apply Z.leb_le; lia).
  replace (0 <=? sparse param) with true by (symmetry; apply Z.leb_le; lia).
  rewrite (bind_Done _ _ _ tt _ (CHECK_true _ _)).
  assert (Hax : (1 <=? num_axes blob) = true).
  { apply Z.leb_le. unfold num_axes. destruct blob; [discriminate | simpl; lia]. }
  rewrite Hax. rewrite (bind_Done _ _ _ tt _ (CHECK_true _ _)).
  rewrite (bind_Done _ _ _ num_outputs _ (blob_shape_Some _ _ _ _ H0)).
  fold p. rewrite (blob_count_nat _ _ Hok). fold n.
  rewrite (bind_Done _ _ _ _ _ (bernoulli_mask p n _)). cbn [cpu_data caffe_rng].
  pose proof (mask_loop (draws (bernoulli_variate p) n g1)
                {| cpu_data := draws gauss n (caffe_rng m);
                   caffe_rng := rng_after (bernoulli_variate p) n g1 |}) as Hm.
  simpl cpu_data in Hm. simpl caffe_rng in Hm. rewrite length_draws in Hm.
  rewrite Hm. f_equal. f_equal.
  apply map_ext_in. intros k Hk. apply in_seq in Hk.
  rewrite !nth_draws by lia. reflexivity.
Qed.

(** C6. Gaussian fill of a non-empty blob: every element is first drawn
    from Normal(mean, std), one variate of the generator each.  With a
    sparsity >= 0 and a leading axis [num_outputs], a mask of as many
    Bernoulli(p) variates, p = sparsity / num_outputs, is then drawn from
    the generator as the Gaussian draws left it, and every element is
    multiplied by its mask value.  With a sparsity >= 0 and a blob without
    axes (one element) the fill fails with NoAxes once the Gaussian draws
    are written, and no mask is drawn.  With sparsity -1 no mask is drawn
    and the Gaussian draws stay.  A sparsity below -1 is rejected, again
    once the Gaussian draws are written. *)
Theorem GaussianFiller_Fill_sparse
        (param : FillerParameter) (blob : list Z) (m : Memory) :
  blob_ok blob m -> 0 < blob_count blob ->
  let n := List.length (cpu_data m) in
  let gauss := gaussian_variate (mean param) (std param) in
  let g1 := rng_after gauss n (caffe_rng m) in
  let drawn := {| cpu_data := draws gauss n (caffe_rng m); caffe_rng := g1 |} in
  (0 <= sparse param ->
   (forall num_outputs, nth_error blob 0 = Some num_outputs ->
      let p := Ddiv (of_int (sparse param)) (of_int num_outputs) in
      GaussianFiller_Fill param blob m =
      (Done tt,
       {| cpu_data := map (fun k => Dmul (draw_at gauss k (caffe_rng m))
                                         (of_int (draw_at (bernoulli_variate p) k g1)))
                          (seq 0 n);
          caffe_rng := rng_after (bernoulli_variate p) n g1 |})) /\
   (blob = [] -> GaussianFiller_Fill param blob m = (Abort NoAxes, drawn))) /\
  (sparse param = -1 -> GaussianFiller_Fill param blob m = (Done tt, drawn)) /\
  (sparse param < -1 ->
   GaussianFiller_Fill param blob m = (Abort SparsityBelowMinusOne, drawn)).
Proof.
  intros Hok Hpos n gauss g1 drawn.
  assert (Hne : blob_count blob <> 0) by lia.
  split; [|split].
  - intros Hs. split.
    + intros num_outputs H0.
      apply (GaussianFiller_run_masked param blob m num_outputs Hok Hne H0 Hs).
    + intros ->. unfold GaussianFiller_Fill.
      rewrite (gaussian_drawn param [] m _ Hok Hne).
      replace (-1 <=? sparse param) with true by (symmetry; apply Z.leb_le; lia).
      replace (0 <=? sparse param) with true by (symmetry; apply Z.leb_le; lia).
      reflexivity.
  - intros Hs. unfold GaussianFiller_Fill.
    rewrite (gaussian_drawn param blob m _ Hok Hne), Hs. reflexivity.
  - intros Hs. unfold GaussianFiller_Fill.
    rewrite (gaussian_drawn param blob m _ Hok Hne).
    replace (-1 <=? sparse param) with false by (symmetry; apply Z.leb_gt; lia).
    reflexivity.
Qed.

(** ** Integer division *)

Lemma int_div_run (a b : Z) m :
  0 <= a <= INT_MAX -> 0 < b -> int_div a b m = (Done (a / b), m).
Proof.
  intros Ha Hb. unfold int_div, idiv.
  replace (b =? 0) with false by (symmetry; apply Z.eqb_neq; lia).
  rewrite Z.quot_div_nonneg by lia.
  rewrite wrap_small; [reflexivity|].
  assert (0 <= a / b) by (apply Z.div_pos; lia).
  assert (a / b <= a) by (apply Z.div_le_upper_bound; nia).
  unfold INT_MAX in *. lia.
Qed.

Lemma int_rem_run (a b : Z) m :
  0 <= a -> 0 < b -> int_rem a b m = (Done (a mod b), m).
Proof.
  intros Ha Hb. unfold int_rem, irem.
  replace (b =? 0) with false by (symmetry; apply Z.eqb_neq; lia).
  rewrite Z.rem_mod_nonneg by lia. reflexivity.
Qed.

(** ** Xavier and MSRA fill *)

(** The prefix the two fillers share: the element count is checked, then
    [fan_in] and [fan_out] are computed from the two leading axes. *)
Lemma fans_run (blob : list Z) (d0 d1 : Z) (rest : list Z) (m : Memory)
      (k : Z -> Z -> M unit) :
  blob = d0 :: d1 :: rest -> blob_ok blob m -> blob_count blob <> 0 ->
  (CHECK (negb (blob_count blob =? 0)) EmptyBuffer ;;
   shape0 <- blob_shape blob 0 ;;
   fan_in <- int_div (blob_count blob) shape0 ;;
   shape1 <- blob_shape blob 1 ;;
   fan_out <- int_div (blob_count blob) shape1 ;;
   k fan_in fan_out) m =
  k (blob_count blob / d0) (blob_count blob / d1) m.
Proof.
  intros -> Hok Hne.
  destruct Hok as (Hdims & Hmax & Hlen).
  destruct (blob_count_positive _ Hdims Hne) as [Hpos Hge].
  inversion Hge as [|? ? H0 Hge']; subst. inversion Hge' as [|? ? H1 _]; subst.
  replace (blob_count (d0 :: d1 :: rest) =? 0) with false
    by (symmetry; apply Z.eqb_neq; exact Hne).
  simpl negb. rewrite (bind_Done _ _ _ tt m (CHECK_true _ _)).
  rewrite (bind_Done _ _ _ d0 m (blob_shape_Some (d0 :: d1 :: rest) 0 d0 m eq_refl)).
  rewrite (bind_Done _ _ _ _ m
             (int_div_run (blob_count (d0 :: d1 :: rest)) d0 m ltac:(lia) ltac:(lia))).
  rewrite (bind_Done _ _ _ d1 m (blob_shape_Some (d0 :: d1 :: rest) 1 d1 m eq_refl)).
  rewrite (bind_Done _ _ _ _ m
             (int_div_run (blob_count (d0 :: d1 :: rest)) d1 m ltac:(lia) ltac:(lia))).
  reflexivity.
Qed.

(** [XavierFiller::Fill] on a non-empty blob of two axes or more: every
    element is a variate of Uniform(-scale, scale), where [scale] is the
    square root of 3 over the [n] the code computes. *)
Lemma XavierFiller_run (param : FillerParameter) (blob : list Z) d0 d1 rest (m : Memory) :
  blob = d0 :: d1 :: rest -> blob_ok blob m -> blob_count blob <> 0 ->
  let n := fan_n param (blob_count blob / d0) (blob_count blob / d1) in
  let scale := sqrt (Ddiv (of_int 3) n) in
  XavierFiller_Fill param blob m =
  (if sparse param =? -1 then Done tt else Abort UnsupportedSparsity,
   {| cpu_data := draws (uniform_variate (Dopp scale) scale)
                        (List.length (cpu_data m)) (caffe_rng m);
      caffe_rng := rng_after (uniform_variate (Dopp scale) scale)
                             (List.length (cpu_data m)) (caffe_rng m) |}).
Proof.
  intros Hb Hok Hne n scale. unfold XavierFiller_Fill.
  rewrite (fans_run blob d0 d1 rest m _ Hb Hok Hne).
  fold n scale. unfold caffe_rng_uniform.
  rewrite (blob_count_nat _ _ Hok).
  apply then_CHECK. apply rng_fill_all.
Qed.

(** [MSRAFiller::Fill] likewise: every element is a variate of
    Normal(0, std), [std] the scale parameter times the square root of 2
    over [n]. *)
Lemma MSRAFiller_run (param : FillerParameter) (blob : list Z) d0 d1 rest (m : Memory) :
  blob = d0 :: d1 :: rest -> blob_ok blob m -> blob_count blob <> 0 ->
  let n := fan_n param (blob_count blob / d0) (blob_count blob / d1) in
  let std := Dmul (scale param) (sqrt (Ddiv (of_int 2) n)) in
  MSRAFiller_Fill param blob m =
  (if sparse param =? -1 then Done tt else Abort UnsupportedSparsity,
   {| cpu_data := draws (gaussian_variate (of_int 0) std)
                        (List.length (cpu_data m)) (caffe_rng m);
      caffe_rng := rng_after (gaussian_variate (of_int 0) std)
                             (List.length (cpu_data m)) (caffe_rng m) |}).
Proof.
  intros Hb Hok Hne n std. unfold MSRAFiller_Fill.
  rewrite (fans_run blob d0 d1 rest m _ Hb Hok Hne).
  fold n std. unfold caffe_rng_gaussian.
  rewrite (blob_count_nat _ _ Hok).
  apply then_CHECK. apply rng_fill_all.
Qed.

(** The [n] the code computes is the documented one as long as
    [fan_in + fan_out] fits an [int]. *)
Lemma fan_n_documented (param : FillerParameter) (fan_in fan_out : Z) :
  0 <= fan_in -> 0 <= fan_out -> fan_in + fan_out <= INT_MAX ->
  Deq (fan_n param fan_in fan_out)
      (Fin (documented_n (variance_norm param) fan_in fan_out)).
Proof.
  intros Hi Ho Hsum. unfold fan_n, documented_n, iadd.
  rewrite wrap_small by (unfold INT_MAX in *; lia).
  destruct (variance_norm param); simpl; try reflexivity.
  rewrite inject_Z_plus. reflexivity.
Qed.

(** X1. Xavier and MSRA fill of a non-empty blob of two axes or more whose
    [fan_in + fan_out] fits an [int]: with fan_in = count / shape[0] and
    fan_out = count / shape[1], [n] is fan_in by default, their average
    under AVERAGE and fan_out under FAN_OUT; xavier leaves in every element
    a variate of Uniform(-scale, scale), scale = sqrt(3 / n), and msra a
    variate of Normal(0, std), std = scale_param * sqrt(2 / n). *)
Theorem XavierFiller_MSRAFiller_documented
        (param : FillerParameter) (blob : list Z) d0 d1 rest (m : Memory) :
  blob = d0 :: d1 :: rest -> blob_ok blob m -> 0 < blob_count blob ->
  let fan_in := blob_count blob / d0 in
  let fan_out := blob_count blob / d1 in
  fan_in + fan_out <= INT_MAX ->
  exists n,
    Deq n (Fin (documented_n (variance_norm param) fan_in fan_out)) /\
    (let scale := sqrt (Ddiv (of_int 3) n) in
     XavierFiller_Fill param blob m =
     (if sparse param =? -1 then Done tt else Abort UnsupportedSparsity,
      {| cpu_data := draws (uniform_variate (Dopp scale) scale)
                           (List.length (cpu_data m)) (caffe_rng m);
         caffe_rng := rng_after (uniform_variate (Dopp scale) scale)
                                (List.length (cpu_data m)) (caffe_rng m) |})) /\
    (let std := Dmul (scale param) (sqrt (Ddiv (of_int 2) n)) in
     MSRAFiller_Fill param blob m =
     (if sparse param =? -1 then Done tt else Abort UnsupportedSparsity,
      {| cpu_data := draws (gaussian_variate (of_int 0) std)
                           (List.length (cpu_data m)) (caffe_rng m);
         caffe_rng := rng_after (gaussian_variate (of_int 0) std)
                                (List.length (cpu_data m)) (caffe_rng m) |})).
Proof.
  intros Hb Hok Hpos fan_in fan_out Hsum.
  assert (Hne : blob_count blob <> 0) by lia.
  exists (fan_n param fan_in fan_out). split; [|split].
  - pose proof Hok as (Hd & _ & _).
    destruct (blob_count_positive _ Hd Hne) as [_ Hge]. subst blob.
    inversion Hge as [|? ? H0 Hge']; subst. inversion Hge' as [|? ? H1 _]; subst.
    apply fan_n_documented; [| |exact Hsum]; apply Z.div_pos; lia.
  - apply (XavierFiller_run param blob d0 d1 rest m Hb Hok Hne).
  - apply (MSRAFiller_run param blob d0 d1 rest m Hb Hok Hne).
Qed.

(** X3. Constant fill of a non-empty blob: every element equals [value],
    and the fill succeeds when the sparsity is -1. *)
Theorem ConstantFiller_Fill_all_value
        (param : FillerParameter) (blob : list Z) (m : Memory) :
  blob_ok blob m -> 0 < blob_count blob ->
  fst (ConstantFiller_Fill param blob m) =
    (if sparse param =? -1 then Done tt else Abort UnsupportedSparsity) /\
  List.length (cpu_data (snd (ConstantFiller_Fill param blob m))) = List.length (cpu_data m) /\
  Forall (fun x => x = value param) (cpu_data (snd (ConstantFiller_Fill param blob m))).
Proof.
  intros Hok Hpos.
  rewrite (ConstantFiller_run param blob m Hok ltac:(lia)). cbn [fst snd cpu_data].
  split; [reflexivity|]. split; [apply repeat_length|].
  rewrite Forall_forall. intros x Hin. apply repeat_spec in Hin. exact Hin.
Qed.

(** ** Positive unit ball fill *)

Lemma length_group {A} (D i : nat) (l : list A) :
  (i * D + D <= List.length l)%nat -> List.length (group D i l) = D.
Proof.
  intros H. unfold group. rewrite length_firstn, length_skipn. lia.
Qed.

Lemma nth_group {A} (D i j : nat) (l : list A) (d : A) :
  (j < D)%nat -> nth j (group D i l) d = nth (i * D + j) l d.
Proof.
  intros H. unfold group. rewrite nth_firstn.
  replace (j <? D)%nat with true by (symmetry; apply Nat.ltb_lt; lia).
  rewrite nth_skipn. reflexivity.
Qed.

Lemma group_ext (D i : nat) (l1 l2 : list Dtype) :
  List.length l1 = List.length l2 ->
  (forall j, (j < D)%nat -> nth (i * D + j) l1 NaN = nth (i * D + j) l2 NaN) ->
  group D i l1 = group D i l2.
Proof.
  intros Hl Hn. apply nth_ext_NaN.
  - unfold group. rewrite !length_firstn, !length_skipn. lia.
  - intros j Hj.
    assert (j < D)%nat.
    { unfold group in Hj. rewrite length_firstn in Hj. lia. }
    rewrite !nth_group by lia. auto.
Qed.

Lemma firstn_succ_nth {A} (l : list A) (j : nat) (d : A) :
  (j < List.length l)%nat -> firstn (Datatypes.S j) l = firstn j l ++ [nth j l d].
Proof.
  revert j. induction l as [|h t IH]; intros j Hj; simpl in Hj; [lia|].
  destruct j as [|j]; simpl; [reflexivity|].
  f_equal. apply IH. lia.
Qed.

Lemma index_in_int (i D j : nat) :
  Z.of_nat (i * D + j) <= INT_MAX ->
  iadd (imul (Z.of_nat i) (Z.of_nat D)) (Z.of_nat j) = Z.of_nat (i * D + j).
Proof.
  intros H. unfold iadd, imul.
  rewrite (wrap_small (Z.of_nat i * Z.of_nat D)) by (unfold INT_MAX in *; nia).
  rewrite wrap_small by (unfold INT_MAX in *; nia). nia.
Qed.

(** The inner loop that sums group [i]. *)
Lemma sum_loop (i D : nat) (m1 : Memory) :
  (i * D + D <= List.length (cpu_data m1))%nat ->
  Z.of_nat (List.length (cpu_data m1)) <= INT_MAX ->
  for_fold (Z.of_nat D) (of_int 0)
    (fun j sum => x <- get_data (iadd (imul (Z.of_nat i) (Z.of_nat D)) j) ;;
                  ret (Dadd sum x)) m1 =
  (Done (Dsum (group D i (cpu_data m1))), m1).
Proof.
  intros Hlen Hmax.
  destruct (for_fold_inv
    (fun j (s : Dtype) m2 =>
       m2 = m1 /\ s = fold_left Dadd (firstn j (group D i (cpu_data m1))) (of_int 0))
    (fun j sum => x <- get_data (iadd (imul (Z.of_nat i) (Z.of_nat D)) j) ;;
                  ret (Dadd sum x)) D (of_int 0) m1) as (s & m' & Hr & Hm & Hs).
  - split; reflexivity.
  - intros j s1 m2 Hj (-> & ->).
    rewrite index_in_int by lia.
    rewrite (bind_Done _ _ _ _ _ (get_data_in (i * D + j) m1 ltac:(lia))).
    do 2 eexists. split; [reflexivity|]. split; [reflexivity|].
    rewrite (firstn_succ_nth _ j NaN) by (rewrite length_group; lia).
    rewrite fold_left_app. simpl. rewrite nth_group by lia. reflexivity.
  - rewrite Hr. subst. unfold Dsum.
    rewrite firstn_all2 by (rewrite length_group; lia). reflexivity.
Qed.

(** The inner loop that divides group [i] by [sum]. *)
Lemma divide_loop (i D : nat) (sum : Dtype) (m1 : Memory) :
  (i * D + D <= List.length (cpu_data m1))%nat ->
  Z.of_nat (List.length (cpu_data m1)) <= INT_MAX ->
  exists m', for_ (Z.of_nat D)
      (fun j => x <- get_data (iadd (imul (Z.of_nat i) (Z.of_nat D)) j) ;;
                set_data (iadd (imul (Z.of_nat i) (Z.of_nat D)) j) (Ddiv x sum)) m1 =
    (Done tt, m') /\
    List.length (cpu_data m') = List.length (cpu_data m1) /\
    caffe_rng m' = caffe_rng m1 /\
    forall k, nth k (cpu_data m') NaN =
              if (i * D <=? k)%nat && (k <? i * D + D)%nat
              then Ddiv (nth k (cpu_data m1) NaN) sum
              else nth k (cpu_data m1) NaN.
Proof.
  intros Hlen Hmax.
  destruct (for_window (i * D) D
      (fun j => x <- get_data (iadd (imul (Z.of_nat i) (Z.of_nat D)) j) ;;
                set_data (iadd (imul (Z.of_nat i) (Z.of_nat D)) j) (Ddiv x sum))
      (fun j => Ddiv (nth (i * D + j) (cpu_data m1) NaN) sum)
      (fun _ => caffe_rng m1) m1) as (m' & Hr & Hl & Hg & Hk); auto.
  - intros j m2 Hj Hl Hg Hn.
    rewrite index_in_int by lia.
    rewrite (bind_Done _ _ _ _ _ (get_data_in (i * D + j) m2 ltac:(lia))).
    rewrite set_data_in by lia. rewrite Hg, Hn.
    replace (i * D + j <? i * D + j)%nat with false by (symmetry; apply Nat.ltb_ge; lia).
    rewrite andb_false_r. reflexivity.
  - exists m'. repeat split; auto.
    intros k. rewrite Hk.
    destruct (Nat.leb_spec (i * D) k); simpl; auto.
    destruct (k <? i * D + D)%nat; auto.
    replace (i * D + (k - i * D))%nat with k by lia. reflexivity.
Qed.

Lemma nth_normalized (D : nat) (u : list Dtype) (k : nat) :
  (k < List.length u)%nat ->
  nth k (normalized D u) NaN = Ddiv (nth k u NaN) (Dsum (group D (k / D) u)).
Proof.
  intros Hk. unfold normalized. rewrite nth_map_seq by lia. reflexivity.
Qed.

(** The loop over the groups. *)
Lemma normalize_loop (N D : nat) (m1 : Memory) :
  (0 < D)%nat -> (N * D)%nat = List.length (cpu_data m1) ->
  Z.of_nat (List.length (cpu_data m1)) <= INT_MAX ->
  for_ (Z.of_nat N) (fun i =>
    sum <- for_fold (Z.of_nat D) (of_int 0) (fun j sum =>
             x <- get_data (iadd (imul i (Z.of_nat D)) j) ;;
             ret (Dadd sum x)) ;;
    for_ (Z.of_nat D) (fun j =>
      x <- get_data (iadd (imul i (Z.of_nat D)) j) ;;
      set_data (iadd (imul i (Z.of_nat D)) j) (Ddiv x sum))) m1 =
  (Done tt, {| cpu_data := normalized D (cpu_data m1); caffe_rng := caffe_rng m1 |}).
Proof.
  intros HD Hlen Hmax. unfold for_ at 1.
  set (u := cpu_data m1).
  destruct (for_fold_inv
    (fun i (_ : unit) m2 =>
       List.length (cpu_data m2) = List.length u /\
       caffe_rng m2 = caffe_rng m1 /\
       forall k, nth k (cpu_data m2) NaN =
                 if (k <? i * D)%nat
                 then Ddiv (nth k u NaN) (Dsum (group D (k / D) u))
                 else nth k u NaN)
    (fun i _ =>
       sum <- for_fold (Z.of_nat D) (of_int 0) (fun j sum =>
                x <- get_data (iadd (imul i (Z.of_nat D)) j) ;;
                ret (Dadd sum x)) ;;
       for_ (Z.of_nat D) (fun j =>
         x <- get_data (iadd (imul i (Z.of_nat D)) j) ;;
         set_data (iadd (imul i (Z.of_nat D)) j) (Ddiv x sum)))
    N tt m1) as ([] & m' & Hr & Hl & Hg & Hk).
  - repeat split; auto.
  - intros i [] m2 Hi (Hl & Hg & Hk).
    assert (Hin : (i * D + D <= List.length (cpu_data m2))%nat).
    { rewrite Hl. unfold u. rewrite <- Hlen. nia. }
    assert (Hmax2 : Z.of_nat (List.length (cpu_data m2)) <= INT_MAX).
    { rewrite Hl. exact Hmax. }
    rewrite (bind_Done _ _ _ _ _ (sum_loop i D m2 Hin Hmax2)).
    destruct (divide_loop i D (Dsum (group D i (cpu_data m2))) m2 Hin Hmax2)
      as (m3 & Hr3 & Hl3 & Hg3 & Hk3).
    exists tt, m3. split; [exact Hr3|].
    assert (Hgrp : group D i (cpu_data m2) = group D i u).
    { apply group_ext; [exact Hl|]. intros j Hj. rewrite Hk.
      replace (i * D + j <? i * D)%nat with false by (symmetry; apply Nat.ltb_ge; lia).
      reflexivity. }
    repeat split.
    + rewrite Hl3. exact Hl.
    + rewrite Hg3. exact Hg.
    + intros k. rewrite Hk3, Hk, Hgrp.
      destruct (Nat.leb_spec (i * D) k) as [H1|H1]; simpl.
      * replace (k <? i * D)%nat with false by (symmetry; apply Nat.ltb_ge; lia).
        destruct (Nat.ltb_spec k (i * D + D)) as [H2|H2].
        -- replace (k <? D + i * D)%nat with true by (symmetry; apply Nat.ltb_lt; lia).
           replace (k / D)%nat with i; [reflexivity|].
           apply Nat.div_unique with (r := (k - i * D)%nat); lia.
        -- replace (k <? D + i * D)%nat with false by (symmetry; apply Nat.ltb_ge; lia).
           reflexivity.
      * replace (k <? i * D)%nat with true by (symmetry; apply Nat.ltb_lt; lia).
        replace (k <? D + i * D)%nat with true by (symmetry; apply Nat.ltb_lt; lia).
        reflexivity.
  - rewrite Hr. f_equal. apply Memory_ext; simpl; auto.
    apply nth_ext_NaN.
    + unfold normalized. rewrite length_map, length_seq. exact Hl.
    + intros k Hlt. rewrite Hl in Hlt. rewrite Hk, nth_normalized by exact Hlt.
      replace (k <? N * D)%nat with true; [reflexivity|].
      symmetry. apply Nat.ltb_lt. unfold u in Hlt. lia.
Qed.

(** [PositiveUnitballFiller::Fill] on a non-empty blob with a leading axis:
    the uniform draws, each divided by the sum of its group; the sum is not
    looked at before the division. *)
Lemma PositiveUnitballFiller_run
      (param : FillerParameter) (blob : list Z) d0 rest (m : Memory) :
  blob = d0 :: rest -> blob_ok blob m -> blob_count blob <> 0 ->
  let n := List.length (cpu_data m) in
  let uniform := uniform_variate (of_int 0) (of_int 1) in
  PositiveUnitballFiller_Fill param blob m =
  (if sparse param =? -1 then Done tt else Abort UnsupportedSparsity,
   {| cpu_data := normalized (Z.to_nat (blob_count rest)) (draws uniform n (caffe_rng m));
      caffe_rng := rng_after uniform n (caffe_rng m) |}).
Proof.
  intros -> Hok Hne n uniform.
  pose proof Hok as (Hdims & Hmax & Hlen).
  destruct (blob_count_positive _ Hdims Hne) as [Hpos Hge].
  inversion Hge as [|? ? H0 Hge']; subst.
  rewrite blob_count_cons in Hpos, Hmax, Hlen.
  assert (Hrest : 0 < blob_count rest) by nia.
  unfold PositiveUnitballFiller_Fill.
  assert (Hd : DCHECK (negb (blob_count (d0 :: rest) =? 0)) EmptyBuffer m = (Done tt, m)).
  { unfold DCHECK. destruct NDEBUG; [reflexivity|].
    replace (blob_count (d0 :: rest) =? 0) with false
      by (symmetry; apply Z.eqb_neq; exact Hne).
    reflexivity. }
  rewrite (bind_Done _ _ _ _ _ Hd).
  unfold caffe_rng_uniform. rewrite (blob_count_nat _ _ Hok). fold n.
  rewrite (bind_Done _ _ _ _ _ (rng_fill_all uniform m)). fold n.
  set (m1 := {| cpu_data := draws uniform n (caffe_rng m);
                caffe_rng := rng_after uniform n (caffe_rng m) |}).
  rewrite (bind_Done _ _ _ d0 m1 (blob_shape_Some (d0 :: rest) 0 d0 m1 eq_refl)).
  assert (Hn : Z.of_nat n = d0 * blob_count rest) by exact Hlen.
  rewrite (bind_Done _ _ _ _ m1 (int_div_run (Z.of_nat n) d0 m1 ltac:(lia) ltac:(lia))).
  assert (Hdim : Z.of_nat n / d0 = blob_count rest).
  { rewrite Hn, Z.mul_comm. apply Z.div_mul. lia. }
  rewrite Hdim.
  replace (blob_count rest =? 0) with false by (symmetry; apply Z.eqb_neq; lia).
  simpl negb. rewrite (bind_Done _ _ _ tt m1 (CHECK_true _ _)).
  unfold blob_num.
  rewrite (bind_Done _ _ _ d0 m1 (blob_shape_Some (d0 :: rest) 0 d0 m1 eq_refl)).
  apply then_CHECK.
  set (N := Z.to_nat d0). set (D := Z.to_nat (blob_count rest)).
  replace d0 with (Z.of_nat N) by (subst N; rewrite Z2Nat.id; lia).
  replace (blob_count rest) with (Z.of_nat D) by (subst D; rewrite Z2Nat.id; lia).
  pose proof (normalize_loop N D m1) as Hloop.
  unfold m1 in Hloop at 1 2. cbn [cpu_data caffe_rng] in Hloop.
  rewrite length_draws in Hloop.
  apply Hloop; subst N D; try lia.
Qed.

(** A sum that is finite has only finite terms, and is their sum. *)
Lemma fold_Dadd_NaN (l : list Dtype) : fold_left Dadd l NaN = NaN.
Proof. induction l as [|x l IH]; simpl; auto. Qed.

Lemma fold_Dadd_Fin (l : list Dtype) (a s : Q) :
  fold_left Dadd l (Fin a) = Fin s ->
  exists qs, l = map Fin qs /\ s = fold_left Qplus qs a.
Proof.
  revert a. induction l as [|x l IH]; intros a H; simpl in H.
  - exists []. inversion H. split; reflexivity.
  - destruct x as [q|]; simpl in H.
    + destruct (IH _ H) as (qs & -> & ->). exists (q :: qs). split; reflexivity.
    + rewrite fold_Dadd_NaN in H. discriminate.
Qed.

Lemma fold_Dadd_zero (l : list Dtype) (a : Q) :
  (a == 0)%Q -> Forall (fun x => Deq x (of_int 0)) l ->
  exists s, fold_left Dadd l (Fin a) = Fin s /\ (s == 0)%Q.
Proof.
  intros Ha Hl. revert a Ha. induction Hl as [|x l Hx _ IH]; intros a Ha; simpl.
  - exists a. split; [reflexivity | exact Ha].
  - destruct x as [q|]; simpl in Hx; [|contradiction].
    apply IH. rewrite Ha, Hx. reflexivity.
Qed.

(** C10. Positive unit ball fill of a non-empty blob [d0 :: rest]: the fill
    runs to the sparsity check whatever was drawn, and element [j] of group
    [i] is the uniform draw at that place divided by the sum of the draws of
    its group; nothing looks at the sum first.  When the sum of a group is a
    positive number the quotient is a finite value; when every draw of a
    group is zero the division is by zero and the element is not a number. *)
Theorem PositiveUnitballFiller_unchecked_division
        (param : FillerParameter) (blob : list Z) d0 rest (m : Memory) :
  blob = d0 :: rest -> blob_ok blob m -> 0 < blob_count blob ->
  let D := Z.to_nat (blob_count rest) in
  let u := draws (uniform_variate (of_int 0) (of_int 1))
                 (List.length (cpu_data m)) (caffe_rng m) in
  exists m',
    PositiveUnitballFiller_Fill param blob m =
    (if sparse param =? -1 then Done tt else Abort UnsupportedSparsity, m') /\
    forall i j, (i < Z.to_nat d0)%nat -> (j < D)%nat ->
      nth (i * D + j) (cpu_data m') NaN =
      Ddiv (nth (i * D + j) u NaN) (Dsum (group D i u)) /\
      (forall s, Dsum (group D i u) = Fin s -> (0 < s)%Q ->
                 is_finite (nth (i * D + j) (cpu_data m') NaN) = true) /\
      (Forall (fun x => Deq x (of_int 0)) (group D i u) ->
       nth (i * D + j) (cpu_data m') NaN = NaN).
Proof.
  intros Hb Hok Hpos D u.
  assert (Hne : blob_count blob <> 0) by lia.
  rewrite (PositiveUnitballFiller_run param blob d0 rest m Hb Hok Hne).
  eexists. split; [reflexivity|]. cbn [cpu_data]. fold u D.
  intros i j Hi Hj.
  assert (Hlen : List.length u = (Z.to_nat d0 * D)%nat).
  { unfold u. rewrite length_draws. destruct Hok as (Hd & _ & Hl).
    subst blob. rewrite blob_count_cons in Hl, Hpos.
    inversion Hd; subst.
    assert (0 <= blob_count rest) by (apply blob_count_nonneg; assumption).
    unfold D. nia. }
  assert (Hk : (i * D + j < List.length u)%nat) by nia.
  assert (Hq : ((i * D + j) / D)%nat = i).
  { symmetry. apply Nat.div_unique with (r := j); lia. }
  rewrite nth_normalized, Hq by exact Hk.
  split; [reflexivity|]. split.
  - intros s Hs Hs0. rewrite Hs.
    destruct (fold_Dadd_Fin _ _ _ Hs) as (qs & Hg & _).
    assert (Hx : nth (i * D + j) u NaN = nth j (map Fin qs) NaN).
    { rewrite <- Hg, nth_group by lia. reflexivity. }
    assert (Hjq : (j < List.length qs)%nat).
    { rewrite <- (length_map Fin), <- Hg, length_group; nia. }
    rewrite Hx, (nth_indep _ NaN (Fin 0)) by (rewrite length_map; lia).
    rewrite (map_nth Fin qs 0%Q j). simpl.
    destruct (Qeq_bool s 0) eqn:E; [|reflexivity].
    apply Qeq_bool_eq in E. rewrite E in Hs0. apply Qlt_irrefl in Hs0. contradiction.
  - intros Hz.
    destruct (fold_Dadd_zero (group D i u) 0 (Qeq_refl 0) Hz) as (s & Hs & Hs0).
    unfold Dsum, of_int. change (inject_Z 0) with 0%Q. rewrite Hs.
    assert (Hx : Deq (nth (i * D + j) u NaN) (of_int 0)).
    { rewrite <- (nth_group D i j u NaN) by lia.
      rewrite Forall_forall in Hz. apply Hz. apply nth_In.
      rewrite length_group; nia. }
    destruct (nth (i * D + j) u NaN) as [q|]; [|reflexivity].
    simpl. rewrite (proj2 (Qeq_bool_iff s 0) Hs0). reflexivity.
Qed.

(** ** Normalised groups *)

Lemma fold_Dadd_map_Fin (qs : list Q) (a : Q) :
  fold_left Dadd (map Fin qs) (Fin a) = Fin (fold_left Qplus qs a).
Proof.
  revert a. induction qs as [|q qs IH]; intros a; simpl; [reflexivity | apply IH].
Qed.

Lemma fold_Qplus_proper (l : list Q) (a b : Q) :
  (a == b)%Q -> (fold_left Qplus l a == fold_left Qplus l b)%Q.
Proof.
  revert a b. induction l as [|q l IH]; intros a b E; simpl; [exact E|].
  apply IH. rewrite E. reflexivity.
Qed.

Lemma fold_Qplus_scale (l : list Q) (a s : Q) :
  ~ (s == 0)%Q ->
  (fold_left Qplus (map (fun q => q / s) l) (a / s) == fold_left Qplus l a / s)%Q.
Proof.
  intros Hs. revert a. induction l as [|q l IH]; intros a; simpl; [reflexivity|].
  rewrite <- IH. apply fold_Qplus_proper. field. exact Hs.
Qed.

Lemma fold_Qplus_ge (l : list Q) (a : Q) :
  Forall (fun q => 0 <= q)%Q l -> (a <= fold_left Qplus l a)%Q.
Proof.
  intros H. revert a. induction H as [|q l Hq _ IH]; intros a; simpl.
  - apply Qle_refl.
  - eapply Qle_trans; [|apply IH]. lra.
Qed.

Lemma fold_Qplus_member (l : list Q) (a q : Q) :
  Forall (fun q => 0 <= q)%Q l -> (0 <= a)%Q -> In q l ->
  (q <= fold_left Qplus l a)%Q.
Proof.
  intros H. revert a. induction H as [|x l Hx Hl IH]; intros a Ha Hin; simpl in *.
  - contradiction.
  - destruct Hin as [->|Hin].
    + eapply Qle_trans; [|apply fold_Qplus_ge; exact Hl]. lra.
    + apply IH; [lra | exact Hin].
Qed.

(** A group of numbers of [0, 1] with a positive sum, each divided by the
    sum: the quotients are in [0, 1] and sum to 1. *)
Lemma normalized_group (qs : list Q) (s : Q) :
  Forall (fun q => 0 <= q)%Q qs -> s = fold_left Qplus qs 0%Q -> (0 < s)%Q ->
  Forall (fun q => 0 <= q / s /\ q / s <= 1)%Q qs /\
  Deq (Dsum (map (fun q => Ddiv (Fin q) (Fin s)) qs)) (Fin 1).
Proof.
  intros Hpos Hs Hs0.
  assert (Hne : ~ (s == 0)%Q) by (intros E; rewrite E in Hs0; apply (Qlt_irrefl 0 Hs0)).
  assert (Hb : Qeq_bool s 0 = false).
  { destruct (Qeq_bool s 0) eqn:E; [|reflexivity].
    apply Qeq_bool_eq in E. contradiction. }
  split.
  - rewrite Forall_forall in *. intros q Hin. split.
    + apply Qle_shift_div_l; [exact Hs0|]. rewrite Qmult_0_l. apply Hpos, Hin.
    + apply Qle_shift_div_r; [exact Hs0|]. rewrite Qmult_1_l. rewrite Hs.
      apply fold_Qplus_member; [rewrite Forall_forall; exact Hpos | apply Qle_refl | exact Hin].
  - assert (E : map (fun q => Ddiv (Fin q) (Fin s)) qs = map Fin (map (fun q => q / s)%Q qs)).
    { rewrite map_map. apply map_ext. intros q. simpl. rewrite Hb. reflexivity. }
    rewrite E. unfold Dsum, of_int. change (inject_Z 0) with 0%Q.
    rewrite fold_Dadd_map_Fin. simpl.
    rewrite (fold_Qplus_proper _ 0 (0 / s)) by (field; exact Hne).
    rewrite fold_Qplus_scale by exact Hne.
    rewrite <- Hs. field. exact Hne.
Qed.

Lemma draws_in_unit_interval (n : nat) (g : rng_t) :
  uniform_in_unit_interval ->
  Forall (Dbetween 0 1) (draws (uniform_variate (of_int 0) (of_int 1)) n g).
Proof.
  intros Hu. unfold draws. rewrite Forall_forall. intros x Hin.
  apply in_map_iff in Hin. destruct Hin as (k & <- & _). apply Hu.
Qed.

Lemma In_firstn {A} (n : nat) (l : list A) (x : A) : In x (firstn n l) -> In x l.
Proof.
  revert l. induction n as [|n IH]; intros [|h t] H; simpl in *; try contradiction.
  destruct H as [->|H]; [left; reflexivity | right; apply IH; exact H].
Qed.

Lemma In_skipn {A} (n : nat) (l : list A) (x : A) : In x (skipn n l) -> In x l.
Proof.
  revert l. induction n as [|n IH]; intros [|h t] H; simpl in *; auto.
Qed.

Lemma group_incl {A} (D i : nat) (l : list A) (x : A) : In x (group D i l) -> In x l.
Proof.
  unfold group. intros H. apply In_firstn in H. apply In_skipn in H. exact H.
Qed.

(** X2. Positive unit ball fill when the generator keeps to [0, 1] and every
    group of draws has a positive sum: after the fill every element lies in
    [0, 1] and every group sums to 1. *)
Theorem PositiveUnitballFiller_normalizes
        (param : FillerParameter) (blob : list Z) d0 rest (m : Memory) :
  blob = d0 :: rest -> blob_ok blob m -> 0 < blob_count blob ->
  uniform_in_unit_interval ->
  let D := Z.to_nat (blob_count rest) in
  let u := draws (uniform_variate (of_int 0) (of_int 1))
                 (List.length (cpu_data m)) (caffe_rng m) in
  (forall i, (i < Z.to_nat d0)%nat -> exists s, Dsum (group D i u) = Fin s /\ (0 < s)%Q) ->
  exists m',
    PositiveUnitballFiller_Fill param blob m =
    (if sparse param =? -1 then Done tt else Abort UnsupportedSparsity, m') /\
    List.length (cpu_data m') = List.length (cpu_data m) /\
    Forall (Dbetween 0 1) (cpu_data m') /\
    forall i, (i < Z.to_nat d0)%nat -> Deq (Dsum (group D i (cpu_data m'))) (Fin 1).
Proof.
  intros Hb Hok Hpos Hu D u Hsums.
  assert (Hne : blob_count blob <> 0) by lia.
  rewrite (PositiveUnitballFiller_run param blob d0 rest m Hb Hok Hne).
  eexists. split; [reflexivity|]. cbn [cpu_data]. fold u D.
  assert (Hlen : List.length u = (Z.to_nat d0 * D)%nat).
  { unfold u. rewrite length_draws. destruct Hok as (Hd & _ & Hl).
    subst blob. rewrite blob_count_cons in Hl, Hpos.
    inversion Hd; subst.
    assert (0 <= blob_count rest) by (apply blob_count_nonneg; assumption).
    unfold D. nia. }
  assert (HD : (0 < D)%nat).
  { destruct Hok as (Hd & _ & Hl). subst blob. rewrite blob_count_cons in Hpos.
    inversion Hd; subst.
    assert (0 <= blob_count rest) by (apply blob_count_nonneg; assumption).
    unfold D. nia. }
  assert (Hln : List.length (normalized D u) = List.length u).
  { unfold normalized. rewrite length_map, length_seq. reflexivity. }
  (* every group of the result is the group of draws divided by its sum *)
  assert (Hgrp : forall i, (i < Z.to_nat d0)%nat ->
            exists qs s, group D i u = map Fin qs /\
              Forall (fun q => 0 <= q)%Q qs /\ s = fold_left Qplus qs 0%Q /\ (0 < s)%Q /\
              group D i (normalized D u) = map (fun q => Ddiv (Fin q) (Fin s)) qs).
  { intros i Hi. destruct (Hsums i Hi) as (s & Hs & Hs0).
    destruct (fold_Dadd_Fin _ _ _ Hs) as (qs & Hg & Hsq).
    exists qs, s. split; [exact Hg|]. split; [|split; [exact Hsq | split; [exact Hs0|]]].
    - rewrite Forall_forall. intros q Hin.
      assert (Hx : In (Fin q) u).
      { apply (group_incl D i). rewrite Hg. apply in_map. exact Hin. }
      pose proof (draws_in_unit_interval (List.length (cpu_data m)) (caffe_rng m) Hu) as Hall.
      rewrite Forall_forall in Hall. apply (Hall _ Hx).
    - apply nth_ext_NaN.
      + rewrite length_map, <- (length_map Fin), <- Hg.
        rewrite !length_group by (rewrite ?Hln; nia). reflexivity.
      + intros j Hj. rewrite length_group in Hj by (rewrite Hln; nia).
        rewrite nth_group by lia. rewrite nth_normalized by nia.
        replace ((i * D + j) / D)%nat with i
          by (apply Nat.div_unique with (r := j); lia).
        rewrite Hs, <- (nth_group D i j u NaN) by lia. rewrite Hg.
        assert (Hjq : (j < List.length qs)%nat).
        { rewrite <- (length_map Fin), <- Hg, length_group; nia. }
        rewrite (nth_indep _ NaN (Fin 0)) by (rewrite length_map; lia).
        rewrite (map_nth Fin qs 0%Q j).
        rewrite (nth_indep _ NaN (Ddiv (Fin 0) (Fin s))) by (rewrite length_map; lia).
        rewrite (map_nth (fun q => Ddiv (Fin q) (Fin s)) qs 0%Q j). reflexivity. }
  split; [rewrite Hln; unfold u; apply length_draws|]. split.
  - rewrite Forall_forall. intros x Hin.
    apply (In_nth _ _ NaN) in Hin. destruct Hin as (k & Hk & <-).
    rewrite Hln in Hk.
    assert (Hi : (k / D < Z.to_nat d0)%nat) by (apply Nat.Div0.div_lt_upper_bound; nia).
    destruct (Hgrp _ Hi) as (qs & s & Hg & Hq & Hs & Hs0 & Hn).
    destruct (normalized_group qs s Hq Hs Hs0) as [Hr _].
    pose proof (Nat.div_mod_eq k D) as Ek.
    pose proof (Nat.mod_upper_bound k D ltac:(lia)) as Hm.
    replace k with (k / D * D + k mod D)%nat at 1 by lia.
    rewrite <- (nth_group D (k / D) (k mod D) _ NaN) by lia. rewrite Hn.
    assert (Hjq : (k mod D < List.length qs)%nat).
    { rewrite <- (length_map Fin), <- Hg, length_group; nia. }
    rewrite (nth_indep _ NaN (Ddiv (Fin 0) (Fin s))) by (rewrite length_map; lia).
    rewrite (map_nth (fun q => Ddiv (Fin q) (Fin s)) qs 0%Q (k mod D)).
    rewrite Forall_forall in Hr.
    specialize (Hr _ (nth_In qs 0%Q Hjq)). simpl.
    destruct (Qeq_bool s 0) eqn:E.
    + apply Qeq_bool_eq in E. rewrite E in Hs0. exact (Qlt_irrefl 0 Hs0).
    + exact Hr.
  - intros i Hi.
    destruct (Hgrp _ Hi) as (qs & s & Hg & Hq & Hs & Hs0 & Hn).
    rewrite Hn. apply (normalized_group qs s Hq Hs Hs0).
Qed.

(** ** Bilinear fill *)

Lemma size_div_run (a b : Z) m :
  0 <= a <= INT_MAX -> 0 < b <= INT_MAX -> size_div a b m = (Done (a / b), m).
Proof.
  intros Ha Hb. unfold size_div, to_size_t, INT_MAX in *.
  rewrite (Z.mod_small a (2 ^ 64)), (Z.mod_small b (2 ^ 64)) by lia.
  replace (b =? 0) with false by (symmetry; apply Z.eqb_neq; lia).
  reflexivity.
Qed.

Lemma size_rem_run (a b : Z) m :
  0 <= a <= INT_MAX -> 0 < b <= INT_MAX -> size_rem a b m = (Done (a mod b), m).
Proof.
  intros Ha Hb. unfold size_rem, to_size_t, INT_MAX in *.
  rewrite (Z.mod_small a (2 ^ 64)), (Z.mod_small b (2 ^ 64)) by lia.
  replace (b =? 0) with false by (symmetry; apply Z.eqb_neq; lia).
  reflexivity.
Qed.

Lemma map_seq_fill (F : nat -> Dtype) (m m' : Memory) :
  List.length (cpu_data m') = List.length (cpu_data m) ->
  caffe_rng m' = caffe_rng m ->
  (forall k, nth k (cpu_data m') NaN =
             if (0 <=? k)%nat && (k <? 0 + List.length (cpu_data m))%nat
             then F (k - 0)%nat else nth k (cpu_data m) NaN) ->
  m' = {| cpu_data := map F (seq 0 (List.length (cpu_data m))); caffe_rng := caffe_rng m |}.
Proof.
  intros Hl Hg Hk. apply Memory_ext; simpl; auto.
  apply nth_ext_NaN.
  - rewrite length_map, length_seq. exact Hl.
  - intros k Hlt. rewrite Hl in Hlt. rewrite Hk, nth_map_seq by lia. simpl.
    replace (k <? List.length (cpu_data m))%nat with true
      by (symmetry; apply Nat.ltb_lt; lia).
    rewrite Nat.sub_0_r. reflexivity.
Qed.

(** The loop of the 4-axis branch. *)
Lemma bilinear_loop4 (width height : Z) (m : Memory) :
  (List.length (cpu_data m) <> 0%nat -> 0 < width /\ 0 < height) ->
  Z.of_nat (List.length (cpu_data m)) <= INT_MAX ->
  for_ (Z.of_nat (List.length (cpu_data m))) (fun i =>
      xi <- int_rem i width ;;
      let x := of_int xi in
      q <- int_div i width ;;
      yi <- int_rem q height ;;
      let y := of_int yi in
      set_data i (Dmul (tent (bilinear_f width) (bilinear_c (bilinear_f width)) x)
                       (tent (bilinear_f width) (bilinear_c (bilinear_f width)) y))) m =
  (Done tt, {| cpu_data := map (bilinear_kernel4 width height)
                               (seq 0 (List.length (cpu_data m)));
               caffe_rng := caffe_rng m |}).
Proof.
  intros Hpos Hmax.
  match goal with |- for_ _ ?b _ = _ =>
    destruct (for_window O (List.length (cpu_data m)) b
                (bilinear_kernel4 width height) (fun _ => caffe_rng m) m)
      as (m' & Hr & Hl & Hg & Hk); auto
  end.
  - intros j m1 Hj Hl Hg _.
    destruct Hpos as [Hw Hh]; [lia|].
    rewrite (bind_Done _ _ _ _ _ (int_rem_run (Z.of_nat j) width m1 ltac:(lia) Hw)).
    rewrite (bind_Done _ _ _ _ _ (int_div_run (Z.of_nat j) width m1 ltac:(lia) Hw)).
    assert (0 <= Z.of_nat j / width) by (apply Z.div_pos; lia).
    rewrite (bind_Done _ _ _ _ _ (int_rem_run (Z.of_nat j / width) height m1 ltac:(lia) Hh)).
    rewrite set_data_in by lia. rewrite Hg. reflexivity.
  - rewrite Hr. f_equal. apply map_seq_fill; assumption.
Qed.

(** The loop of the 5-axis branch. *)
Lemma bilinear_loop5 (shape2 shape3 shape4 : Z) (m : Memory) :
  (List.length (cpu_data m) <> 0%nat ->
   0 < shape2 /\ 0 < shape3 /\ 0 < shape4 /\ shape3 * shape4 <= INT_MAX) ->
  0 <= shape2 <= INT_MAX -> 0 <= shape3 <= INT_MAX -> 0 <= shape4 <= INT_MAX ->
  Z.of_nat (List.length (cpu_data m)) <= INT_MAX ->
  for_ (Z.of_nat (List.length (cpu_data m))) (fun i =>
      xi <- size_rem i shape4 ;;
      let x := of_int xi in
      q <- size_div i shape4 ;;
      yi <- size_rem q shape3 ;;
      let y := of_int yi in
      q' <- size_div i (imul shape3 shape4) ;;
      zi <- size_rem q' shape2 ;;
      let z := of_int zi in
      set_data i (Dmul (Dmul (tent (bilinear_f shape2) (bilinear_c (bilinear_f shape2)) x)
                             (tent (bilinear_f shape2) (bilinear_c (bilinear_f shape2)) y))
                       (tent (bilinear_f shape2) (bilinear_c (bilinear_f shape2)) z))) m =
  (Done tt, {| cpu_data := map (bilinear_kernel5 shape2 shape3 shape4)
                               (seq 0 (List.length (cpu_data m)));
               caffe_rng := caffe_rng m |}).
Proof.
  intros Hpos H2 H3 H4 Hmax.
  match goal with |- for_ _ ?b _ = _ =>
    destruct (for_window O (List.length (cpu_data m)) b
                (bilinear_kernel5 shape2 shape3 shape4) (fun _ => caffe_rng m) m)
      as (m' & Hr & Hl & Hg & Hk); auto
  end.
  - intros j m1 Hj Hl Hg _.
    destruct Hpos as (Hp2 & Hp3 & Hp4 & Hp34); [lia|].
    assert (Hdiv : forall b, 0 < b -> 0 <= Z.of_nat j / b <= INT_MAX).
    { intros b Hb. split; [apply Z.div_pos; lia|].
      assert (Z.of_nat j / b <= Z.of_nat j) by (apply Z.div_le_upper_bound; nia). lia. }
    rewrite (bind_Done _ _ _ _ _ (size_rem_run (Z.of_nat j) shape4 m1 ltac:(lia) ltac:(lia))).
    rewrite (bind_Done _ _ _ _ _ (size_div_run (Z.of_nat j) shape4 m1 ltac:(lia) ltac:(lia))).
    rewrite (bind_Done _ _ _ _ _
               (size_rem_run (Z.of_nat j / shape4) shape3 m1 (Hdiv _ Hp4) ltac:(lia))).
    unfold imul. rewrite wrap_small by (unfold INT_MAX in *; nia).
    rewrite (bind_Done _ _ _ _ _
               (size_div_run (Z.of_nat j) (shape3 * shape4) m1 ltac:(lia) ltac:(nia))).
    rewrite (bind_Done _ _ _ _ _
               (size_rem_run (Z.of_nat j / (shape3 * shape4)) shape2 m1
                             (Hdiv (shape3 * shape4) ltac:(nia)) ltac:(lia))).
    rewrite set_data_in by lia. rewrite Hg. reflexivity.
  - rewrite Hr. f_equal. apply map_seq_fill; assumption.
Qed.

Lemma blob_count_4 (d0 d1 d2 d3 : Z) : blob_count [d0; d1; d2; d3] = d0 * d1 * d2 * d3.
Proof. unfold blob_count. cbn [fold_left]. ring. Qed.

Lemma blob_count_5 (d0 d1 d2 d3 d4 : Z) :
  blob_count [d0; d1; d2; d3; d4] = d0 * d1 * d2 * d3 * d4.
Proof. unfold blob_count. cbn [fold_left]. ring. Qed.

(** [BilinearFiller::Fill] on a 4-axis blob. *)
Lemma BilinearFiller_run4 (param : FillerParameter) (d0 d1 h w : Z) (m : Memory) :
  blob_ok [d0; d1; h; w] m ->
  BilinearFiller_Fill param [d0; d1; h; w] m =
  if w =? h then
    (if sparse param =? -1 then Done tt else Abort UnsupportedSparsity,
     {| cpu_data := map (bilinear_kernel4 w h) (seq 0 (List.length (cpu_data m)));
        caffe_rng := caffe_rng m |})
  else (Abort FilterNotSquare, m).
Proof.
  intros Hok. pose proof Hok as (Hdims & Hmax & Hlen).
  unfold BilinearFiller_Fill. simpl (num_axes _ =? 4). cbv iota.
  unfold blob_width, blob_height.
  rewrite (bind_Done _ _ _ w m (blob_shape_Some [d0; d1; h; w] 3 w m eq_refl)).
  rewrite (bind_Done _ _ _ h m (blob_shape_Some [d0; d1; h; w] 2 h m eq_refl)).
  destruct (w =? h) eqn:E.
  - rewrite (bind_Done _ _ _ tt m (CHECK_true _ _)).
    apply then_CHECK. rewrite (blob_count_nat _ _ Hok).
    apply bilinear_loop4.
    + intros Hn.
      assert (Hne : blob_count [d0; d1; h; w] <> 0) by lia.
      destruct (blob_count_positive _ Hdims Hne) as [_ Hge].
      repeat match goal with H : Forall _ (_ :: _) |- _ => inversion H; clear H; subst end.
      lia.
    + lia.
  - rewrite (bind_Abort _ _ _ _ _ (CHECK_false _ _)). reflexivity.
Qed.

(** [BilinearFiller::Fill] on a 5-axis blob. *)
Lemma BilinearFiller_run5 (param : FillerParameter) (d0 d1 s2 s3 s4 : Z) (m : Memory) :
  blob_ok [d0; d1; s2; s3; s4] m ->
  BilinearFiller_Fill param [d0; d1; s2; s3; s4] m =
  if (s2 =? s3) && (s3 =? s4) then
    (if sparse param =? -1 then Done tt else Abort UnsupportedSparsity,
     {| cpu_data := map (bilinear_kernel5 s2 s3 s4) (seq 0 (List.length (cpu_data m)));
        caffe_rng := caffe_rng m |})
  else (Abort FilterNotCube, m).
Proof.
  intros Hok. pose proof Hok as (Hdims & Hmax & Hlen).
  unfold BilinearFiller_Fill. simpl (num_axes _ =? 4). simpl (num_axes _ =? 5). cbv iota.
  rewrite (bind_Done _ _ _ s2 m (blob_shape_Some [d0; d1; s2; s3; s4] 2 s2 m eq_refl)).
  rewrite (bind_Done _ _ _ s3 m (blob_shape_Some [d0; d1; s2; s3; s4] 3 s3 m eq_refl)).
  rewrite (bind_Done _ _ _ s4 m (blob_shape_Some [d0; d1; s2; s3; s4] 4 s4 m eq_refl)).
  destruct (s2 =? s3) eqn:E1.
  - rewrite (bind_Done _ _ _ tt m (CHECK_true _ _)).
    destruct (s3 =? s4) eqn:E2; simpl andb; cbv iota.
    + rewrite (bind_Done _ _ _ tt m (CHECK_true _ _)).
      apply then_CHECK. rewrite (blob_count_nat _ _ Hok).
      repeat match goal with H : Forall _ (_ :: _) |- _ => inversion H; clear H; subst end.
      apply bilinear_loop5; try lia.
      intros Hn.
      assert (Hne : blob_count [d0; d1; s2; s3; s4] <> 0) by lia.
      rewrite blob_count_5 in *.
      assert (d0 <> 0 /\ d1 <> 0 /\ s2 <> 0 /\ s3 <> 0 /\ s4 <> 0) as (? & ? & ? & ? & ?).
      { repeat split; intros ->; apply Hne; lia. }
      assert (1 <= d0 * d1 * s2) by nia.
      repeat split; try lia. nia.
    + rewrite (bind_Abort _ _ _ _ _ (CHECK_false _ _)). reflexivity.
  - rewrite (bind_Abort _ _ _ _ _ (CHECK_false _ _)). reflexivity.
Qed.

(** [BilinearFiller::Fill] on any other number of axes: nothing is
    written. *)
Lemma BilinearFiller_other_rank (param : FillerParameter) (blob : list Z) (m : Memory) :
  num_axes blob <> 4 -> num_axes blob <> 5 ->
  BilinearFiller_Fill param blob m = (Abort UnsupportedRank, m).
Proof.
  intros H4 H5. unfold BilinearFiller_Fill.
  replace (num_axes blob =? 4) with false by (symmetry; apply Z.eqb_neq; exact H4).
  replace (num_axes blob =? 5) with false by (symmetry; apply Z.eqb_neq; exact H5).
  reflexivity.
Qed.

(** ** The bilinear kernel in rationals *)

Lemma Qeq_bool_inject_Z (z : Z) : z <> 0 -> Qeq_bool (inject_Z z) 0 = false.
Proof.
  intros Hz. destruct (Qeq_bool (inject_Z z) 0) eqn:E; [|reflexivity].
  apply Qeq_bool_eq in E. unfold Qeq in E. simpl in E. lia.
Qed.

Lemma ceil_half_eq (S : Z) : ceil_half S = (S + 1) / 2.
Proof.
  unfold ceil_half, Qceiling, Qfloor, Qdiv, Qmult, Qinv, Qopp, inject_Z. simpl.
  rewrite Z.mul_1_r.
  pose proof (Z.div_mod (- S) 2 ltac:(lia)).
  pose proof (Z.mod_pos_bound (- S) 2 ltac:(lia)).
  pose proof (Z.div_mod (S + 1) 2 ltac:(lia)).
  pose proof (Z.mod_pos_bound (S + 1) 2 ltac:(lia)).
  lia.
Qed.

Lemma bilinear_f_eq (S : Z) : 0 <= S <= INT_MAX -> bilinear_f S = ceil_half S.
Proof.
  intros HS. unfold bilinear_f, of_int, Ddiv.
  rewrite (Qeq_bool_inject_Z 2) by lia.
  unfold ceil, to_int. change (inject_Z 2) with 2%Q. fold (ceil_half S).
  assert (H : 0 <= ceil_half S <= INT_MAX).
  { rewrite ceil_half_eq. unfold INT_MAX in *.
    pose proof (Z.div_mod (S + 1) 2 ltac:(lia)).
    pose proof (Z.mod_pos_bound (S + 1) 2 ltac:(lia)). lia. }
  simpl Qnum.
  replace (ceil_half S <? 0) with false by (symmetry; apply Z.ltb_ge; lia).
  rewrite Qfloor_Z. apply wrap_small. unfold INT_MAX in *. lia.
Qed.

Lemma bilinear_c_eq (f : Z) :
  0 < f -> 2 * f <= INT_MAX -> bilinear_c f = Fin (center f).
Proof.
  intros Hf Hmax. unfold bilinear_c, center, isub, imul, irem, of_int.
  rewrite Z.rem_mod_nonneg by lia.
  pose proof (Z.mod_pos_bound f 2 ltac:(lia)).
  rewrite (wrap_small (2 * f)) by (unfold INT_MAX in *; lia).
  rewrite (wrap_small (2 * f - 1)) by (unfold INT_MAX in *; lia).
  rewrite wrap_small by (unfold INT_MAX in *; lia).
  unfold Dmul, Dlift2, Ddiv.
  destruct (Qeq_bool (inject_Z 2 * inject_Z f) 0) eqn:E; [|reflexivity].
  apply Qeq_bool_eq in E. unfold Qeq in E. cbn [Qnum Qden Qmult inject_Z] in E. lia.
Qed.

Lemma tent_eq (f x : Z) :
  f <> 0 -> tent f (Fin (center f)) (of_int x) = Fin (pyramid f x).
Proof.
  intros Hf. unfold tent, pyramid, of_int, Ddiv.
  rewrite (Qeq_bool_inject_Z f Hf). reflexivity.
Qed.

(** The kernel of a square of side [S] at least 1 that fits the blob. *)
Lemma bilinear_kernel4_eq (S : Z) (k : nat) :
  0 < S -> S * S <= INT_MAX ->
  bilinear_kernel4 S S k =
  Fin (pyramid (ceil_half S) (Z.of_nat k mod S) *
       pyramid (ceil_half S) ((Z.of_nat k / S) mod S)).
Proof.
  intros HS Hmax. unfold bilinear_kernel4.
  assert (S <= INT_MAX) by nia.
  rewrite bilinear_f_eq by lia.
  assert (Hf : 0 < ceil_half S /\ 2 * ceil_half S <= S + 1).
  { rewrite ceil_half_eq.
    pose proof (Z.div_mod (S + 1) 2 ltac:(lia)).
    pose proof (Z.mod_pos_bound (S + 1) 2 ltac:(lia)). lia. }
  rewrite bilinear_c_eq by (unfold INT_MAX in *; nia).
  rewrite !tent_eq by lia. reflexivity.
Qed.

Lemma bilinear_kernel5_eq (S : Z) (k : nat) :
  0 < S -> S * S <= INT_MAX ->
  bilinear_kernel5 S S S k =
  Fin (pyramid (ceil_half S) (Z.of_nat k mod S) *
       pyramid (ceil_half S) ((Z.of_nat k / S) mod S) *
       pyramid (ceil_half S) ((Z.of_nat k / (S * S)) mod S)).
Proof.
  intros HS Hmax. unfold bilinear_kernel5.
  assert (S <= INT_MAX) by nia.
  rewrite bilinear_f_eq by lia.
  assert (Hf : 0 < ceil_half S /\ 2 * ceil_half S <= S + 1).
  { rewrite ceil_half_eq.
    pose proof (Z.div_mod (S + 1) 2 ltac:(lia)).
    pose proof (Z.mod_pos_bound (S + 1) 2 ltac:(lia)). lia. }
  rewrite bilinear_c_eq by (unfold INT_MAX in *; nia).
  rewrite !tent_eq by lia. reflexivity.
Qed.

Lemma unravel_periodic (i w h : Z) :
  0 < w -> 0 < h ->
  (i mod (h * w)) mod w = i mod w /\ ((i mod (h * w)) / w) mod h = (i / w) mod h.
Proof.
  intros Hw Hh.
  rewrite (Z.mul_comm h w), Z.rem_mul_r by lia.
  rewrite (Z.mul_comm w ((i / w) mod h)).
  split.
  - rewrite Z.mod_add by lia. apply Z.mod_mod. lia.
  - rewrite Z.div_add by lia.
    rewrite (Z.div_small (i mod w) w) by (apply Z.mod_pos_bound; lia).
    rewrite Z.add_0_l. apply Z.mod_mod. lia.
Qed.

(** C9. On a 4-axis blob with equal height and width the value bilinear
    fill leaves at linear index [i] depends on [i mod (height * width)]
    only: every channel of every leading index receives the same
    (height x width) kernel. *)
Theorem BilinearFiller_channels_identical
        (param : FillerParameter) (d0 d1 h w : Z) (m : Memory) :
  blob_ok [d0; d1; h; w] m -> h = w ->
  forall i, 0 <= i < blob_count [d0; d1; h; w] ->
    nth (Z.to_nat i) (cpu_data (snd (BilinearFiller_Fill param [d0; d1; h; w] m))) NaN =
    nth (Z.to_nat (i mod (h * w)))
        (cpu_data (snd (BilinearFiller_Fill param [d0; d1; h; w] m))) NaN.
Proof.
  intros Hok Hhw i Hi.
  rewrite (BilinearFiller_run4 param d0 d1 h w m Hok).
  replace (w =? h) with true by (symmetry; apply Z.eqb_eq; auto).
  cbn [snd cpu_data].
  pose proof Hok as (Hdims & Hmax & Hlen).
  assert (Hne : blob_count [d0; d1; h; w] <> 0) by lia.
  destruct (blob_count_positive _ Hdims Hne) as [_ Hge].
  repeat match goal with H : Forall _ (_ :: _) |- _ => inversion H; clear H; subst end.
  assert (Hhw : 0 < w * w) by nia.
  pose proof (Z.mod_pos_bound i (w * w) Hhw).
  assert (i mod (w * w) <= i) by (apply Z.mod_le; lia).
  rewrite !nth_map_seq by lia.
  unfold bilinear_kernel4. rewrite !Z2Nat.id by lia.
  destruct (unravel_periodic i w w) as [-> ->]; try lia. reflexivity.
Qed.

(** C5. Bilinear fill accepts a blob of exactly 4 axes whose two trailing
    extents are equal, or of exactly 5 axes whose three trailing extents
    are equal; on any other number of axes it fails with UnsupportedRank and
    writes nothing.  When it succeeds, with f = ceil(extent / 2) and
    c = (2f - 1 - f mod 2) / (2f), the element at every linear index [i] is
    the product, over the spatial coordinates decoded from [i] in row-major
    order, of 1 - |coord / f - c|.  No draw of the generator is involved:
    another call on a blob of the same shape leaves the same elements. *)
Theorem BilinearFiller_Fill_kernel
        (param : FillerParameter) (blob : list Z) (m : Memory) :
  blob_ok blob m ->
  (num_axes blob <> 4 -> num_axes blob <> 5 ->
   BilinearFiller_Fill param blob m = (Abort UnsupportedRank, m)) /\
  (forall m', BilinearFiller_Fill param blob m = (Done tt, m') ->
     (exists d0 d1 S, let f := ceil_half S in
        (blob = [d0; d1; S; S] /\
         forall i, 0 <= i < blob_count blob ->
           nth (Z.to_nat i) (cpu_data m') NaN =
           Fin (pyramid f (i mod S) * pyramid f ((i / S) mod S))) \/
        (blob = [d0; d1; S; S; S] /\
         forall i, 0 <= i < blob_count blob ->
           nth (Z.to_nat i) (cpu_data m') NaN =
           Fin (pyramid f (i mod S) * pyramid f ((i / S) mod S) *
                pyramid f ((i / (S * S)) mod S)))) /\
     caffe_rng m' = caffe_rng m /\
     forall m2, blob_ok blob m2 ->
       cpu_data (snd (BilinearFiller_Fill param blob m2)) = cpu_data m').
Proof.
  intros Hok. split; [apply BilinearFiller_other_rank|].
  intros m' Hrun.
  destruct blob as [|d0 [|d1 [|s2 [|s3 [|s4 [|s5 blob]]]]]];
    try (rewrite BilinearFiller_other_rank in Hrun
           by (unfold num_axes; simpl List.length; lia); discriminate).
  - (* four axes *)
    rewrite (BilinearFiller_run4 param d0 d1 s2 s3 m Hok) in Hrun.
    destruct (Z.eqb_spec s3 s2) as [->|Hne]; [|discriminate].
    destruct (sparse param =? -1); [|discriminate].
    inversion Hrun; subst m'; clear Hrun. cbn [cpu_data caffe_rng].
    split; [|split; [reflexivity|]].
    + exists d0, d1, s2. left. split; [reflexivity|].
      intros i Hi.
      pose proof Hok as (Hdims & Hmax & Hlen).
      assert (Hne : blob_count [d0; d1; s2; s2] <> 0) by lia.
      destruct (blob_count_positive _ Hdims Hne) as [_ Hge].
      repeat match goal with H : Forall _ (_ :: _) |- _ => inversion H; clear H; subst end.
      rewrite nth_map_seq by lia.
      rewrite blob_count_4 in *.
      assert (1 <= d0 * d1) by nia.
      assert (0 <= s2 * s2) by nia.
      assert (s2 * s2 <= d0 * d1 * (s2 * s2)) by nia.
      rewrite bilinear_kernel4_eq by lia.
      rewrite Z2Nat.id by lia. reflexivity.
    + intros m2 Hok2.
      rewrite (BilinearFiller_run4 param d0 d1 s2 s2 m2 Hok2), Z.eqb_refl.
      cbn [snd cpu_data].
      destruct Hok as (_ & _ & Hl), Hok2 as (_ & _ & Hl2).
      f_equal. f_equal. lia.
  - (* five axes *)
    rewrite (BilinearFiller_run5 param d0 d1 s2 s3 s4 m Hok) in Hrun.
    destruct (Z.eqb_spec s2 s3) as [->|Hne]; [|discriminate].
    destruct (Z.eqb_spec s3 s4) as [->|Hne]; [|discriminate].
    cbn [andb] in Hrun.
    destruct (sparse param =? -1); [|discriminate].
    inversion Hrun; subst m'; clear Hrun. cbn [cpu_data caffe_rng].
    split; [|split; [reflexivity|]].
    + exists d0, d1, s4. right. split; [reflexivity|].
      intros i Hi.
      pose proof Hok as (Hdims & Hmax & Hlen).
      assert (Hne : blob_count [d0; d1; s4; s4; s4] <> 0) by lia.
      destruct (blob_count_positive _ Hdims Hne) as [_ Hge].
      repeat match goal with H : Forall _ (_ :: _) |- _ => inversion H; clear H; subst end.
      rewrite nth_map_seq by lia.
      rewrite blob_count_5 in *.
      assert (1 <= d0 * d1) by nia.
      assert (1 <= d0 * d1 * s4) by nia.
      assert (0 <= s4 * s4) by nia.
      assert (s4 * s4 <= d0 * d1 * s4 * (s4 * s4)) by nia.
      rewrite bilinear_kernel5_eq by lia.
      rewrite Z2Nat.id by lia. reflexivity.
    + intros m2 Hok2.
      rewrite (BilinearFiller_run5 param d0 d1 s4 s4 s4 m2 Hok2), Z.eqb_refl.
      cbn [andb snd cpu_data].
      destruct Hok as (_ & _ & Hl), Hok2 as (_ & _ & Hl2).
      f_equal. f_equal. lia.
Qed.

(** ** The shape of the pyramid *)

(** [pyramid f x] as one fraction: [1 - |2x - (2f - 1 - f mod 2)| / (2f)]. *)
Lemma pyramid_frac (f x : Z) :
  0 < f ->
  (pyramid f x ==
   1 - inject_Z (Z.abs (2 * x - (2 * f - 1 - f mod 2))) / inject_Z (2 * f))%Q.
Proof.
  intros Hf. unfold pyramid, center.
  set (N := 2 * f - 1 - f mod 2).
  assert (Hq : ~ (inject_Z f == 0)%Q).
  { unfold Qeq. simpl. lia. }
  assert (E : (inject_Z x / inject_Z f - inject_Z N / (2 * inject_Z f) ==
               inject_Z (2 * x - N) * / inject_Z (2 * f))%Q).
  { unfold Z.sub. rewrite !inject_Z_plus, !inject_Z_opp, !inject_Z_mult.
    change (inject_Z 2) with 2%Q. field. exact Hq. }
  rewrite E, Qabs_Qmult.
  assert (Hp : (0 <= / inject_Z (2 * f))%Q).
  { apply Qinv_le_0_compat. change 0%Q with (inject_Z 0). rewrite <- Zle_Qle. lia. }
  rewrite (Qabs_pos _ Hp). reflexivity.
Qed.

Lemma frac_bounds (a f : Z) :
  0 < f -> 0 <= a ->
  (0 <= inject_Z a / inject_Z (2 * f))%Q /\
  (a <= 2 * f -> (inject_Z a / inject_Z (2 * f) <= 1)%Q) /\
  (1 <= a -> (1 / inject_Z (2 * f) <= inject_Z a / inject_Z (2 * f))%Q).
Proof.
  intros Hf Ha.
  assert (Hp : (0 < inject_Z (2 * f))%Q).
  { change 0%Q with (inject_Z 0). rewrite <- Zlt_Qlt. lia. }
  repeat split.
  - apply Qle_shift_div_l; [exact Hp|]. rewrite Qmult_0_l.
    change 0%Q with (inject_Z 0). rewrite <- Zle_Qle. exact Ha.
  - intros H. apply Qle_shift_div_r; [exact Hp|]. rewrite Qmult_1_l.
    rewrite <- Zle_Qle. exact H.
  - intros H. unfold Qdiv. apply Qmult_le_compat_r.
    + change 1%Q with (inject_Z 1). rewrite <- Zle_Qle. exact H.
    + apply Qinv_le_0_compat. apply Qlt_le_weak. exact Hp.
Qed.

Lemma peak_even (f : Z) :
  0 < f -> Z.odd f = false -> (peak f == 1 - 1 / inject_Z (2 * f))%Q /\ (peak f < 1)%Q.
Proof.
  intros Hf Ho. unfold peak. rewrite Ho.
  assert (E : (2 * inject_Z f == inject_Z (2 * f))%Q).
  { rewrite inject_Z_mult. reflexivity. }
  rewrite E. split; [reflexivity|].
  assert (Hp : (0 < inject_Z (2 * f))%Q).
  { change 0%Q with (inject_Z 0). rewrite <- Zlt_Qlt. lia. }
  assert (0 < 1 / inject_Z (2 * f))%Q.
  { apply Qlt_shift_div_l; [exact Hp|]. rewrite Qmult_0_l. reflexivity. }
  set (t := (1 / inject_Z (2 * f))%Q) in *. clearbody t. lra.
Qed.

(** No integer coordinate is above the peak. *)
Lemma pyramid_le_peak (f x : Z) : 0 < f -> (pyramid f x <= peak f)%Q.
Proof.
  intros Hf. rewrite (pyramid_frac f x Hf).
  set (a := Z.abs (2 * x - (2 * f - 1 - f mod 2))).
  destruct (frac_bounds a f Hf ltac:(subst a; lia)) as (H0 & _ & H1).
  destruct (Z.odd f) eqn:Ho.
  - unfold peak. rewrite Ho.
    set (t := (inject_Z a / inject_Z (2 * f))%Q) in *. clearbody t. lra.
  - destruct (peak_even f Hf Ho) as [-> _].
    assert (1 <= a).
    { subst a. pose proof (Zmod_odd f) as Hm. rewrite Ho in Hm. lia. }
    specialize (H1 H).
    set (t := (inject_Z a / inject_Z (2 * f))%Q) in *.
    set (t1 := (1 / inject_Z (2 * f))%Q) in *. clearbody t t1. lra.
Qed.

(** Inside a kernel of side [S], [f = ceil(S / 2)], the pyramid is between
    0 and 1. *)
Lemma pyramid_range (S x : Z) :
  0 < S -> 0 <= x < S ->
  (0 <= pyramid (ceil_half S) x /\ pyramid (ceil_half S) x <= 1)%Q.
Proof.
  intros HS Hx.
  assert (Hf : 0 < ceil_half S /\ S <= 2 * ceil_half S).
  { rewrite ceil_half_eq.
    pose proof (Z.div_mod (S + 1) 2 ltac:(lia)).
    pose proof (Z.mod_pos_bound (S + 1) 2 ltac:(lia)). lia. }
  destruct Hf as [Hf HS2].
  rewrite (pyramid_frac _ x Hf).
  set (f := ceil_half S) in *.
  set (a := Z.abs (2 * x - (2 * f - 1 - f mod 2))).
  pose proof (Z.mod_pos_bound f 2 ltac:(lia)).
  destruct (frac_bounds a f Hf ltac:(subst a; lia)) as (H0 & H1 & _).
  assert (a <= 2 * f) by (subst a; lia).
  specialize (H1 H2).
  set (t := (inject_Z a / inject_Z (2 * f))%Q) in *. clearbody t. lra.
Qed.

(** The peak is taken at coordinate [f - 1]. *)
Lemma pyramid_at_peak (f : Z) : 0 < f -> (pyramid f (f - 1) == peak f)%Q.
Proof.
  intros Hf. rewrite (pyramid_frac _ _ Hf).
  pose proof (Zmod_odd f) as Hm.
  destruct (Z.odd f) eqn:Ho.
  - unfold peak. rewrite Ho.
    replace (Z.abs (2 * (f - 1) - (2 * f - 1 - f mod 2))) with 0 by lia.
    unfold Qdiv. rewrite Qmult_0_l. reflexivity.
  - destruct (peak_even f Hf Ho) as [-> _].
    replace (Z.abs (2 * (f - 1) - (2 * f - 1 - f mod 2))) with 1 by lia.
    reflexivity.
Qed.

(** The coordinate with [coord / f = c] exists exactly when [f] is odd. *)
Lemma center_coordinate (f : Z) :
  0 < f ->
  (Z.odd f = true -> (inject_Z (f - 1) / inject_Z f == center f)%Q) /\
  (Z.odd f = false -> forall x : Z, ~ (inject_Z x / inject_Z f == center f)%Q).
Proof.
  intros Hf. split.
  - intros Ho. unfold center.
    pose proof (Zmod_odd f) as Hm. rewrite Ho in Hm. rewrite Hm.
    replace (2 * f - 1 - 1) with (2 * (f - 1)) by lia.
    rewrite inject_Z_mult. change (inject_Z 2) with 2%Q.
    field. unfold Qeq. simpl. lia.
  - intros Ho x E.
    pose proof (pyramid_le_peak f x Hf) as Hle.
    destruct (peak_even f Hf Ho) as [_ Hlt].
    unfold pyramid in Hle. rewrite E in Hle.
    setoid_replace (center f - center f)%Q with 0%Q in Hle by ring.
    simpl Qabs in Hle.
    set (t := peak f) in *. clearbody t. lra.
Qed.

(** C8, as the code has it.  After bilinear fill of a blob of shape
    (K, 1, S, S), K and S at least 1, every element lies in [0, 1] and none
    exceeds p * p, where, with f = ceil(S / 2), p is 1 when f is odd and
    1 - 1 / (2f) when f is even; the element at spatial coordinate
    (f - 1, f - 1) equals p * p.  So the largest element is exactly 1 when f
    is odd, at the coordinate where coord / f = c; when f is even no integer
    coordinate has coord / f = c and the largest element is below 1.  A
    repeated call on the same shape leaves the same elements. *)
Theorem BilinearFiller_Fill_pyramid
        (param : FillerParameter) (K S : Z) (m : Memory) :
  blob_ok [K; 1; S; S] m -> 0 < K -> 0 < S ->
  let f := ceil_half S in
  exists m',
    BilinearFiller_Fill param [K; 1; S; S] m =
    (if sparse param =? -1 then Done tt else Abort UnsupportedSparsity, m') /\
    (forall i, 0 <= i < blob_count [K; 1; S; S] ->
       Dbetween 0 1 (nth (Z.to_nat i) (cpu_data m') NaN) /\
       Dle (nth (Z.to_nat i) (cpu_data m') NaN) (Fin (peak f * peak f))) /\
    Deq (nth (Z.to_nat ((f - 1) * S + (f - 1))) (cpu_data m') NaN)
        (Fin (peak f * peak f)) /\
    (Z.odd f = true ->
       (peak f == 1)%Q /\ (inject_Z (f - 1) / inject_Z f == center f)%Q) /\
    (Z.odd f = false ->
       (peak f < 1)%Q /\ forall x : Z, ~ (inject_Z x / inject_Z f == center f)%Q) /\
    (forall m2, blob_ok [K; 1; S; S] m2 ->
       cpu_data (snd (BilinearFiller_Fill param [K; 1; S; S] m2)) = cpu_data m').
Proof.
  intros Hok HK HS f.
  pose proof Hok as (Hdims & Hmax & Hlen).
  rewrite blob_count_4 in Hmax, Hlen.
  assert (HSS : 0 < S * S <= INT_MAX) by nia.
  assert (Hf : 0 < f /\ f <= S).
  { unfold f. rewrite ceil_half_eq.
    pose proof (Z.div_mod (S + 1) 2 ltac:(lia)).
    pose proof (Z.mod_pos_bound (S + 1) 2 ltac:(lia)). lia. }
  destruct Hf as [Hf HfS].
  rewrite (BilinearFiller_run4 param K 1 S S m Hok), Z.eqb_refl.
  eexists. split; [reflexivity|]. cbn [cpu_data].
  assert (Hpk : (0 <= peak f /\ peak f <= 1)%Q).
  { rewrite <- (pyramid_at_peak f Hf). apply pyramid_range; lia. }
  repeat split.
  - (* range *)
    rewrite blob_count_4 in H. rewrite nth_map_seq by lia.
    rewrite bilinear_kernel4_eq, Z2Nat.id by lia. simpl.
    destruct (pyramid_range S (i mod S) HS (Z.mod_pos_bound i S HS)) as [Hx0 Hx1].
    destruct (pyramid_range S ((i / S) mod S) HS (Z.mod_pos_bound (i / S) S HS))
      as [Hy0 Hy1].
    fold f in Hx0, Hx1, Hy0, Hy1 |- *.
    set (px := pyramid f (i mod S)) in *. set (py := pyramid f ((i / S) mod S)) in *.
    clearbody px py. split; nra.
  - rewrite blob_count_4 in H. rewrite nth_map_seq by lia.
    rewrite bilinear_kernel4_eq, Z2Nat.id by lia. simpl.
    destruct (pyramid_range S (i mod S) HS (Z.mod_pos_bound i S HS)) as [Hx0 Hx1].
    destruct (pyramid_range S ((i / S) mod S) HS (Z.mod_pos_bound (i / S) S HS))
      as [Hy0 Hy1].
    fold f in Hx0, Hx1, Hy0, Hy1 |- *.
    rewrite <- !(pyramid_at_peak f Hf) in Hpk.
    pose proof (pyramid_le_peak f (i mod S) Hf) as Hxp.
    pose proof (pyramid_le_peak f ((i / S) mod S) Hf) as Hyp.
    rewrite <- !(pyramid_at_peak f Hf) in Hxp, Hyp |- *.
    set (px := pyramid f (i mod S)) in *. set (py := pyramid f ((i / S) mod S)) in *.
    set (p := pyramid f (f - 1)) in *. clearbody px py p. nra.
  - (* the peak *)
    assert (Hidx : 0 <= (f - 1) * S + (f - 1) < S * S) by nia.
    rewrite nth_map_seq by nia.
    rewrite bilinear_kernel4_eq, Z2Nat.id by lia. simpl.
    rewrite (Z.add_comm ((f - 1) * S)), Z.mod_add, Z.div_add by lia.
    rewrite (Z.mod_small (f - 1) S), (Z.div_small (f - 1) S) by lia.
    rewrite Z.add_0_l, (Z.mod_small (f - 1) S) by lia. fold f.
    rewrite (pyramid_at_peak f Hf). reflexivity.
  - unfold peak. rewrite H. reflexivity.
  - apply (proj1 (center_coordinate f Hf)). exact H.
  - apply (peak_even f Hf H).
  - apply (proj2 (center_coordinate f Hf)). exact H.
  - intros m2 Hok2.
    rewrite (BilinearFiller_run4 param K 1 S S m2 Hok2), Z.eqb_refl.
    cbn [snd cpu_data].
    destruct Hok2 as (_ & _ & Hl2). rewrite blob_count_4 in Hl2.
    f_equal. f_equal. lia.
Qed.

(** ** Sparsity on the fillers that do not support it *)

(** C2, as the code has it.  On a blob that passes every other check of one
    of the six strategies, a fill with a sparsity other than -1 fails with
    UnsupportedSparsity, and it fails last: the buffer and the generator are
    left exactly as the same fill leaves them when it succeeds with
    sparsity -1. *)
Theorem Fill_sparsity_checked_last (filler : Filler) (blob : list Z) (m : Memory) :
  forbids_sparsity filler = true -> blob_ok blob m ->
  other_checks_pass filler blob = true ->
  sparse (filler_param_ filler) <> -1 ->
  exists m',
    Fill (rebind filler (with_sparse (filler_param_ filler) (-1))) blob m = (Done tt, m') /\
    Fill filler blob m = (Abort UnsupportedSparsity, m').
Proof.
  intros Hf Hok Hc Hs.
  assert (Hs' : (sparse (filler_param_ filler) =? -1) = false) by (apply Z.eqb_neq; exact Hs).
  destruct filler as [p|p|p|p|p|p|p|p]; try discriminate Hf;
    cbn [filler_param_ rebind Fill other_checks_pass] in *.
  - (* constant *)
    apply negb_true_iff, Z.eqb_neq in Hc.
    rewrite !ConstantFiller_run by assumption. rewrite Hs'.
    eexists. split; reflexivity.
  - (* positive_unitball *)
    apply andb_true_iff in Hc. destruct Hc as [Hc Hax].
    apply negb_true_iff, Z.eqb_neq in Hc.
    destruct blob as [|d0 rest]; [discriminate Hax|].
    rewrite !(PositiveUnitballFiller_run _ _ d0 rest m eq_refl Hok Hc). rewrite Hs'.
    eexists. split; reflexivity.
  - (* uniform *)
    apply negb_true_iff, Z.eqb_neq in Hc.
    rewrite !UniformFiller_run by assumption. rewrite Hs'.
    eexists. split; reflexivity.
  - (* xavier *)
    apply andb_true_iff in Hc. destruct Hc as [Hc Hax].
    apply negb_true_iff, Z.eqb_neq in Hc.
    destruct blob as [|d0 [|d1 rest]]; try discriminate Hax.
    rewrite !(XavierFiller_run _ _ d0 d1 rest m eq_refl Hok Hc). rewrite Hs'.
    eexists. split; reflexivity.
  - (* msra *)
    apply andb_true_iff in Hc. destruct Hc as [Hc Hax].
    apply negb_true_iff, Z.eqb_neq in Hc.
    destruct blob as [|d0 [|d1 rest]]; try discriminate Hax.
    rewrite !(MSRAFiller_run _ _ d0 d1 rest m eq_refl Hok Hc). rewrite Hs'.
    eexists. split; reflexivity.
  - (* bilinear *)
    destruct blob as [|d0 [|d1 [|s2 [|s3 [|s4 [|s5 blob]]]]]]; try discriminate Hc.
    + rewrite !(BilinearFiller_run4 _ d0 d1 s2 s3 m Hok), Hc, Hs'.
      eexists. split; reflexivity.
    + rewrite !(BilinearFiller_run5 _ d0 d1 s2 s3 s4 m Hok), Hc, Hs'.
      eexists. split; reflexivity.
Qed.

(** ** The registry *)

(** C1, as the code has it.  [GetFiller] succeeds exactly on the eight names
    it compares with (the seven documented ones and "gabor"), returning the
    filler of that strategy bound to the parameters, and fails with
    UnknownStrategy on every other name. *)
Theorem GetFiller_registered (param : FillerParameter) :
  (In (type param) registered_names ->
   exists filler, GetFiller param = Done filler /\
                  strategy filler = type param /\ filler_param_ filler = param) /\
  (~ In (type param) registered_names -> GetFiller param = Abort UnknownStrategy).
Proof.
  unfold GetFiller, registered_names, documented_names. split.
  - intros Hin. simpl in Hin.
    repeat (destruct Hin as [<- | Hin];
            [eexists; split; [reflexivity | split; reflexivity] |]).
    contradiction.
  - intros Hn.
    repeat match goal with
    | |- context [String.eqb (type param) ?s] =>
        destruct (String.eqb_spec (type param) s) as [E|E];
        [exfalso; apply Hn; rewrite E; simpl; tauto | clear E]
    end.
    reflexivity.
Qed.

(** * Further properties of the fillers *)

(** ** The support of the uniform fillers *)

Lemma draws_in_range (lo hi : Q) (n : nat) (g : rng_t) :
  uniform_in_range -> (lo <= hi)%Q ->
  Forall (Dbetween lo hi) (draws (uniform_variate (Fin lo) (Fin hi)) n g).
Proof.
  intros Hu Hle. unfold draws. rewrite Forall_forall. intros x Hin.
  apply in_map_iff in Hin. destruct Hin as (k & <- & _). apply Hu, Hle.
Qed.

(** X5. Uniform fill of a non-empty blob with numbers min <= max, when the
    generator keeps every Uniform(a, b) variate within [a, b]: the fill ends
    on the sparsity check, the buffer keeps its length, every element lies
    in [min, max], and the generator has advanced by exactly count
    variates. *)
Theorem UniformFiller_Fill_range
        (param : FillerParameter) (blob : list Z) (m : Memory) (lo hi : Q) :
  blob_ok blob m -> 0 < blob_count blob ->
  min param = Fin lo -> max param = Fin hi -> (lo <= hi)%Q ->
  uniform_in_range ->
  exists m',
    UniformFiller_Fill param blob m =
    (if sparse param =? -1 then Done tt else Abort UnsupportedSparsity, m') /\
    List.length (cpu_data m') = List.length (cpu_data m) /\
    Forall (Dbetween lo hi) (cpu_data m') /\
    caffe_rng m' = rng_after (uniform_variate (Fin lo) (Fin hi))
                             (Z.to_nat (blob_count blob)) (caffe_rng m).
Proof.
  intros Hok Hpos Hmin Hmax Hle Hu.
  rewrite (UniformFiller_run param blob m Hok ltac:(lia)), Hmin, Hmax.
  eexists. split; [reflexivity|]. cbn [cpu_data caffe_rng].
  split; [apply length_draws|]. split; [apply draws_in_range; assumption|].
  rewrite (blob_count_nat _ _ Hok), Nat2Z.id. reflexivity.
Qed.

(** X6. Xavier fill of a non-empty blob of two axes or more, when the
    square root of 3 / n is a number s >= 0 and the generator keeps every
    Uniform(a, b) variate within [a, b]: every element lies in [-s, s]. *)
Theorem XavierFiller_Fill_support
        (param : FillerParameter) (blob : list Z) d0 d1 rest (m : Memory) (s : Q) :
  blob = d0 :: d1 :: rest -> blob_ok blob m -> 0 < blob_count blob ->
  sqrt (Ddiv (of_int 3)
             (fan_n param (blob_count blob / d0) (blob_count blob / d1))) = Fin s ->
  (0 <= s)%Q -> uniform_in_range ->
  exists m',
    XavierFiller_Fill param blob m =
    (if sparse param =? -1 then Done tt else Abort UnsupportedSparsity, m') /\
    List.length (cpu_data m') = List.length (cpu_data m) /\
    Forall (Dbetween (- s) s) (cpu_data m').
Proof.
  intros Hb Hok Hpos Hs Hs0 Hu.
  rewrite (XavierFiller_run param blob d0 d1 rest m Hb Hok ltac:(lia)), Hs.
  eexists. split; [reflexivity|]. cbn [cpu_data Dopp].
  split; [apply length_draws|]. apply draws_in_range; [exact Hu | lra].
Qed.

(** ** Empty buffers and the order of the checks *)

Lemma CHECK_count_empty (blob : list Z) (k : M unit) (m : Memory) :
  blob_count blob = 0 ->
  (CHECK (negb (blob_count blob =? 0)) EmptyBuffer ;; k) m = (Abort EmptyBuffer, m).
Proof. intros E. rewrite E. reflexivity. Qed.

Lemma CHECK_count_nonempty (blob : list Z) (k : M unit) (m : Memory) :
  blob_count blob <> 0 ->
  (CHECK (negb (blob_count blob =? 0)) EmptyBuffer ;; k) m = k m.
Proof.
  intros E. replace (blob_count blob =? 0) with false by (symmetry; apply Z.eqb_neq; exact E).
  reflexivity.
Qed.

(** Xavier and MSRA fill of a non-empty blob of fewer than two axes: the
    missing axis is found before anything is drawn. *)
Lemma fans_missing_axis (blob : list Z) (m : Memory) (k : Z -> Z -> M unit) :
  blob_ok blob m -> blob_count blob <> 0 -> (List.length blob < 2)%nat ->
  (CHECK (negb (blob_count blob =? 0)) EmptyBuffer ;;
   shape0 <- blob_shape blob 0 ;;
   fan_in <- int_div (blob_count blob) shape0 ;;
   shape1 <- blob_shape blob 1 ;;
   fan_out <- int_div (blob_count blob) shape1 ;;
   k fan_in fan_out) m = (Abort UnsupportedRank, m).
Proof.
  intros Hok Hne Hlen. rewrite CHECK_count_nonempty by exact Hne.
  destruct blob as [|d0 [|d1 rest]]; [reflexivity| |simpl in Hlen; lia].
  destruct Hok as (Hd & Hmax & _).
  destruct (blob_count_positive _ Hd Hne) as [Hpos Hge].
  inversion Hge as [|? ? H0 _]; subst.
  rewrite (bind_Done _ _ _ d0 m (blob_shape_Some [d0] 0 d0 m eq_refl)).
  rewrite (bind_Done _ _ _ _ m (int_div_run (blob_count [d0]) d0 m ltac:(lia) ltac:(lia))).
  reflexivity.
Qed.

(** The outcomes of the fillers that write only once every check but the
    sparsity has passed. *)
Lemma Fill_cases_validating (filler : Filler) (blob : list Z) (m : Memory) :
  validates_first filler = true -> blob_ok blob m ->
  (exists e, In e [EmptyBuffer; UnsupportedRank; FilterNotSquare; FilterNotCube] /\
             Fill filler blob m = (Abort e, m)) \/
  (exists m',
     Fill filler blob m =
     (if sparse (filler_param_ filler) =? -1 then Done tt else Abort UnsupportedSparsity, m') /\
     List.length (cpu_data m') = List.length (cpu_data m)).
Proof.
  intros Hv Hok.
  destruct filler as [p|p|p|p|p|p|p|p]; try discriminate Hv;
    cbn [filler_param_ Fill].
  - (* constant *)
    destruct (Z.eq_dec (blob_count blob) 0) as [E|E].
    + left. exists EmptyBuffer. split; [simpl; tauto|].
      unfold ConstantFiller_Fill. apply CHECK_count_empty, E.
    + right. rewrite (ConstantFiller_run p blob m Hok E). eexists. split; [reflexivity|].
      apply repeat_length.
  - (* uniform *)
    destruct (Z.eq_dec (blob_count blob) 0) as [E|E].
    + left. exists EmptyBuffer. split; [simpl; tauto|].
      unfold UniformFiller_Fill. apply CHECK_count_empty, E.
    + right. rewrite (UniformFiller_run p blob m Hok E). eexists. split; [reflexivity|].
      apply length_draws.
  - (* xavier *)
    destruct (Z.eq_dec (blob_count blob) 0) as [E|E].
    + left. exists EmptyBuffer. split; [simpl; tauto|].
      unfold XavierFiller_Fill. apply CHECK_count_empty, E.
    + destruct blob as [|d0 [|d1 rest]].
      * left. exists UnsupportedRank. split; [simpl; tauto|].
        unfold XavierFiller_Fill. apply fans_missing_axis; auto.
      * left. exists UnsupportedRank. split; [simpl; tauto|].
        unfold XavierFiller_Fill. apply fans_missing_axis; auto.
      * right. rewrite (XavierFiller_run p _ d0 d1 rest m eq_refl Hok E).
        eexists. split; [reflexivity|]. apply length_draws.
  - (* msra *)
    destruct (Z.eq_dec (blob_count blob) 0) as [E|E].
    + left. exists EmptyBuffer. split; [simpl; tauto|].
      unfold MSRAFiller_Fill. apply CHECK_count_empty, E.
    + destruct blob as [|d0 [|d1 rest]].
      * left. exists UnsupportedRank. split; [simpl; tauto|].
        unfold MSRAFiller_Fill. apply fans_missing_axis; auto.
      * left. exists UnsupportedRank. split; [simpl; tauto|].
        unfold MSRAFiller_Fill. apply fans_missing_axis; auto.
      * right. rewrite (MSRAFiller_run p _ d0 d1 rest m eq_refl Hok E).
        eexists. split; [reflexivity|]. apply length_draws.
  - (* bilinear *)
    destruct blob as [|d0 [|d1 [|s2 [|s3 [|s4 [|s5 blob]]]]]];
      try (left; exists UnsupportedRank; split; [simpl; tauto|];
           apply BilinearFiller_other_rank; unfold num_axes; simpl List.length; lia).
    + rewrite (BilinearFiller_run4 p d0 d1 s2 s3 m Hok).
      destruct (s3 =? s2).
      * right. eexists. split; [reflexivity|]. cbn [cpu_data].
        rewrite length_map, length_seq. reflexivity.
      * left. exists FilterNotSquare. split; [simpl; tauto | reflexivity].
    + rewrite (BilinearFiller_run5 p d0 d1 s2 s3 s4 m Hok).
      destruct ((s2 =? s3) && (s3 =? s4)).
      * right. eexists. split; [reflexivity|]. cbn [cpu_data].
        rewrite length_map, length_seq. reflexivity.
      * left. exists FilterNotCube. split; [simpl; tauto | reflexivity].
Qed.

(** X7. Constant, uniform, xavier, msra and bilinear fill validate before
    they write: when one of them fails on anything but the sparsity (an
    empty buffer, a missing axis, a kernel that is not square or not a
    cube, an unsupported number of axes), the buffer and the generator are
    exactly as they were before the call. *)
Theorem Fill_validates_before_writing
        (filler : Filler) (blob : list Z) (m m' : Memory) (e : Fatal) :
  validates_first filler = true -> blob_ok blob m ->
  Fill filler blob m = (Abort e, m') -> e <> UnsupportedSparsity ->
  m' = m /\ In e [EmptyBuffer; UnsupportedRank; FilterNotSquare; FilterNotCube].
Proof.
  intros Hv Hok Hrun Hne.
  destruct (Fill_cases_validating filler blob m Hv Hok) as [(e1 & Hin & H1) | (m1 & H1 & _)].
  - rewrite Hrun in H1. inversion H1; subst. split; [reflexivity | exact Hin].
  - rewrite Hrun in H1.
    destruct (sparse (filler_param_ filler) =? -1); inversion H1; subst.
    contradiction.
Qed.

(** X8. The five fillers that start on [CHECK(count)] (constant, uniform,
    gaussian, xavier, msra) fail on an empty buffer with EmptyBuffer before
    any element is written or any variate drawn.  Bilinear fill has no such
    check: on an empty 4-axis blob with equal trailing extents it goes
    straight to the sparsity check, and succeeds with sparsity -1, leaving
    the memory as it was. *)
Theorem Fill_empty_buffer (filler : Filler) (blob : list Z) (m : Memory) :
  blob_ok blob m -> blob_count blob = 0 ->
  (checks_count filler = true -> Fill filler blob m = (Abort EmptyBuffer, m)) /\
  (forall param d0 d1 S, filler = BilinearFiller param -> blob = [d0; d1; S; S] ->
     Fill filler blob m =
     (if sparse param =? -1 then Done tt else Abort UnsupportedSparsity, m)).
Proof.
  intros Hok E. split.
  - intros Hc. destruct filler as [p|p|p|p|p|p|p|p]; try discriminate Hc; cbn [Fill].
    + unfold ConstantFiller_Fill. apply CHECK_count_empty, E.
    + unfold GaussianFiller_Fill. apply CHECK_count_empty, E.
    + unfold UniformFiller_Fill. apply CHECK_count_empty, E.
    + unfold XavierFiller_Fill. apply CHECK_count_empty, E.
    + unfold MSRAFiller_Fill. apply CHECK_count_empty, E.
  - intros param d0 d1 S -> ->. cbn [Fill].
    rewrite (BilinearFiller_run4 param d0 d1 S S m Hok), Z.eqb_refl.
    f_equal. destruct Hok as (_ & _ & Hl). rewrite E in Hl.
    destruct m as [data g]. cbn [cpu_data caffe_rng] in *.
    destruct data; [reflexivity | simpl in Hl; lia].
Qed.

(** ** Positive unit ball fill of an empty blob *)


Lemma for_zero (body : Z -> M unit) (m : Memory) : for_ 0 body m = (Done tt, m).
Proof. reflexivity. Qed.

Lemma DCHECK_nonempty (blob : list Z) (m : Memory) :
  blob_count blob <> 0 ->
  DCHECK (negb (blob_count blob =? 0)) EmptyBuffer m = (Done tt, m).
Proof.
  intros Hne. unfold DCHECK. destruct NDEBUG; [reflexivity|].
  replace (blob_count blob =? 0) with false by (symmetry; apply Z.eqb_neq; exact Hne).
  reflexivity.
Qed.

(** Positive unit ball fill of an empty blob with a leading axis, in a
    debug and in a release build. *)
Lemma unitball_empty_debug (param : FillerParameter) (blob : list Z) (m : Memory) :
  NDEBUG = false -> blob_count blob = 0 ->
  PositiveUnitballFiller_Fill param blob m = (Abort EmptyBuffer, m).
Proof.
  intros Hd E. unfold PositiveUnitballFiller_Fill, DCHECK. rewrite Hd, E. reflexivity.
Qed.

Lemma unitball_empty_release
      (param : FillerParameter) (d0 : Z) (rest : list Z) (m : Memory) :
  NDEBUG = true -> blob_count (d0 :: rest) = 0 ->
  PositiveUnitballFiller_Fill param (d0 :: rest) m =
  (Abort (if d0 =? 0 then DivideByZero else EmptyBuffer), m).
Proof.
  intros Hd E. unfold PositiveUnitballFiller_Fill, DCHECK, caffe_rng_uniform.
  rewrite Hd, E.
  rewrite (bind_Done _ _ _ tt m eq_refl).
  rewrite (bind_Done _ _ _ tt m (for_zero _ m)).
  rewrite (bind_Done _ _ _ d0 m (blob_shape_Some (d0 :: rest) 0 d0 m eq_refl)).
  unfold int_div. destruct (Z.eqb_spec d0 0) as [->|Hne]; [reflexivity|].
  unfold idiv. rewrite Z.quot_0_l by exact Hne. reflexivity.
Qed.

(** X9. Positive unit ball fill of an empty blob with a leading axis.  Its
    element count is guarded by a [DCHECK] only: a debug build fails with
    EmptyBuffer; a release build goes on to [count / shape(0)], an integer
    division by zero when the leading extent is 0, and fails on [CHECK(dim)]
    with EmptyBuffer otherwise.  Nothing is written or drawn in any of the
    cases. *)
Theorem PositiveUnitballFiller_Fill_empty
        (param : FillerParameter) (d0 : Z) (rest : list Z) (m : Memory) :
  blob_ok (d0 :: rest) m -> blob_count (d0 :: rest) = 0 ->
  PositiveUnitballFiller_Fill param (d0 :: rest) m =
  (Abort (if NDEBUG then if d0 =? 0 then DivideByZero else EmptyBuffer
          else EmptyBuffer), m).
Proof.
  intros _ E. destruct NDEBUG eqn:Hd.
  - apply unitball_empty_release; assumption.
  - apply unitball_empty_debug; assumption.
Qed.

(** Positive unit ball fill of a blob without axes: the one element is
    drawn before the leading axis is looked up. *)
Lemma PositiveUnitballFiller_no_axes (param : FillerParameter) (m : Memory) :
  blob_ok [] m ->
  PositiveUnitballFiller_Fill param [] m =
  (Abort UnsupportedRank,
   {| cpu_data := draws (uniform_variate (of_int 0) (of_int 1))
                        (List.length (cpu_data m)) (caffe_rng m);
      caffe_rng := rng_after (uniform_variate (of_int 0) (of_int 1))
                             (List.length (cpu_data m)) (caffe_rng m) |}).
Proof.
  intros Hok. unfold PositiveUnitballFiller_Fill.
  rewrite (bind_Done _ _ _ tt m (DCHECK_nonempty [] m ltac:(discriminate))).
  unfold caffe_rng_uniform. rewrite (blob_count_nat _ _ Hok).
  rewrite (bind_Done _ _ _ _ _ (rng_fill_all _ m)). reflexivity.
Qed.

(** ** Gaussian fill: what the mask does *)

(** X10. Gaussian fill with a sparsity >= 0, when every mask value the
    generator returns is 0 or 1: every element of the buffer is the Gaussian
    variate drawn for it times 1 or times 0, so a finite variate is kept or
    replaced by zero, and nothing else. *)
Theorem GaussianFiller_Fill_keeps_or_zeroes
        (param : FillerParameter) (blob : list Z) (m : Memory) (num_outputs : Z) :
  blob_ok blob m -> 0 < blob_count blob -> nth_error blob 0 = Some num_outputs ->
  0 <= sparse param -> bernoulli_is_bit ->
  let gauss := gaussian_variate (mean param) (std param) in
  forall k, (k < List.length (cpu_data m))%nat ->
    let x := draw_at gauss k (caffe_rng m) in
    let y := nth k (cpu_data (snd (GaussianFiller_Fill param blob m))) NaN in
    (y = Dmul x (of_int 1) \/ y = Dmul x (of_int 0)) /\
    (forall q, x = Fin q -> Deq y (Fin q) \/ Deq y (Fin 0)).
Proof.
  intros Hok Hpos H0 Hs Hbit gauss k Hk x y.
  assert (Hne : blob_count blob <> 0) by lia.
  unfold y. rewrite (GaussianFiller_run_masked param blob m num_outputs Hok Hne H0 Hs).
  cbn [snd cpu_data]. rewrite nth_map_seq by exact Hk. fold gauss x.
  match goal with |- context [of_int ?d] =>
    set (b := d);
    assert (Hb : b = 0 \/ b = 1) by (unfold b, draw_at; apply Hbit)
  end.
  clearbody b. destruct Hb as [-> | ->].
  - split; [right; reflexivity|]. intros q ->. right. simpl. ring.
  - split; [left; reflexivity|]. intros q ->. left. simpl. ring.
Qed.

(** ** Memory safety *)

(** X11. No [Fill] of [filler.hpp] (constant, gaussian, positive unit ball,
    uniform, xavier, msra, bilinear) reads or writes outside the buffer of a
    well-formed blob, whatever its shape, parameters and outcome, and none
    changes the number of elements of the buffer. *)
Theorem Fill_stays_in_bounds (filler : Filler) (blob : list Z) (m : Memory) :
  in_filler_hpp filler = true -> blob_ok blob m ->
  fst (Fill filler blob m) <> Abort OutOfBounds /\
  List.length (cpu_data (snd (Fill filler blob m))) = List.length (cpu_data m).
Proof.
  intros Hin Hok.
  destruct (validates_first filler) eqn:Hv.
  - destruct (Fill_cases_validating filler blob m Hv Hok)
      as [(e & He & ->) | (m1 & -> & Hl)]; cbn [fst snd].
    + split; [|reflexivity]. simpl in He.
      repeat (destruct He as [<- | He]; [discriminate|]). contradiction.
    + split; [|exact Hl]. destruct (sparse (filler_param_ filler) =? -1); discriminate.
  - destruct filler as [p|p|p|p|p|p|p|p]; try discriminate Hv; try discriminate Hin;
      cbn [Fill].
    + (* gaussian *)
      destruct (Z.eq_dec (blob_count blob) 0) as [E|E].
      { unfold GaussianFiller_Fill. rewrite (CHECK_count_empty blob _ m E).
        split; [discriminate | reflexivity]. }
      destruct (Z_lt_le_dec (sparse p) 0) as [Hneg|Hs].
      * unfold GaussianFiller_Fill. rewrite (gaussian_drawn p blob m _ Hok E).
        replace (0 <=? sparse p) with false by (symmetry; apply Z.leb_gt; lia).
        destruct (-1 <=? sparse p); cbn [CHECK bind ret abort fst snd cpu_data];
          (split; [discriminate | apply length_draws]).
      * destruct blob as [|d0 rest].
        -- unfold GaussianFiller_Fill. rewrite (gaussian_drawn p [] m _ Hok E).
           replace (-1 <=? sparse p) with true by (symmetry; apply Z.leb_le; lia).
           replace (0 <=? sparse p) with true by (symmetry; apply Z.leb_le; lia).
           cbn [fst snd cpu_data CHECK bind ret abort num_axes List.length Z.leb].
           split; [discriminate | apply length_draws].
        -- rewrite (GaussianFiller_run_masked p (d0 :: rest) m d0 Hok E eq_refl Hs).
           cbn [fst snd cpu_data].
           split; [discriminate | rewrite length_map, length_seq; reflexivity].
    + (* positive unit ball *)
      destruct (Z.eq_dec (blob_count blob) 0) as [E|E].
      * destruct blob as [|d0 rest]; [discriminate E|].
        destruct NDEBUG eqn:Hd.
        -- rewrite (unitball_empty_release p d0 rest m Hd E). cbn [fst snd].
           split; [destruct (d0 =? 0); discriminate | reflexivity].
        -- rewrite (unitball_empty_debug p (d0 :: rest) m Hd E).
           split; [discriminate | reflexivity].
      * destruct blob as [|d0 rest].
        -- rewrite (PositiveUnitballFiller_no_axes p m Hok). cbn [fst snd cpu_data].
           split; [discriminate | apply length_draws].
        -- rewrite (PositiveUnitballFiller_run p _ d0 rest m eq_refl Hok E).
           cbn [fst snd cpu_data].
           split; [destruct (sparse p =? -1); discriminate|].
           unfold normalized. rewrite length_map, length_seq. apply length_draws.
Qed.

(** ** The bilinear kernel of the documented size *)

Lemma kernel_size_bounds (factor : Z) :
  0 < factor ->
  factor <= kernel_size factor <= 2 * factor /\
  ceil_half (kernel_size factor) = factor.
Proof.
  intros Hf. unfold kernel_size. rewrite ceil_half_eq.
  pose proof (Z.mod_pos_bound factor 2 ltac:(lia)) as Hm.
  split; [lia|].
  symmetry. apply Z.div_unique with (r := 1 - factor mod 2); lia.
Qed.

Lemma unravel_index (K ch y x : Z) :
  0 < K -> 0 <= ch -> 0 <= y < K -> 0 <= x < K ->
  (ch * (K * K) + y * K + x) mod K = x /\
  ((ch * (K * K) + y * K + x) / K) mod K = y.
Proof.
  intros HK Hch Hy Hx.
  replace (ch * (K * K) + y * K + x) with (x + (ch * K + y) * K) by ring.
  rewrite Z.mod_add, Z.div_add by lia.
  rewrite (Z.mod_small x K), (Z.div_small x K) by lia.
  split; [reflexivity|].
  rewrite Z.add_0_l, Z.add_comm, Z.mod_add by lia.
  apply Z.mod_small. lia.
Qed.

(** The element bilinear fill leaves at row [y], column [x] of a channel. *)
Lemma kernel_at_filled (param : FillerParameter) (d0 d1 K : Z) (m : Memory) (ch y x : Z) :
  blob_ok [d0; d1; K; K] m -> 0 <= ch < d0 * d1 -> 0 <= y < K -> 0 <= x < K ->
  kernel_at (cpu_data (snd (BilinearFiller_Fill param [d0; d1; K; K] m))) K ch y x =
  Fin (pyramid (ceil_half K) x * pyramid (ceil_half K) y).
Proof.
  intros Hok Hch Hy Hx.
  pose proof Hok as (Hd & Hmax & Hlen). rewrite blob_count_4 in Hmax, Hlen.
  assert (HK : 0 < K) by lia.
  assert (HKK : 0 < K * K) by nia.
  assert (Hi : 0 <= ch * (K * K) + y * K + x < d0 * d1 * K * K).
  { assert (y * K + x < K * K) by nia.
    assert ((ch + 1) * (K * K) <= d0 * d1 * (K * K)) by (apply Z.mul_le_mono_nonneg_r; lia).
    nia. }
  assert (HKmax : K * K <= INT_MAX).
  { assert (1 * (K * K) <= d0 * d1 * (K * K)) by (apply Z.mul_le_mono_nonneg_r; lia).
    lia. }
  rewrite (BilinearFiller_run4 param d0 d1 K K m Hok), Z.eqb_refl.
  cbn [snd cpu_data]. unfold kernel_at.
  rewrite nth_map_seq by lia.
  rewrite bilinear_kernel4_eq, Z2Nat.id by lia.
  destruct (unravel_index K ch y x HK ltac:(lia) Hy Hx) as [-> ->]. reflexivity.
Qed.

(** The pyramid of the documented kernel size mirrors about its middle. *)
Lemma pyramid_mirror (factor x : Z) :
  0 < factor ->
  (pyramid factor (kernel_size factor - 1 - x) == pyramid factor x)%Q.
Proof.
  intros Hf. rewrite !(pyramid_frac _ _ Hf). unfold kernel_size.
  replace (Z.abs (2 * (2 * factor - factor mod 2 - 1 - x) - (2 * factor - 1 - factor mod 2)))
    with (Z.abs (2 * x - (2 * factor - 1 - factor mod 2))) by lia.
  reflexivity.
Qed.

(** The values of the pyramid at the coordinates congruent to [r] modulo
    the factor add up to 1. *)
Lemma pyramid_partition (factor r : Z) :
  0 < factor -> 0 <= r < factor ->
  (r + factor < kernel_size factor ->
   (pyramid factor r + pyramid factor (r + factor) == 1)%Q) /\
  (kernel_size factor <= r + factor -> (pyramid factor r == 1)%Q).
Proof.
  intros Hf Hr.
  pose proof (Z.mod_pos_bound factor 2 ltac:(lia)) as Hm.
  assert (HB : ~ (inject_Z (2 * factor) == 0)%Q).
  { unfold Qeq, inject_Z. cbn [Qnum Qden]. lia. }
  split; intros HK; unfold kernel_size in HK; rewrite !(pyramid_frac _ _ Hf).
  - replace (Z.abs (2 * r - (2 * factor - 1 - factor mod 2)))
      with (2 * factor - 1 - factor mod 2 - 2 * r) by lia.
    replace (Z.abs (2 * (r + factor) - (2 * factor - 1 - factor mod 2)))
      with (2 * factor - (2 * factor - 1 - factor mod 2 - 2 * r)) by lia.
    set (a := 2 * factor - 1 - factor mod 2 - 2 * r).
    unfold Z.sub at 1. rewrite inject_Z_plus, inject_Z_opp.
    field. exact HB.
  - replace (Z.abs (2 * r - (2 * factor - 1 - factor mod 2))) with 0 by lia.
    unfold Qdiv. rewrite Qmult_0_l. reflexivity.
Qed.

(** X12. Bilinear fill of a blob of kernels of the size the documentation
    prescribes for an upsampling factor, K = 2 * factor - factor % 2: the
    [f] the code computes is the factor, and every channel holds the same
    separable kernel, unchanged when mirrored left to right, mirrored top
    to bottom or transposed. *)
Theorem BilinearFiller_Fill_symmetric
        (param : FillerParameter) (d0 d1 factor : Z) (m : Memory) :
  0 < factor ->
  let K := kernel_size factor in
  blob_ok [d0; d1; K; K] m ->
  let data := cpu_data (snd (BilinearFiller_Fill param [d0; d1; K; K] m)) in
  bilinear_f K = factor /\
  forall ch y x, 0 <= ch < d0 * d1 -> 0 <= y < K -> 0 <= x < K ->
    Deq (kernel_at data K ch y x) (Fin (pyramid factor x * pyramid factor y)) /\
    Deq (kernel_at data K ch y x) (kernel_at data K ch y (K - 1 - x)) /\
    Deq (kernel_at data K ch y x) (kernel_at data K ch (K - 1 - y) x) /\
    Deq (kernel_at data K ch y x) (kernel_at data K ch x y).
Proof.
  intros Hf K Hok data.
  destruct (kernel_size_bounds factor Hf) as [HKb HKf]. fold K in HKb, HKf.
  split.
  - rewrite bilinear_f_eq; [exact HKf|].
    destruct Hok as (Hd & _ & _).
    apply Forall_inv_tail, Forall_inv_tail, Forall_inv in Hd. exact Hd.
  - intros ch y x Hch Hy Hx. unfold data.
    rewrite !(kernel_at_filled param d0 d1 K m) by (try assumption; lia).
    rewrite HKf. cbn [Deq].
    pose proof (pyramid_mirror factor x Hf) as Mx.
    pose proof (pyramid_mirror factor y Hf) as My.
    fold K in Mx, My.
    split; [reflexivity|]. split; [rewrite Mx; reflexivity|].
    split; [rewrite My; reflexivity | ring].
Qed.

(** X13. The same kernel interpolates: in every channel, the elements at
    the rows congruent to [ry] and the columns congruent to [rx] modulo the
    factor, those one output pixel of a deconvolution of stride [factor]
    weighs its inputs with, add up to 1. *)
Theorem BilinearFiller_Fill_interpolates
        (param : FillerParameter) (d0 d1 factor : Z) (m : Memory) :
  0 < factor ->
  let K := kernel_size factor in
  blob_ok [d0; d1; K; K] m ->
  let data := cpu_data (snd (BilinearFiller_Fill param [d0; d1; K; K] m)) in
  forall ch ry rx, 0 <= ch < d0 * d1 -> 0 <= ry < factor -> 0 <= rx < factor ->
    Deq (Dsum (flat_map (fun y => map (fun x => kernel_at data K ch y x)
                                      (strided K factor rx))
                        (strided K factor ry)))
        (Fin 1).
Proof.
  intros Hf K Hok data ch ry rx Hch Hry Hrx.
  destruct (kernel_size_bounds factor Hf) as [HKb HKf]. fold K in HKb, HKf.
  destruct (pyramid_partition factor rx Hf Hrx) as [Hx2 Hx1].
  destruct (pyramid_partition factor ry Hf Hry) as [Hy2 Hy1].
  fold K in Hx2, Hx1, Hy2, Hy1.
  unfold strided. cbn [filter].
  replace (rx <? K) with true by (symmetry; apply Z.ltb_lt; lia).
  replace (ry <? K) with true by (symmetry; apply Z.ltb_lt; lia).
  unfold data.
  destruct (Z.ltb_spec (rx + factor) K) as [Hx|Hx];
    destruct (Z.ltb_spec (ry + factor) K) as [Hy|Hy];
    cbn [flat_map map app];
    rewrite !(kernel_at_filled param d0 d1 K m) by (try assumption; lia);
    rewrite HKf; unfold Dsum, of_int; cbn [fold_left Dadd Dlift2 Deq];
    change (inject_Z 0) with 0%Q;
    try specialize (Hx2 Hx); try specialize (Hx1 Hx);
    try specialize (Hy2 Hy); try specialize (Hy1 Hy).
  - transitivity ((pyramid factor rx + pyramid factor (rx + factor)) *
                  (pyramid factor ry + pyramid factor (ry + factor)))%Q; [ring|].
    rewrite Hx2, Hy2. reflexivity.
  - transitivity ((pyramid factor rx + pyramid factor (rx + factor)) *
                  pyramid factor ry)%Q; [ring|].
    rewrite Hx2, Hy1. reflexivity.
  - transitivity (pyramid factor rx *
                  (pyramid factor ry + pyramid factor (ry + factor)))%Q; [ring|].
    rewrite Hx1, Hy2. reflexivity.
  - transitivity (pyramid factor rx * pyramid factor ry)%Q; [ring|].
    rewrite Hx1, Hy1. reflexivity.
Qed.
End FillerFacts.

(** ** The batched cyclic reader *)

Lemma succ_div_mod (k m : nat) :
  (0 < m)%nat ->
  ((k mod m + 1 < m)%nat /\
   ((k + 1) / m = k / m)%nat /\ ((k + 1) mod m = k mod m + 1)%nat) \/
  ((k mod m + 1 = m)%nat /\
   ((k + 1) / m = k / m + 1)%nat /\ ((k + 1) mod m = 0)%nat).
Proof.
  intros Hm.
  pose proof (Nat.div_mod_eq k m) as E.
  pose proof (Nat.mod_upper_bound k m ltac:(lia)) as Hb.
  destruct (Nat.eq_dec (k mod m + 1) m) as [He|Hne].
  - right. split; [exact He|]. split.
    + symmetry. apply Nat.div_unique with (r := 0%nat); nia.
    + symmetry. apply Nat.mod_unique with (q := (k / m + 1)%nat); nia.
  - left. split; [lia|]. split.
    + symmetry. apply Nat.div_unique with (r := (k mod m + 1)%nat); lia.
    + symmetry. apply Nat.mod_unique with (q := (k / m)%nat); lia.
Qed.

(** The reader about to serve request number [k]: once the cursor is
    wrapped, it stands at row [(k mod m) * B] of file [(k / m) mod 2]. *)
Lemma reader_position {A} (f0 f1 : File A) (tops : list string) (B m k : nat) :
  (0 < B)%nat -> (0 < m)%nat ->
  num_rows f0 = (m * B)%nat -> num_rows f1 = (m * B)%nat ->
  wrap_cursor (after k (LayerSetUp [f0; f1] B) tops) =
  {| files := [f0; f1]; batch_size := B; file_index := ((k / m) mod 2)%nat;
     row_cursor := (k mod m * B)%nat;
     window := nth ((k / m) mod 2)%nat [f0; f1] [] |}.
Proof.
  intros HB Hm H0 H1.
  assert (Hrows : forall i, num_rows (nth (i mod 2) [f0; f1] []) = (m * B)%nat).
  { intros i. pose proof (Nat.mod_upper_bound i 2 ltac:(lia)).
    destruct (i mod 2)%nat as [|[|?]]; simpl; auto; lia. }
  induction k as [|k IH].
  - simpl after. rewrite (Nat.Div0.div_0_l m), (Nat.Div0.mod_0_l m).
    change (0 mod 2)%nat with 0%nat.
    unfold wrap_cursor, LayerSetUp. cbn [window row_cursor batch_size files nth].
    rewrite H0.
    replace (m * B <? 0 + B)%nat with false by (symmetry; apply Nat.ltb_ge; nia).
    reflexivity.
  - simpl after. unfold Forward. rewrite IH.
    unfold wrap_cursor. cbn [window row_cursor batch_size files file_index].
    rewrite Hrows.
    replace (Datatypes.S k) with (k + 1)%nat by lia.
    destruct (succ_div_mod k m Hm) as [(Hlt & Hd & Hr) | (Heq & Hd & Hr)];
      rewrite Hd, Hr.
    + replace (m * B <? k mod m * B + B + B)%nat with false
        by (symmetry; apply Nat.ltb_ge; nia).
      f_equal. lia.
    + replace (m * B <? k mod m * B + B + B)%nat with true
        by (symmetry; apply Nat.ltb_lt; nia).
      simpl List.length.
      replace (((k / m) mod 2 + 1) mod 2)%nat with ((k / m + 1) mod 2)%nat
        by (rewrite Nat.Div0.add_mod_idemp_l; reflexivity).
      reflexivity.
Qed.

(** C3, as the model has it.  Over two files of R = m * B rows each, m and B
    at least 1, request number [k] (from 0) fills every requested column
    buffer with the B rows at offset (k mod m) * B of file (k / m) mod 2,
    and these rows exist.  With R = 2B this is the pattern of the test: rows
    [0, B) on even and [B, 2B) on odd iterations, the file switching every
    2 iterations. *)
Theorem batch_cycles {A} (f0 f1 : File A) (tops : list string) (B m : nat) :
  (0 < B)%nat -> (0 < m)%nat ->
  has_rows (m * B) tops f0 -> has_rows (m * B) tops f1 ->
  forall k,
    let active := nth ((k / m) mod 2)%nat [f0; f1] [] in
    batch k (LayerSetUp [f0; f1] B) tops =
    map (fun name => rows_at (k mod m * B) B (column name active)) tops /\
    (forall name, In name tops ->
       List.length (firstn B (skipn (k mod m * B) (column name active))) = B) /\
    (m = 2%nat ->
       (k mod m * B)%nat = (if (k mod 2 =? 0)%nat then 0 else B)%nat /\
       ((k / m) mod 2)%nat = (if (k mod 4 <? 2)%nat then 0 else 1)%nat).
Proof.
  intros HB Hm [H0 C0] [H1 C1] k active.
  split; [|split].
  - unfold batch, Forward.
    rewrite (reader_position f0 f1 tops B m k HB Hm H0 H1). reflexivity.
  - intros name Hin.
    assert (Hc : List.length (column name active) = (m * B)%nat).
    { unfold active. pose proof (Nat.mod_upper_bound (k / m) 2 ltac:(lia)).
      rewrite Forall_forall in C0, C1.
      destruct ((k / m) mod 2)%nat as [|[|?]]; simpl; auto; lia. }
    rewrite length_firstn, length_skipn, Hc.
    pose proof (Nat.mod_upper_bound k m ltac:(lia)). nia.
  - intros ->. split.
    + pose proof (Nat.mod_upper_bound k 2 ltac:(lia)).
      destruct (k mod 2)%nat as [|[|?]]; simpl; lia.
    + pose proof (Nat.div_mod_eq k 2) as E2.
      pose proof (Nat.div_mod_eq (k / 2) 2) as E4.
      pose proof (Nat.mod_upper_bound k 2 ltac:(lia)).
      pose proof (Nat.mod_upper_bound (k / 2) 2 ltac:(lia)).
      assert (Hk4 : (k mod 4 = 2 * ((k / 2) mod 2) + k mod 2)%nat).
      { symmetry. apply Nat.mod_unique with (q := (k / 2 / 2)%nat); lia. }
      destruct (Nat.ltb_spec (k mod 4) 2); lia.
Qed.

(** X4. [HDF5DataLayerTest::TestRead]: over the two sample files of 10 rows,
    with batch size 5, the ten iterations fill the three buffers with what
    the test expects. *)
Lemma TestRead_passes :
  forall iter, (iter < 10)%nat ->
    batch iter (LayerSetUp [sample_file 10 240 0; sample_file 10 240 2400] 5) sample_tops =
    TestRead_expected 5 240 iter.
Proof.
  intros iter Hi.
  do 10 (destruct iter as [|iter]; [vm_compute; reflexivity|]).
  lia.
Qed.

(** * The model run on concrete inputs *)

Ltac blob_ok_by_computation :=
  split; [repeat constructor; unfold INT_MAX; lia
         | split; [vm_compute; discriminate | reflexivity]].

(** ** The registry *)

(** "gabor" is none of the seven documented names, and [GetFiller] returns a
    filler for it. *)
Lemma GetFiller_gabor_not_documented :
  ~ In (type (sample_param "gabor" (-1) FAN_IN)) documented_names /\
  GetFiller (sample_param "gabor" (-1) FAN_IN) =
  Done (GaborFiller (sample_param "gabor" (-1) FAN_IN)) /\
  GetFiller (sample_param "gabor" (-1) FAN_IN) <> Abort UnknownStrategy.
Proof.
  split; [|split].
  - simpl. intros H. repeat (destruct H as [H|H]; [discriminate H|]). exact H.
  - reflexivity.
  - discriminate.
Qed.

Lemma GetFiller_registered_witness :
  (exists filler, GetFiller (sample_param "xavier" (-1) FAN_IN) = Done filler /\
                  strategy filler = "xavier"%string /\
                  filler_param_ filler = sample_param "xavier" (-1) FAN_IN) /\
  GetFiller (sample_param "sparse" (-1) FAN_IN) = Abort UnknownStrategy.
Proof.
  split.
  - apply (proj1 (GetFiller_registered (sample_param "xavier" (-1) FAN_IN))).
    simpl. tauto.
  - apply (proj2 (GetFiller_registered (sample_param "sparse" (-1) FAN_IN))).
    simpl. intros H. repeat (destruct H as [H|H]; [discriminate H|]). exact H.
Defined.

(** ** Sparsity *)

(** A constant fill with sparsity 0 of a one-element blob holding 5 fails
    with UnsupportedSparsity after it has overwritten the element with the
    value 7.  A fill with sparsity 0 fails otherwise where another check
    comes first: constant fill of an empty blob with EmptyBuffer, xavier
    fill of a one-axis blob, positive unit ball fill of a blob without axes
    and bilinear fill of a three-axis blob with UnsupportedRank, bilinear
    fill of a 2 x 3 kernel with FilterNotSquare. *)
Lemma ConstantFiller_writes_before_check :
  let constant := @ConstantFiller_Fill sample_collaborators (sample_param "constant" 0 FAN_IN) in
  fst (constant [1] (sample_memory [Fin 5] 0)) = Abort UnsupportedSparsity /\
  cpu_data (snd (constant [1] (sample_memory [Fin 5] 0))) = [of_int 7] /\
  cpu_data (snd (constant [1] (sample_memory [Fin 5] 0))) <> [Fin 5] /\
  fst (constant [0] (sample_memory [] 0)) = Abort EmptyBuffer /\
  fst (@XavierFiller_Fill sample_collaborators (sample_param "xavier" 0 FAN_IN)
         [2] (sample_memory [Fin 5; Fin 5] 0)) = Abort UnsupportedRank /\
  fst (@PositiveUnitballFiller_Fill sample_collaborators
         (sample_param "positive_unitball" 0 FAN_IN)
         [] (sample_memory [Fin 5] 0)) = Abort UnsupportedRank /\
  fst (@BilinearFiller_Fill sample_collaborators (sample_param "bilinear" 0 FAN_IN)
         [1; 2; 2] (sample_memory (repeat NaN 4) 0)) = Abort UnsupportedRank /\
  fst (@BilinearFiller_Fill sample_collaborators (sample_param "bilinear" 0 FAN_IN)
         [1; 1; 2; 3] (sample_memory (repeat NaN 6) 0)) = Abort FilterNotSquare.
Proof.
  repeat split; try reflexivity.
  vm_compute. discriminate.
Qed.

Lemma Fill_sparsity_checked_last_witness :
  let filler := XavierFiller (sample_param "xavier" 3 AVERAGE) in
  let m := sample_memory (repeat NaN 6) 0 in
  forbids_sparsity filler = true /\ blob_ok [2; 3] m /\
  other_checks_pass filler [2; 3] = true /\
  sparse (filler_param_ filler) <> -1 /\
  exists m',
    Fill (rebind filler (with_sparse (filler_param_ filler) (-1))) [2; 3] m = (Done tt, m') /\
    Fill filler [2; 3] m = (Abort UnsupportedSparsity, m').
Proof.
  assert (Hok : @blob_ok sample_collaborators [2; 3] (sample_memory (repeat NaN 6) 0))
    by blob_ok_by_computation.
  split; [reflexivity|]. split; [exact Hok|]. split; [reflexivity|].
  split; [discriminate|].
  apply (@Fill_sparsity_checked_last sample_collaborators
           (XavierFiller (sample_param "xavier" 3 AVERAGE)) [2; 3]
           (sample_memory (repeat NaN 6) 0) eq_refl Hok eq_refl).
  discriminate.
Defined.

(** ** Gaussian fill *)

(** A blob without axes holds one element.  Gaussian fill of it with
    sparsity 1 writes the Gaussian draw, then fails with NoAxes: no mask is
    drawn, the generator is where the Gaussian draw left it, and the
    element is the draw, not multiplied by anything. *)
Lemma GaussianFiller_Fill_no_axes :
  let param := sample_param "gaussian" 1 FAN_IN in
  let m := sample_memory [NaN] 0 in
  let gauss := @gaussian_variate sample_collaborators (mean param) (std param) in
  blob_ok [] m /\ 0 < blob_count [] /\ 0 <= sparse param /\
  GaussianFiller_Fill param [] m =
  (Abort NoAxes,
   {| cpu_data := [draw_at gauss 0 (caffe_rng m)];
      caffe_rng := rng_after gauss 1 (caffe_rng m) |}) /\
  fst (GaussianFiller_Fill param [] m) <> Done tt.
Proof.
  split; [blob_ok_by_computation|].
  split; [reflexivity|]. split; [simpl; lia|].
  split; [reflexivity | discriminate].
Qed.

Lemma GaussianFiller_Fill_sparse_witness :
  let param := sample_param "gaussian" 1 FAN_IN in
  let m := sample_memory (repeat NaN 6) 0 in
  blob_ok [2; 3] m /\ 0 < blob_count [2; 3] /\ 0 <= sparse param /\
  nth_error [2; 3] 0 = Some 2 /\
  fst (GaussianFiller_Fill param [2; 3] m) = Done tt /\
  List.length (cpu_data (snd (GaussianFiller_Fill param [2; 3] m))) = 6%nat.
Proof.
  assert (Hok : @blob_ok sample_collaborators [2; 3] (sample_memory (repeat NaN 6) 0))
    by blob_ok_by_computation.
  assert (Hs : 0 <= sparse (sample_param "gaussian" 1 FAN_IN)) by (simpl; lia).
  pose proof (proj1 (proj1 (@GaussianFiller_Fill_sparse sample_collaborators
                       (sample_param "gaussian" 1 FAN_IN) [2; 3]
                       (sample_memory (repeat NaN 6) 0) Hok eq_refl) Hs)
                2 eq_refl) as Hrun.
  split; [exact Hok|]. split; [reflexivity|]. split; [exact Hs|].
  split; [reflexivity|].
  rewrite Hrun. split; reflexivity.
Defined.

(** ** Xavier fill *)

(** C4, where the code departs from it.  A blob of shape (1, 2147483647)
    under AVERAGE: [fan_in + fan_out] is
    2^31, which an [int] does not hold; the [n] the code divides 3 by is
    -2^30 where the documented one is 2^30, and the bounds of xavier's
    uniform draws and the deviation of msra's normal draws come from the
    square root of a negative number. *)
Lemma XavierFiller_Fill_average_overflow :
  let blob := [1; 2147483647] in
  let param := sample_param "xavier" (-1) AVERAGE in
  let fan_in := blob_count blob / 1 in
  let fan_out := blob_count blob / 2147483647 in
  fan_in = 2147483647 /\ fan_out = 1 /\
  (documented_n AVERAGE fan_in fan_out == 1073741824)%Q /\
  Deq (fan_n param fan_in fan_out) (Fin (- 1073741824)) /\
  forall (C : Collaborators) (m : Memory), blob_ok blob m ->
    let n := fan_n param fan_in fan_out in
    let scale := sqrt (Ddiv (of_int 3) n) in
    let std := Dmul (of_int 1) (sqrt (Ddiv (of_int 2) n)) in
    XavierFiller_Fill param blob m =
    (Done tt,
     {| cpu_data := draws (uniform_variate (Dopp scale) scale)
                          (List.length (cpu_data m)) (caffe_rng m);
        caffe_rng := rng_after (uniform_variate (Dopp scale) scale)
                               (List.length (cpu_data m)) (caffe_rng m) |}) /\
    MSRAFiller_Fill param blob m =
    (Done tt,
     {| cpu_data := draws (gaussian_variate (of_int 0) std)
                          (List.length (cpu_data m)) (caffe_rng m);
        caffe_rng := rng_after (gaussian_variate (of_int 0) std)
                               (List.length (cpu_data m)) (caffe_rng m) |}).
Proof.
  split; [reflexivity|]. split; [reflexivity|]. split; [reflexivity|].
  split; [reflexivity|].
  intros C m Hok n scale std. split.
  - apply (XavierFiller_run (sample_param "xavier" (-1) AVERAGE)
             [1; 2147483647] 1 2147483647 [] m eq_refl Hok).
    vm_compute. discriminate.
  - apply (MSRAFiller_run (sample_param "xavier" (-1) AVERAGE)
             [1; 2147483647] 1 2147483647 [] m eq_refl Hok).
    vm_compute. discriminate.
Qed.

(** ** Positive unit ball fill *)

(** C7, where the code departs from it.  One group of one element whose
    uniform draw is 0: the element is
    divided by a sum of 0 and the fill ends normally on a buffer that holds
    no number. *)
Lemma PositiveUnitballFiller_zero_draw :
  draw_at (@uniform_variate sample_collaborators (of_int 0) (of_int 1)) 0 0 = Fin (0 # 7) /\
  @PositiveUnitballFiller_Fill sample_collaborators
    (sample_param "positive_unitball" (-1) FAN_IN) [1; 1] (sample_memory [Fin 5] 0) =
  (Done tt, sample_memory [NaN] 3).
Proof.
  split; vm_compute; reflexivity.
Qed.

Lemma PositiveUnitballFiller_unchecked_division_witness :
  let param := sample_param "positive_unitball" (-1) FAN_IN in
  let m := sample_memory (repeat NaN 2) 0 in
  blob_ok [2; 1] m /\ 0 < blob_count [2; 1] /\
  exists m', PositiveUnitballFiller_Fill param [2; 1] m = (Done tt, m') /\
             nth 0 (cpu_data m') NaN = NaN /\
             is_finite (nth 1 (cpu_data m') NaN) = true.
Proof.
  assert (Hok : @blob_ok sample_collaborators [2; 1] (sample_memory (repeat NaN 2) 0))
    by blob_ok_by_computation.
  split; [exact Hok|]. split; [reflexivity|].
  destruct (@PositiveUnitballFiller_unchecked_division sample_collaborators
              (sample_param "positive_unitball" (-1) FAN_IN) [2; 1] 2 [1]
              (sample_memory (repeat NaN 2) 0) eq_refl Hok eq_refl)
    as (m' & Hrun & Hgroups).
  exists m'. split; [exact Hrun|]. split.
  - apply (proj2 (proj2 (Hgroups 0%nat 0%nat ltac:(vm_compute; lia) ltac:(vm_compute; lia)))).
    vm_compute. repeat constructor.
  - apply (proj1 (proj2 (Hgroups 1%nat 0%nat ltac:(vm_compute; lia) ltac:(vm_compute; lia)))
             (0 + (0 + (1 - 0) * (3 # 7)))%Q).
    + vm_compute. reflexivity.
    + vm_compute. reflexivity.
Defined.

(** ** Bilinear fill *)

(** The kernel of a blob of shape (1, 1, 3, 3): f = 2 is even, the fill
    succeeds and no element is 1; the largest is 9/16. *)
Lemma BilinearFiller_peak_below_one :
  let r := @BilinearFiller_Fill sample_collaborators
             (sample_param "bilinear" (-1) FAN_IN) [1; 1; 3; 3]
             (sample_memory (repeat NaN 9) 0) in
  fst r = Done tt /\
  Forall (fun x => Dle x (Fin (9 # 16)) /\ ~ Deq x (Fin 1)) (cpu_data (snd r)).
Proof.
  split; [reflexivity|].
  vm_compute.
  repeat (constructor; [split; [discriminate | intros H; discriminate H]|]).
  constructor.
Qed.

Lemma BilinearFiller_Fill_kernel_witness :
  let param := sample_param "bilinear" (-1) FAN_IN in
  let m := sample_memory (repeat NaN 9) 0 in
  blob_ok [1; 1; 3; 3] m /\
  BilinearFiller_Fill param [1; 3; 3] (sample_memory (repeat NaN 9) 0) =
  (Abort UnsupportedRank, sample_memory (repeat NaN 9) 0) /\
  nth 4 (cpu_data (snd (BilinearFiller_Fill param [1; 1; 3; 3] m))) NaN =
  Fin (pyramid 2 1 * pyramid 2 1).
Proof.
  assert (Hok : @blob_ok sample_collaborators [1; 1; 3; 3] (sample_memory (repeat NaN 9) 0))
    by blob_ok_by_computation.
  assert (Hok3 : @blob_ok sample_collaborators [1; 3; 3] (sample_memory (repeat NaN 9) 0))
    by blob_ok_by_computation.
  split; [exact Hok|]. split.
  - apply (proj1 (@BilinearFiller_Fill_kernel sample_collaborators
                    (sample_param "bilinear" (-1) FAN_IN) [1; 3; 3]
                    (sample_memory (repeat NaN 9) 0) Hok3)); discriminate.
  - destruct (proj2 (@BilinearFiller_Fill_kernel sample_collaborators
                       (sample_param "bilinear" (-1) FAN_IN) [1; 1; 3; 3]
                       (sample_memory (repeat NaN 9) 0) Hok) _ eq_refl)
      as (_ & _ & Hsame).
    rewrite (Hsame _ Hok). vm_compute. reflexivity.
Defined.

Lemma BilinearFiller_Fill_pyramid_witness :
  let param := sample_param "bilinear" (-1) FAN_IN in
  let m := sample_memory (repeat NaN 50) 0 in
  blob_ok [2; 1; 5; 5] m /\ 0 < 2 /\ 0 < 5 /\
  exists m', BilinearFiller_Fill param [2; 1; 5; 5] m = (Done tt, m') /\
             Deq (nth 12 (cpu_data m') NaN) (Fin 1).
Proof.
  assert (Hok : @blob_ok sample_collaborators [2; 1; 5; 5] (sample_memory (repeat NaN 50) 0))
    by blob_ok_by_computation.
  split; [exact Hok|]. split; [reflexivity|]. split; [reflexivity|].
  destruct (@BilinearFiller_Fill_pyramid sample_collaborators
              (sample_param "bilinear" (-1) FAN_IN) 2 5
              (sample_memory (repeat NaN 50) 0) Hok eq_refl eq_refl)
    as (m' & Hrun & _ & Hpeak & _).
  exists m'. split; [exact Hrun|]. exact Hpeak.
Defined.

Lemma BilinearFiller_channels_identical_witness :
  let param := sample_param "bilinear" (-1) FAN_IN in
  let m := sample_memory (repeat NaN 50) 0 in
  blob_ok [2; 1; 5; 5] m /\ 5 = 5 /\ 0 <= 37 < blob_count [2; 1; 5; 5] /\
  nth 37 (cpu_data (snd (BilinearFiller_Fill param [2; 1; 5; 5] m))) NaN =
  nth 12 (cpu_data (snd (BilinearFiller_Fill param [2; 1; 5; 5] m))) NaN.
Proof.
  assert (Hok : @blob_ok sample_collaborators [2; 1; 5; 5] (sample_memory (repeat NaN 50) 0))
    by blob_ok_by_computation.
  split; [exact Hok|]. split; [reflexivity|]. split; [vm_compute; split; [discriminate | reflexivity]|].
  apply (@BilinearFiller_channels_identical sample_collaborators
           (sample_param "bilinear" (-1) FAN_IN) 2 1 5 5
           (sample_memory (repeat NaN 50) 0) Hok eq_refl 37).
  vm_compute. split; [discriminate | reflexivity].
Defined.

(** ** The reader *)

(** Two files of 15 rows read in batches of 5: iteration 2, an even one,
    returns rows [10, 15) of the first file, not rows [0, 5) of the
    second. *)
Lemma batch_three_batches_per_file :
  let r := LayerSetUp [sample_file 15 2 0; sample_file 15 2 2400] 5 in
  batch 2 r ["data"%string; "label"%string] =
  [[20; 21; 22; 23; 24; 25; 26; 27; 28; 29]; [11; 12; 13; 14; 15]] /\
  batch 2 r ["data"%string; "label"%string] <>
  map (fun name => rows_at ((2 mod 2) * 5) 5
                           (column name (nth (if (2 mod 4 <? 2)%nat then 0 else 1)
                                             (files r) [])))
      ["data"%string; "label"%string].
Proof.
  split; [vm_compute; reflexivity|].
  vm_compute. discriminate.
Qed.

Lemma batch_cycles_witness :
  let f0 := sample_file 10 240 0 in
  let f1 := sample_file 10 240 2400 in
  (0 < 5)%nat /\ (0 < 2)%nat /\
  has_rows (2 * 5) sample_tops f0 /\ has_rows (2 * 5) sample_tops f1 /\
  batch 3 (LayerSetUp [f0; f1] 5) sample_tops =
  map (fun name => rows_at 5 5 (column name f1)) sample_tops.
Proof.
  assert (H0 : has_rows (2 * 5) sample_tops (sample_file 10 240 0)).
  { split; [reflexivity | repeat constructor]. }
  assert (H1 : has_rows (2 * 5) sample_tops (sample_file 10 240 2400)).
  { split; [reflexivity | repeat constructor]. }
  split; [lia|]. split; [lia|]. split; [exact H0|]. split; [exact H1|].
  apply (proj1 (batch_cycles (sample_file 10 240 0) (sample_file 10 240 2400)
                  sample_tops 5 2 ltac:(lia) ltac:(lia) H0 H1 3%nat)).
Defined.

(** ** Further runs *)

Lemma sample_uniform_in_unit_interval : @uniform_in_unit_interval sample_collaborators.
Proof.
  intros g. cbn [uniform_variate sample_collaborators fst].
  unfold of_int, Dsub, Dmul, Dadd, Dlift2, Dbetween, sample_unit.
  pose proof (Z.mod_pos_bound g 8 ltac:(lia)) as Hb.
  set (k := g mod 8) in *.
  assert (H0 : (0 <= inject_Z k)%Q) by (change 0%Q with (inject_Z 0); rewrite <- Zle_Qle; lia).
  assert (H7 : (inject_Z k <= 7)%Q) by (change 7%Q with (inject_Z 7); rewrite <- Zle_Qle; lia).
  change (inject_Z 0) with 0%Q. change (inject_Z 1) with 1%Q.
  set (x := inject_Z k) in *. clearbody x. unfold Qdiv.
  assert (E : (/ 7 == 1 # 7)%Q) by reflexivity. rewrite E. split; lra.
Qed.

Lemma XavierFiller_MSRAFiller_documented_witness :
  let param := sample_param "xavier" (-1) AVERAGE in
  let m := sample_memory (repeat NaN 6) 0 in
  blob_ok [2; 3] m /\ 0 < blob_count [2; 3] /\
  blob_count [2; 3] / 2 + blob_count [2; 3] / 3 <= INT_MAX /\
  exists n, Deq n (Fin (5 # 2)) /\
    fst (XavierFiller_Fill param [2; 3] m) = Done tt /\
    fst (MSRAFiller_Fill param [2; 3] m) = Done tt.
Proof.
  assert (Hok : @blob_ok sample_collaborators [2; 3] (sample_memory (repeat NaN 6) 0))
    by blob_ok_by_computation.
  assert (Hs : blob_count [2; 3] / 2 + blob_count [2; 3] / 3 <= INT_MAX)
    by (vm_compute; discriminate).
  split; [exact Hok|]. split; [reflexivity|]. split; [exact Hs|].
  destruct (@XavierFiller_MSRAFiller_documented sample_collaborators
              (sample_param "xavier" (-1) AVERAGE) [2; 3] 2 3 []
              (sample_memory (repeat NaN 6) 0) eq_refl Hok eq_refl Hs)
    as (n & Hn & Hx & Hm).
  exists n. split; [exact Hn|]. rewrite Hx, Hm. split; reflexivity.
Defined.

Lemma PositiveUnitballFiller_normalizes_witness :
  let param := sample_param "positive_unitball" (-1) FAN_IN in
  let m := sample_memory (repeat NaN 6) 1 in
  blob_ok [2; 3] m /\ 0 < blob_count [2; 3] /\
  @uniform_in_unit_interval sample_collaborators /\
  exists m', PositiveUnitballFiller_Fill param [2; 3] m = (Done tt, m') /\
             Forall (Dbetween 0 1) (cpu_data m') /\
             Deq (Dsum (group 3 0 (cpu_data m'))) (Fin 1) /\
             Deq (Dsum (group 3 1 (cpu_data m'))) (Fin 1).
Proof.
  assert (Hok : @blob_ok sample_collaborators [2; 3] (sample_memory (repeat NaN 6) 1))
    by blob_ok_by_computation.
  split; [exact Hok|]. split; [reflexivity|].
  split; [exact sample_uniform_in_unit_interval|].
  destruct (@PositiveUnitballFiller_normalizes sample_collaborators
              (sample_param "positive_unitball" (-1) FAN_IN) [2; 3] 2 [3]
              (sample_memory (repeat NaN 6) 1) eq_refl Hok eq_refl
              sample_uniform_in_unit_interval)
    as (m' & Hrun & _ & Hall & Hsum).
  - intros i Hi. change (Z.to_nat 2) with 2%nat in Hi.
    destruct i as [|[|i]]; [| |lia]; eexists; split;
      try (vm_compute; reflexivity).
  - exists m'. split; [exact Hrun|]. split; [exact Hall|].
    split; apply Hsum; vm_compute; lia.
Defined.

Lemma ConstantFiller_Fill_all_value_witness :
  let param := sample_param "constant" (-1) FAN_IN in
  let m := sample_memory (repeat NaN 6) 0 in
  blob_ok [2; 3] m /\ 0 < blob_count [2; 3] /\
  Forall (fun x => x = of_int 7) (cpu_data (snd (ConstantFiller_Fill param [2; 3] m))).
Proof.
  assert (Hok : @blob_ok sample_collaborators [2; 3] (sample_memory (repeat NaN 6) 0))
    by blob_ok_by_computation.
  split; [exact Hok|]. split; [reflexivity|].
  apply (@ConstantFiller_Fill_all_value sample_collaborators
           (sample_param "constant" (-1) FAN_IN) [2; 3]
           (sample_memory (repeat NaN 6) 0) Hok eq_refl).
Defined.

Lemma TestRead_passes_witness :
  (7 < 10)%nat /\
  batch 7 (LayerSetUp [sample_file 10 240 0; sample_file 10 240 2400] 5) sample_tops =
  TestRead_expected 5 240 7.
Proof.
  split; [lia|]. apply (TestRead_passes 7 ltac:(lia)).
Defined.

(** ** The further properties on concrete inputs *)

Lemma sample_uniform_in_range : @uniform_in_range sample_collaborators.
Proof.
  intros lo hi g Hle. cbn [uniform_variate sample_collaborators fst].
  unfold Dsub, Dmul, Dadd, Dlift2, Dbetween, sample_unit.
  pose proof (Z.mod_pos_bound g 8 ltac:(lia)) as Hb.
  set (k := g mod 8) in *.
  assert (H0 : (0 <= inject_Z k)%Q) by (change 0%Q with (inject_Z 0); rewrite <- Zle_Qle; lia).
  assert (H7 : (inject_Z k <= 7)%Q) by (change 7%Q with (inject_Z 7); rewrite <- Zle_Qle; lia).
  set (x := inject_Z k) in *. clearbody x. unfold Qdiv.
  assert (E : (/ 7 == 1 # 7)%Q) by reflexivity. rewrite E.
  split; nra.
Qed.

Lemma sample_bernoulli_is_bit : @bernoulli_is_bit sample_collaborators.
Proof.
  intros p g. cbn [bernoulli_variate sample_collaborators fst].
  destruct p as [q|]; [|left; reflexivity].
  destruct (Qle_bool (sample_unit g) q); [right | left]; reflexivity.
Qed.

Lemma UniformFiller_Fill_range_witness :
  let param := sample_param "uniform" (-1) FAN_IN in
  let m := sample_memory (repeat NaN 6) 3 in
  blob_ok [2; 3] m /\ 0 < blob_count [2; 3] /\
  min param = Fin 0 /\ max param = Fin 1 /\ (0 <= 1)%Q /\
  @uniform_in_range sample_collaborators /\
  fst (UniformFiller_Fill param [2; 3] m) = Done tt /\
  Forall (Dbetween 0 1) (cpu_data (snd (UniformFiller_Fill param [2; 3] m))).
Proof.
  assert (Hok : @blob_ok sample_collaborators [2; 3] (sample_memory (repeat NaN 6) 3))
    by blob_ok_by_computation.
  assert (Hle : (0 <= 1)%Q) by (unfold Qle; simpl; lia).
  split; [exact Hok|]. split; [reflexivity|]. split; [reflexivity|].
  split; [reflexivity|]. split; [exact Hle|].
  split; [exact sample_uniform_in_range|].
  destruct (@UniformFiller_Fill_range sample_collaborators
              (sample_param "uniform" (-1) FAN_IN) [2; 3]
              (sample_memory (repeat NaN 6) 3) 0 1 Hok eq_refl eq_refl eq_refl Hle
              sample_uniform_in_range)
    as (m' & Hrun & _ & Hall & _).
  rewrite Hrun. split; [reflexivity | exact Hall].
Defined.

Lemma XavierFiller_Fill_support_witness :
  let param := sample_param "xavier" (-1) FAN_IN in
  let m := sample_memory (repeat NaN 6) 3 in
  blob_ok [2; 3] m /\ 0 < blob_count [2; 3] /\
  @sqrt sample_collaborators
    (Ddiv (of_int 3)
          (fan_n param (blob_count [2; 3] / 2) (blob_count [2; 3] / 3))) = Fin 1 /\
  (0 <= 1)%Q /\ @uniform_in_range sample_collaborators /\
  fst (XavierFiller_Fill param [2; 3] m) = Done tt /\
  Forall (Dbetween (- (1)) 1) (cpu_data (snd (XavierFiller_Fill param [2; 3] m))).
Proof.
  assert (Hok : @blob_ok sample_collaborators [2; 3] (sample_memory (repeat NaN 6) 3))
    by blob_ok_by_computation.
  assert (Hle : (0 <= 1)%Q) by (unfold Qle; simpl; lia).
  split; [exact Hok|]. split; [reflexivity|]. split; [reflexivity|].
  split; [exact Hle|]. split; [exact sample_uniform_in_range|].
  destruct (@XavierFiller_Fill_support sample_collaborators
              (sample_param "xavier" (-1) FAN_IN) [2; 3] 2 3 []
              (sample_memory (repeat NaN 6) 3) 1 eq_refl Hok eq_refl eq_refl Hle
              sample_uniform_in_range)
    as (m' & Hrun & _ & Hall).
  rewrite Hrun. split; [reflexivity | exact Hall].
Defined.

Lemma Fill_validates_before_writing_witness :
  let filler := XavierFiller (sample_param "xavier" 0 FAN_IN) in
  let m := sample_memory [Fin 5; Fin 5] 0 in
  validates_first filler = true /\ blob_ok [2] m /\
  Fill filler [2] m = (Abort UnsupportedRank, m) /\
  UnsupportedRank <> UnsupportedSparsity /\
  In UnsupportedRank [EmptyBuffer; UnsupportedRank; FilterNotSquare; FilterNotCube].
Proof.
  assert (Hok : @blob_ok sample_collaborators [2] (sample_memory [Fin 5; Fin 5] 0))
    by blob_ok_by_computation.
  assert (Hne : UnsupportedRank <> UnsupportedSparsity) by discriminate.
  split; [reflexivity|]. split; [exact Hok|]. split; [reflexivity|].
  split; [exact Hne|].
  apply (proj2 (@Fill_validates_before_writing sample_collaborators
                  (XavierFiller (sample_param "xavier" 0 FAN_IN)) [2]
                  (sample_memory [Fin 5; Fin 5] 0) (sample_memory [Fin 5; Fin 5] 0)
                  UnsupportedRank eq_refl Hok eq_refl Hne)).
Defined.

Lemma Fill_empty_buffer_witness :
  let m := sample_memory [] 0 in
  blob_ok [0; 3] m /\ blob_count [0; 3] = 0 /\
  checks_count (UniformFiller (sample_param "uniform" (-1) FAN_IN)) = true /\
  Fill (UniformFiller (sample_param "uniform" (-1) FAN_IN)) [0; 3] m =
  (Abort EmptyBuffer, m).
Proof.
  assert (Hok : @blob_ok sample_collaborators [0; 3] (sample_memory [] 0))
    by blob_ok_by_computation.
  split; [exact Hok|]. split; [reflexivity|]. split; [reflexivity|].
  apply (proj1 (@Fill_empty_buffer sample_collaborators
                  (UniformFiller (sample_param "uniform" (-1) FAN_IN)) [0; 3]
                  (sample_memory [] 0) Hok eq_refl)).
  reflexivity.
Defined.

Lemma PositiveUnitballFiller_Fill_empty_witness :
  let param := sample_param "positive_unitball" (-1) FAN_IN in
  let m := sample_memory [] 0 in
  blob_ok [0; 3] m /\ blob_count [0; 3] = 0 /\
  PositiveUnitballFiller_Fill param [0; 3] m = (Abort DivideByZero, m) /\
  blob_ok [3; 0] m /\ blob_count [3; 0] = 0 /\
  PositiveUnitballFiller_Fill param [3; 0] m = (Abort EmptyBuffer, m).
Proof.
  assert (Hok : @blob_ok sample_collaborators [0; 3] (sample_memory [] 0))
    by blob_ok_by_computation.
  assert (Hok' : @blob_ok sample_collaborators [3; 0] (sample_memory [] 0))
    by blob_ok_by_computation.
  split; [exact Hok|]. split; [reflexivity|].
  split; [exact (@PositiveUnitballFiller_Fill_empty sample_collaborators
                   (sample_param "positive_unitball" (-1) FAN_IN) 0 [3]
                   (sample_memory [] 0) Hok eq_refl)|].
  split; [exact Hok'|]. split; [reflexivity|].
  exact (@PositiveUnitballFiller_Fill_empty sample_collaborators
           (sample_param "positive_unitball" (-1) FAN_IN) 3 [0]
           (sample_memory [] 0) Hok' eq_refl).
Defined.

Lemma GaussianFiller_Fill_keeps_or_zeroes_witness :
  let param := sample_param "gaussian" 1 FAN_IN in
  let m := sample_memory (repeat NaN 6) 0 in
  let gauss := @gaussian_variate sample_collaborators (mean param) (std param) in
  blob_ok [2; 3] m /\ 0 < blob_count [2; 3] /\ nth_error [2; 3] 0 = Some 2 /\
  0 <= sparse param /\ @bernoulli_is_bit sample_collaborators /\
  (2 < List.length (cpu_data m))%nat /\
  let y := nth 2 (cpu_data (snd (GaussianFiller_Fill param [2; 3] m))) NaN in
  y = Dmul (draw_at gauss 2 (caffe_rng m)) (of_int 1) \/
  y = Dmul (draw_at gauss 2 (caffe_rng m)) (of_int 0).
Proof.
  assert (Hok : @blob_ok sample_collaborators [2; 3] (sample_memory (repeat NaN 6) 0))
    by blob_ok_by_computation.
  assert (Hs : 0 <= sparse (sample_param "gaussian" 1 FAN_IN)) by (simpl; lia).
  assert (Hk : (2 < List.length (cpu_data (sample_memory (repeat NaN 6) 0)))%nat)
    by (simpl; lia).
  split; [exact Hok|]. split; [reflexivity|]. split; [reflexivity|].
  split; [exact Hs|]. split; [exact sample_bernoulli_is_bit|]. split; [exact Hk|].
  exact (proj1 (@GaussianFiller_Fill_keeps_or_zeroes sample_collaborators
                  (sample_param "gaussian" 1 FAN_IN) [2; 3]
                  (sample_memory (repeat NaN 6) 0) 2 Hok eq_refl eq_refl Hs
                  sample_bernoulli_is_bit 2%nat Hk)).
Defined.

Lemma Fill_stays_in_bounds_witness :
  let filler := PositiveUnitballFiller (sample_param "positive_unitball" (-1) FAN_IN) in
  let m := sample_memory (repeat NaN 6) 1 in
  in_filler_hpp filler = true /\ blob_ok [2; 3] m /\
  fst (Fill filler [2; 3] m) <> Abort OutOfBounds /\
  List.length (cpu_data (snd (Fill filler [2; 3] m))) = 6%nat.
Proof.
  assert (Hok : @blob_ok sample_collaborators [2; 3] (sample_memory (repeat NaN 6) 1))
    by blob_ok_by_computation.
  split; [reflexivity|]. split; [exact Hok|].
  destruct (@Fill_stays_in_bounds sample_collaborators
              (PositiveUnitballFiller (sample_param "positive_unitball" (-1) FAN_IN))
              [2; 3] (sample_memory (repeat NaN 6) 1) eq_refl Hok) as [Hb Hl].
  split; [exact Hb|]. rewrite Hl. reflexivity.
Defined.

Lemma BilinearFiller_Fill_symmetric_witness :
  let param := sample_param "bilinear" (-1) FAN_IN in
  let m := sample_memory (repeat NaN 16) 0 in
  let data := cpu_data (snd (BilinearFiller_Fill param [1; 1; 4; 4] m)) in
  0 < 2 /\ kernel_size 2 = 4 /\ blob_ok [1; 1; 4; 4] m /\
  bilinear_f 4 = 2 /\
  Deq (kernel_at data 4 0 1 0) (kernel_at data 4 0 1 3) /\
  Deq (kernel_at data 4 0 1 0) (kernel_at data 4 0 0 1).
Proof.
  assert (Hok : @blob_ok sample_collaborators [1; 1; 4; 4] (sample_memory (repeat NaN 16) 0))
    by blob_ok_by_computation.
  assert (Hf : 0 < 2) by lia.
  destruct (@BilinearFiller_Fill_symmetric sample_collaborators
              (sample_param "bilinear" (-1) FAN_IN) 1 1 2
              (sample_memory (repeat NaN 16) 0) Hf Hok) as [Ef Hsym].
  destruct (Hsym 0 1 0 ltac:(lia) ltac:(vm_compute; split; [discriminate | reflexivity])
                 ltac:(vm_compute; split; [discriminate | reflexivity]))
    as (_ & Hx & _ & Ht).
  split; [exact Hf|]. split; [reflexivity|]. split; [exact Hok|].
  split; [exact Ef|]. split; [exact Hx | exact Ht].
Defined.

Lemma BilinearFiller_Fill_interpolates_witness :
  let param := sample_param "bilinear" (-1) FAN_IN in
  let m := sample_memory (repeat NaN 16) 0 in
  let data := cpu_data (snd (BilinearFiller_Fill param [1; 1; 4; 4] m)) in
  0 < 2 /\ kernel_size 2 = 4 /\ blob_ok [1; 1; 4; 4] m /\
  strided 4 2 1 = [1; 3] /\ strided 4 2 0 = [0; 2] /\
  Deq (Dsum (flat_map (fun y => map (fun x => kernel_at data 4 0 y x) (strided 4 2 1))
                      (strided 4 2 0)))
      (Fin 1).
Proof.
  assert (Hok : @blob_ok sample_collaborators [1; 1; 4; 4] (sample_memory (repeat NaN 16) 0))
    by blob_ok_by_computation.
  assert (Hf : 0 < 2) by lia.
  split; [exact Hf|]. split; [reflexivity|]. split; [exact Hok|].
  split; [reflexivity|]. split; [reflexivity|].
  exact (@BilinearFiller_Fill_interpolates sample_collaborators
           (sample_param "bilinear" (-1) FAN_IN) 1 1 2
           (sample_memory (repeat NaN 16) 0) Hf Hok 0 0 1
           ltac:(lia) ltac:(lia) ltac:(lia)).
Defined.
